(** * MapRPFrontend: the synchronisation core, embedded and verified

    A shallow embedding of the JavaScript sources
    - [src/DrawControl.jsx]   (coordinate cleaning, ring closing, layer sync),
    - [App.jsx]               (inbound message handling, shape statistics),
    - [Messaging/MapLoader.jsx] and [Messaging/WebSocketService.jsx],
    - [Sidebar/MarkerPopup.jsx] (the list of markers),
    followed by the properties of the specification settled against it, and
    by further properties of the code: the store under its messages, the
    validator, the layer effect, and the gestures with what they publish.

    JavaScript values are a tagged union, numbers are IEEE-754 binary64
    (Rocq's primitive floats), exceptions are an explicit error monad, and
    what the JavaScript engine and the Leaflet toolkit contribute is kept
    behind two interfaces ([Engine], [Toolkit]) so that every general
    theorem holds for any engine and any toolkit. *)

From Stdlib Require Import ZArith Floats Ascii String.
From stdpp Require Import base option list strings pretty gmap.

Local Open Scope string_scope.
Local Open Scope list_scope.

(* ===================================================================== *)
(** * JavaScript values *)
(* ===================================================================== *)

Abbreviation num := PrimFloat.float.

Unset Elimination Schemes.
Inductive value : Type :=
| VUndefined
| VNull
| VBool (b : bool)
| VNum (x : num)
| VStr (s : string)
| VArr (elems : list value)
| VObj (fields : list (string * value)).
Set Elimination Schemes.

(** Induction that reaches below arrays and objects. *)
Definition value_ind (P : value -> Prop)
    (Hundef : P VUndefined) (Hnull : P VNull)
    (Hbool : forall b, P (VBool b)) (Hnum : forall x, P (VNum x))
    (Hstr : forall s, P (VStr s))
    (Harr : forall l, Forall P l -> P (VArr l))
    (Hobj : forall fs, Forall (fun kv => P (snd kv)) fs -> P (VObj fs)) :
  forall v, P v :=
  fix go (v : value) : P v :=
    match v with
    | VUndefined => Hundef
    | VNull => Hnull
    | VBool b => Hbool b
    | VNum x => Hnum x
    | VStr s => Hstr s
    | VArr l =>
        Harr l ((fix all (l : list value) : Forall P l :=
                   match l with
                   | [] => @List.Forall_nil _ P
                   | x :: r => @List.Forall_cons _ P x r (go x) (all r)
                   end) l)
    | VObj fs =>
        Hobj fs ((fix all (fs : list (string * value)) :
                    Forall (fun kv => P (snd kv)) fs :=
                    match fs with
                    | [] => @List.Forall_nil _ _
                    | kv :: r => @List.Forall_cons _ _ kv r (go (snd kv)) (all r)
                    end) fs)
    end.

(** Exceptions of the engine and of the toolkit. *)
Inductive exn : Type :=
| TypeError      (* property of null, not iterable, assignment to a primitive *)
| SyntaxError    (* JSON.parse *)
| ToolkitError   (* thrown inside Leaflet *)
| OutOfModel.    (* a top-level array decorated with named properties *)

Inductive result (A : Type) : Type :=
| Return (a : A)
| Throw (e : exn).
Arguments Return {A} a.
Arguments Throw {A} e.

#[global] Instance result_ret : MRet result := fun A a => Return a.
#[global] Instance result_bind : MBind result := fun A B f m =>
  match m with Return a => f a | Throw e => Throw e end.
#[global] Instance result_fmap : FMap result := fun A B f m =>
  match m with Return a => Return (f a) | Throw e => Throw e end.

(** [xs.map(f)] for a callback that may throw: left to right, first throw wins. *)
Fixpoint mapR {A B} (f : A -> result B) (l : list A) : result (list B) :=
  match l with
  | [] => Return []
  | x :: r => y ← f x; ys ← mapR f r; Return (y :: ys)
  end.

(* --------------------------------------------------------------------- *)
(** ** Numbers *)

Definition num_of_nat (n : nat) : num :=
  PrimFloat.of_uint63 (Uint63.of_Z (Z.of_nat n)).


(* --------------------------------------------------------------------- *)
(** ** Operators of the language *)

Definition typeof (v : value) : string :=
  match v with
  | VUndefined => "undefined"
  | VNull | VArr _ | VObj _ => "object"
  | VBool _ => "boolean"
  | VNum _ => "number"
  | VStr _ => "string"
  end.

(** ToBoolean. *)
Definition truthy (v : value) : bool :=
  match v with
  | VUndefined | VNull => false
  | VBool b => b
  | VNum x => negb (PrimFloat.is_nan x || PrimFloat.is_zero x)
  | VStr s => negb (String.eqb s EmptyString)
  | VArr _ | VObj _ => true
  end.

(** [a === b].  Arrays and objects are compared by identity; [same] tells
    whether the two operands are one and the same heap object.  Every value
    handled here is a tree (it comes out of [JSON.parse] or of [Array.map]),
    so two array or object operands are the same object exactly when they
    were read from the same place. *)
Definition strictEq (same : bool) (a b : value) : bool :=
  match a, b with
  | VUndefined, VUndefined => true
  | VNull, VNull => true
  | VBool x, VBool y => Bool.eqb x y
  | VNum x, VNum y => PrimFloat.eqb x y
  | VStr x, VStr y => String.eqb x y
  | VArr _, VArr _ => same
  | VObj _, VObj _ => same
  | _, _ => false
  end.

(** Own-property lookup in an object literal: the first binding of the key. *)
Fixpoint assoc (k : string) (fs : list (string * value)) : option value :=
  match fs with
  | [] => None
  | (k', v) :: r => if String.eqb k k' then Some v else assoc k r
  end.

(** [o.k = v]: an existing key keeps its place, a new key goes last. *)
Fixpoint obj_set (k : string) (v : value) (fs : list (string * value))
  : list (string * value) :=
  match fs with
  | [] => [(k, v)]
  | (k', v') :: r => if String.eqb k k' then (k, v) :: r else (k', v') :: obj_set k v r
  end.

Definition char_at (s : string) (i : nat) : value :=
  match String.get i s with
  | Some c => VStr (String c EmptyString)
  | None => VUndefined
  end.

(** [v.name] for a name that is not an array index and not [length]:
    reading a property of [null] or [undefined] throws; primitives, arrays
    and strings have no such own property. *)
Definition getProp (v : value) (name : string) : result value :=
  match v with
  | VUndefined | VNull => Throw TypeError
  | VObj fs => Return (default VUndefined (assoc name fs))
  | _ => Return VUndefined
  end.

(** Decimal spelling of an index, as an object key. *)
Definition index_key (i : nat) : string :=
  match i with
  | 0 => "0" | 1 => "1" | 2 => "2" | 3 => "3" | 4 => "4"
  | 5 => "5" | 6 => "6" | 7 => "7" | 8 => "8" | 9 => "9"
  | _ => pretty i
  end.

(** [v[i]] for a non-negative integer [i]. *)
Definition getIndex (v : value) (i : nat) : result value :=
  match v with
  | VUndefined | VNull => Throw TypeError
  | VArr l => Return (default VUndefined (l !! i))
  | VStr s => Return (char_at s i)
  | VObj fs => Return (default VUndefined (assoc (index_key i) fs))
  | VBool _ | VNum _ => Return VUndefined
  end.

(** [v.length !== n] is modelled through [v.length === n], decided on the
    length itself for arrays and strings. *)
Definition lengthIs (v : value) (n : nat) : result bool :=
  match v with
  | VUndefined | VNull => Throw TypeError
  | VArr l => Return (Nat.eqb (length l) n)
  | VStr s => Return (Nat.eqb (String.length s) n)
  | VObj fs => Return (strictEq false (default VUndefined (assoc "length" fs))
                                (VNum (num_of_nat n)))
  | VBool _ | VNum _ => Return false
  end.

Fixpoint chars (s : string) : list value :=
  match s with
  | EmptyString => []
  | String c r => VStr (String c EmptyString) :: chars r
  end.

(** The iteration protocol ([for ... of], [[...x]]): arrays and strings are
    iterable, everything else throws. *)
Definition iterate (v : value) : result (list value) :=
  match v with
  | VArr l => Return l
  | VStr s => Return (chars s)
  | _ => Throw TypeError
  end.

(* --------------------------------------------------------------------- *)
(** ** Layers and toolkit calls *)

(** A Leaflet layer, as far as the effect reads and writes it: the
    [feature] it carries. *)
Record layer : Type := Layer { layer_feature : value }.

(** Calls into the toolkit, in the order they are made.  [Destroy] is
    [drawnItems.removeLayer] and [map.removeLayer] plus the deletion from
    [layerMapRef]; [Create] is a successful factory call plus
    [drawnItems.addLayer] and the registration in [layerMapRef]; [Style]
    is the [setStyle]/[setIcon]/[bindPopup] group of [applyCurrentStyles]. *)
Inductive op : Type :=
| Destroy (key : string)
| Create (key : string)
| Style (key : string).

#[global] Instance op_eq_dec : EqDecision op.
Proof. solve_decision. Defined.

Definition op_key (o : op) : string :=
  match o with Destroy k | Create k | Style k => k end.

(** What the branch of [applyCurrentStyles] taken for a shape hands to
    Leaflet: the argument of [setStyle] in the polyline branch; the fill
    type and the colour from which [getFillStyle] and [setStyle] build
    theirs in the polygon, rectangle and circle branch; the colour of the
    icon in the marker branch; the colour in the last branch. *)
Inductive styleCall : Type :=
| PolylineStyle (style : value)
| FillStyle (customFillType color : value)
| MarkerIcon (color : value)
| PlainStyle (color : value).

(** The popup bound afterwards: [<b>${layer.feature.properties.name}</b>]
    when the shape has a name, [Shape ID: ${shape.id}] otherwise. *)
Inductive popupCall : Type :=
| NamePopup (name : value)
| IdPopup (id : value).

(** [layerMapRef.current]: the layers by property key. *)
Abbreviation layers := (gmap string layer).

(* ===================================================================== *)
(** * The host: engine built-ins and the rendering toolkit *)
(* ===================================================================== *)

(** What the sources call but do not define.  The conversions between
    strings and numbers are the engine's, and [**] is "implementation
    approximated" in the language standard. *)
Class Engine : Type := {
  (** [parseFloat] applied to a string *)
  parseFloat_string : string -> num;
  (** ToNumber applied to a string *)
  StringToNumber : string -> num;
  (** ToString applied to a number *)
  NumberToString : num -> string;
  (** [x ** y] *)
  Math_pow : num -> num -> num
}.

(** Leaflet.  The three layer factories may throw, and
    [L.geoJSON(..).getLayers()[0]] may yield nothing; the styling calls may
    throw as well (a marker has no [setStyle]). *)
Class Toolkit : Type := {
  (** [L.circle(L.latLng(center), {radius, ...})] *)
  L_circle : value -> value -> result unit;
  (** [L.marker(L.latLng(lat, lng), ...)] *)
  L_marker : value -> value -> result unit;
  (** [L.geoJSON(feature).getLayers()[0]]: [true] when a layer comes back *)
  L_geoJSON_first : value -> result bool;
  (** the [setStyle] / [setIcon] / [bindPopup] calls of [applyCurrentStyles]
      on a layer whose feature carries the geometry given first *)
  L_restyle : value -> styleCall -> popupCall -> result unit
}.

Section Model.
Context {E : Engine}.

(* --------------------------------------------------------------------- *)
(** ** Conversions *)

Fixpoint join_comma (l : list string) : string :=
  match l with
  | [] => EmptyString
  | [s] => s
  | s :: r => s +:+ "," +:+ join_comma r
  end.

(** ToString, where it returns (see [convertible] below).  Arrays print
    their elements separated by commas, with [null] and [undefined]
    elements left empty; plain objects print as [[object Object]]. *)
Fixpoint ToString (v : value) : string :=
  match v with
  | VUndefined => "undefined"
  | VNull => "null"
  | VBool true => "true"
  | VBool false => "false"
  | VNum x => NumberToString x
  | VStr s => s
  | VArr l =>
      join_comma (List.map (fun e => match e with
                                     | VUndefined | VNull => EmptyString
                                     | _ => ToString e
                                     end) l)
  | VObj _ => "[object Object]"
  end.

(** Where the conversion of a value to a string or to a number returns.
    An object is converted through its [toString] member; one that the
    object owns is, in a value read from JSON, never a function, and the
    conversion then throws a TypeError (the inherited [valueOf] hands back
    the object itself, an own [valueOf] is no function either).  An array
    converts each of its elements other than [null] and [undefined]. *)
Fixpoint convertible (v : value) : bool :=
  match v with
  | VArr l =>
      forallb (fun e => match e with
                        | VUndefined | VNull => true
                        | _ => convertible e
                        end) l
  | VObj fs => match assoc "toString" fs with Some _ => false | None => true end
  | _ => true
  end.

(** ToNumber, where it returns. *)
Definition ToNumber (v : value) : num :=
  match v with
  | VUndefined => PrimFloat.nan
  | VNull => 0%float
  | VBool true => 1%float
  | VBool false => 0%float
  | VNum x => x
  | VStr s => StringToNumber s
  | VArr _ | VObj _ => StringToNumber (ToString v)
  end.

(** The global [isNaN]: converts, then tests. *)
Definition isNaN (v : value) : bool := PrimFloat.is_nan (ToNumber v).

(** [Number.isFinite]: no conversion, [false] for anything but a number. *)
Definition Number_isFinite (v : value) : bool :=
  match v with VNum x => PrimFloat.is_finite x | _ => false end.

(** [parseFloat(v)] is [parseFloat] of [ToString(v)], and returns where
    ToString does; [cleanCoordinatesRecursive] calls it on numbers and
    strings only.  For a number the round trip through its shortest
    decimal spelling returns the number itself, except that [-0] prints as
    ["0"] and comes back as [+0]. *)
Definition parseFloat (v : value) : num :=
  match v with
  | VNum x => if PrimFloat.is_zero x then 0%float else x
  | VStr s => parseFloat_string s
  | _ => parseFloat_string (ToString v)
  end.

(** [JSON.parse(JSON.stringify(v))] below the top level: non-finite numbers
    and [undefined] array elements become [null], [-0] becomes [0], object
    members whose value is [undefined] are dropped.  Members keep the
    order they are listed in; an object is taken to list each key once. *)
Fixpoint JSON_norm (v : value) : value :=
  match v with
  | VUndefined => VNull
  | VNum x =>
      if PrimFloat.is_finite x
      then (if PrimFloat.is_zero x then VNum 0%float else VNum x)
      else VNull
  | VArr l => VArr (List.map JSON_norm l)
  | VObj fs =>
      VObj ((fix members (fs : list (string * value)) :=
               match fs with
               | [] => []
               | (k, VUndefined) :: r => members r
               | (k, x) :: r => (k, JSON_norm x) :: members r
               end) fs)
  | _ => v
  end.

(** [JSON.parse(JSON.stringify(v))]: [JSON.stringify(undefined)] is
    [undefined], which [JSON.parse] rejects. *)
Definition JSON_clone (v : value) : result value :=
  match v with
  | VUndefined => Throw SyntaxError
  | _ => Return (JSON_norm v)
  end.

(* ===================================================================== *)
(** * DrawControl.jsx: geometry cleaning *)
(* ===================================================================== *)

Definition origin : value := VArr [VNum 0%float; VNum 0%float].

Definition elem (l : list value) (i : nat) : value := default VUndefined (l !! i).

Definition cleanCoordinatePair (coordPair : value) : value :=
  match coordPair with
  | VArr l =>
      if negb (Nat.eqb (length l) 2) then origin
      else
        let lon := parseFloat (elem l 0) in
        let lat := parseFloat (elem l 1) in
        if PrimFloat.is_nan lon || PrimFloat.is_nan lat
           || negb (PrimFloat.is_finite lon) || negb (PrimFloat.is_finite lat)
        then origin
        else VArr [VNum lon; VNum lat]
  | _ => origin
  end.

Definition numberOrString (v : value) : bool :=
  String.eqb (typeof v) "number" || String.eqb (typeof v) "string".

(** The test that routes an array to [cleanCoordinatePair]. *)
Definition looksLikePair (l : list value) : bool :=
  Nat.eqb (length l) 2 && numberOrString (elem l 0) && numberOrString (elem l 1).

Fixpoint cleanCoordinatesRecursive (coordinates : value) : value :=
  match coordinates with
  | VArr l =>
      if looksLikePair l then cleanCoordinatePair (VArr l)
      else VArr (List.map cleanCoordinatesRecursive l)
  | _ => coordinates
  end.

(** The body of the ring loop for a non-empty array [ring]:
    [firstPoint[0] !== lastPoint[0] || firstPoint[1] !== lastPoint[1]],
    then [ring.push([...firstPoint])].  The two points are the same object
    exactly when the ring has one element. *)
Definition closeRing (ring : list value) : result (list value) :=
  let firstPoint := elem ring 0 in
  let lastPoint := elem ring (length ring - 1) in
  let same := Nat.eqb (length ring) 1 in
  f0 ← getIndex firstPoint 0;
  l0 ← getIndex lastPoint 0;
  open ← (if negb (strictEq same f0 l0) then Return true
          else f1 ← getIndex firstPoint 1;
               l1 ← getIndex lastPoint 1;
               Return (negb (strictEq same f1 l1)));
  if open : bool
  then copy ← iterate firstPoint; Return (ring ++ [VArr copy])
  else Return ring.

(** One turn of [for (let i = 0; i < rings.length; i++)]. *)
Definition fixRing (ring : value) : result value :=
  match ring with
  | VArr (p :: r) => VArr <$> closeRing (p :: r)
  | _ => Return (VArr [])
  end.

Definition emptyGeometry : value :=
  VObj [("type", VNull); ("coordinates", VArr [])].

Definition ensurePolygonClosedAndClean (geoJsonFeature : value) : result value :=
  newFeature ← JSON_clone geoJsonFeature;
  match newFeature with
  | VUndefined | VNull => Throw TypeError
  | VObj fs =>
      let fs1 := if truthy (default VUndefined (assoc "properties" fs)) then fs
                 else obj_set "properties" (VObj []) fs in
      let fs2 := if truthy (default VUndefined (assoc "geometry" fs1)) then fs1
                 else obj_set "geometry" emptyGeometry fs1 in
      let geometry := default VUndefined (assoc "geometry" fs2) in
      coordinates ← getProp geometry "coordinates";
      match geometry, coordinates with
      | VObj gs, VArr _ =>
          let cleaned := cleanCoordinatesRecursive coordinates in
          let gs1 := obj_set "coordinates" cleaned gs in
          if strictEq false (default VUndefined (assoc "type" gs1)) (VStr "Polygon")
          then
            match cleaned with
            | VArr rings =>
                rings' ← mapR fixRing rings;
                Return (VObj (obj_set "geometry"
                                (VObj (obj_set "coordinates" (VArr rings') gs1)) fs2))
            | _ => Return (VObj (obj_set "geometry" (VObj gs1) fs2))
            end
          else Return (VObj (obj_set "geometry" (VObj gs1) fs2))
      | _, _ => Return (VObj fs2)
      end
  | VArr _ => Throw OutOfModel
  | VBool _ | VNum _ | VStr _ => Throw TypeError
  end.

(* ===================================================================== *)
(** * Messaging/MapLoader.jsx and App.jsx: the feature store *)
(* ===================================================================== *)

(** The React state [shapes]: an ordered array of features. *)
Definition store : Type := list value.

(** [processBulkAddPacket(packet, setShapes)], as the store it leaves. *)
Definition processBulkAddPacket (packet : value) (prev : store) : store :=
  if truthy packet then
    match getProp packet "type", getProp packet "data" with
    | Return t, Return (VArr data) =>
        if strictEq false t (VStr "bulkAdd") then data else prev
    | _, _ => prev
    end
  else prev.

(** A loop whose body may [return] out of the handler: [true] as soon as
    one element asks for it. *)
Fixpoint anyR (f : value -> result bool) (l : list value) : result bool :=
  match l with
  | [] => Return false
  | x :: r => b ← f x; if b : bool then Return true else anyR f r
  end.

(** The condition under which the handler logs "Invalid coordinate value"
    and returns. *)
Definition badPair (coordPair : value) : result bool :=
  two ← lengthIs coordPair 2;
  if negb two then Return true
  else
    a ← getIndex coordPair 0;
    b ← getIndex coordPair 1;
    Return (isNaN a || isNaN b || negb (Number_isFinite a) || negb (Number_isFinite b)).

(** [for (const ring of rings) for (const coordPair of ring) ...]. *)
Definition polygonRejected (rings : value) : result bool :=
  rs ← iterate rings;
  anyR (fun ring => ps ← iterate ring; anyR badPair ps) rs.

(** [prev.findIndex(p)], [None] standing for [-1]. *)
Fixpoint findIndex (p : value -> result bool) (l : list value) : result (option nat) :=
  match l with
  | [] => Return None
  | x :: r =>
      b ← p x;
      if b : bool then Return (Some 0)
      else i ← findIndex p r; Return (option_map S i)
  end.

Fixpoint filterR (p : value -> result bool) (l : list value) : result (list value) :=
  match l with
  | [] => Return []
  | x :: r =>
      b ← p x; ys ← filterR p r;
      Return (if b : bool then x :: ys else ys)
  end.

(** The own enumerable properties copied by [{ ...v }]. *)
Definition spread (v : value) : list (string * value) :=
  match v with
  | VObj fs => fs
  | VArr l => imap (fun i x => (index_key i, x)) l
  | VStr s => imap (fun i x => (index_key i, x)) (chars s)
  | _ => []
  end.

(** [{ ...geoJsonData, id: key }]. *)
Definition withId (geoJsonData key : value) : value :=
  VObj (obj_set "id" key (spread geoJsonData)).

(** [s => s.id === key], the stored feature and the message being
    distinct objects. *)
Definition hasId (key : value) (s : value) : result bool :=
  sid ← getProp s "id"; Return (strictEq false sid key).

(** The function handed to [setShapes] for [add] and [modify]. *)
Definition upsert (type key geoJsonData : value) (prev : store) : result store :=
  existingIndex ← findIndex (hasId key) prev;
  if strictEq false type (VStr "add") then
    Return (match existingIndex with
            | None => prev ++ [geoJsonData]
            | Some _ => prev
            end)
  else
    match existingIndex with
    | Some i =>
        Return (imap (fun index shape =>
                        if Nat.eqb index i then withId geoJsonData key else shape) prev)
    | None => Return (prev ++ [geoJsonData])
    end.

(** The test in front of [setShapes]:
    [geoJsonData && geoJsonData.geometry && typeof geoJsonData.geometry.type === 'string'],
    then the Polygon scan.  [Return true] lets the message through. *)
Definition accepted (geoJsonData : value) : result bool :=
  if truthy geoJsonData then
    geometry ← getProp geoJsonData "geometry";
    if truthy geometry then
      gtype ← getProp geometry "type";
      if String.eqb (typeof gtype) "string" then
        if strictEq false gtype (VStr "Polygon") then
          rings ← getProp geometry "coordinates";
          bad ← polygonRejected rings;
          Return (negb bad)
        else Return true
      else Return false
    else Return false
  else Return false.

(** [message.data || message.updates]. *)
Definition payload (message : value) : result value :=
  d ← getProp message "data";
  if truthy d then Return d else getProp message "updates".

(** [message.id || geoJsonData.id]. *)
Definition envelopeKey (message geoJsonData : value) : result value :=
  mid ← getProp message "id";
  if truthy mid then Return mid else getProp geoJsonData "id".

(** [handleIncomingMessage(message)], with the state update applied to the
    current store.  A [Throw] means no new store was produced. *)
Definition handleIncomingMessage (message : value) (prev : store) : result store :=
  type ← getProp message "type";
  if strictEq false type (VStr "add") || strictEq false type (VStr "modify") then
    geoJsonData ← payload message;
    ok ← accepted geoJsonData;
    if ok : bool then
      key ← envelopeKey message geoJsonData;
      upsert type key geoJsonData prev
    else Return prev
  else if strictEq false type (VStr "remove") then
    mid ← getProp message "id";
    filterR (fun shape => sid ← getProp shape "id";
                          Return (negb (strictEq false sid mid))) prev
  else if strictEq false type (VStr "bulkAdd") then
    Return (processBulkAddPacket message prev)
  else Return prev.

(** WebSocketService.jsx: the subscription callback wraps the handler in
    [try { ... } catch], so a message on which it throws is logged and
    leaves the store as it was.  (A throw inside the function handed to
    [setShapes] surfaces when React runs it; no new store comes out of it
    either.) *)
Definition onMessage (parsedMessage : value) (prev : store) : store :=
  match handleIncomingMessage parsedMessage prev with
  | Return next => next
  | Throw _ => prev
  end.

(* ===================================================================== *)
(** * App.jsx: shape statistics *)
(* ===================================================================== *)

Definition Math_PI : num := 0x1.921fb54442d18p+1%float.
Definition METERS_TO_KM : num := 1000%float.
Definition SQ_METERS_TO_SQ_KM : num := 1000000%float.

(** The parameter pattern [[a, b]]: the argument is iterated, missing
    positions are [undefined]. *)
Definition destructure2 (v : value) : result (value * value) :=
  l ← iterate v; Return (elem l 0, elem l 1).

(** [arr.reduce((sum, x, i) => f(sum, x, i), init)] with a numeric
    accumulator. *)
Fixpoint reduce_from (f : num -> value -> nat -> result num)
    (l : list value) (i : nat) (sum : num) : result num :=
  match l with
  | [] => Return sum
  | x :: r => sum' ← f sum x i; reduce_from f r (S i) sum'
  end.

Definition reduce (f : num -> value -> nat -> result num) (l : list value) (init : num)
  : result num := reduce_from f l 0 init.

(** [coords[(i + 1) % coords.length]]. *)
Definition nextVertex (coords : list value) (i : nat) : value :=
  elem coords ((i + 1) mod length coords).

Definition cross (x1 y1 x2 y2 : value) : num :=
  (ToNumber x1 * ToNumber y2 - ToNumber x2 * ToNumber y1)%float.

(** [Math.sqrt((x2 - x1) ** 2 + (y2 - y1) ** 2)]; [Math.sqrt] is the
    IEEE square root. *)
Definition distance (x1 y1 x2 y2 : value) : num :=
  PrimFloat.sqrt (Math_pow (ToNumber x2 - ToNumber x1) 2 +
                  Math_pow (ToNumber y2 - ToNumber y1) 2)%float.

Definition areaStep (coords : list value) (sum : num) (p : value) (i : nat) : result num :=
  '(x1, y1) ← destructure2 p;
  '(x2, y2) ← destructure2 (nextVertex coords i);
  Return (sum + cross x1 y1 x2 y2)%float.

Definition perimeterStep (coords : list value) (sum : num) (p : value) (i : nat) : result num :=
  '(x1, y1) ← destructure2 p;
  '(x2, y2) ← destructure2 (nextVertex coords i);
  Return (sum + distance x1 y1 x2 y2)%float.

(** The LineString callback: [i > 0 ? sum + sqrt(...) : 0], reading the
    previous vertex by index. *)
Definition lengthStep (arr : list value) (sum : num) (p : value) (i : nat) : result num :=
  '(x1, y1) ← destructure2 p;
  match i with
  | 0 => Return 0%float
  | S j =>
      px ← getIndex (elem arr j) 0;
      py ← getIndex (elem arr j) 1;
      Return (sum + PrimFloat.sqrt (Math_pow (ToNumber x1 - ToNumber px) 2 +
                                    Math_pow (ToNumber y1 - ToNumber py) 2))%float
  end.

(** [x.reduce(...)] on something that is not an array is a TypeError. *)
Definition asArray (v : value) : result (list value) :=
  match v with VArr l => Return l | _ => Throw TypeError end.

Definition getShapeStats (shape : value) : result value :=
  if negb (truthy shape) then Return VNull
  else
    geometry ← getProp shape "geometry";
    properties ← getProp shape "properties";
    ptype ← getProp properties "type";
    pcolor ← getProp properties "color";
    let stats := [("type", ptype); ("color", pcolor)] in
    gtype ← getProp geometry "type";
    if strictEq false gtype (VStr "Polygon") then
      coordinates ← getProp geometry "coordinates";
      ring ← getIndex coordinates 0;
      coords ← asArray ring;
      twice ← reduce (areaStep coords) coords 0%float;
      let areaInSqMeters := (twice / 2)%float in
      let stats := obj_set "area" (VNum (areaInSqMeters / SQ_METERS_TO_SQ_KM)%float) stats in
      perimeterInMeters ← reduce (perimeterStep coords) coords 0%float;
      Return (VObj (obj_set "perimeter" (VNum (perimeterInMeters / METERS_TO_KM)%float) stats))
    else if strictEq false gtype (VStr "LineString") then
      coordinates ← getProp geometry "coordinates";
      arr ← asArray coordinates;
      lengthInMeters ← reduce (lengthStep arr) arr 0%float;
      Return (VObj (obj_set "length" (VNum (lengthInMeters / METERS_TO_KM)%float) stats))
    else if strictEq false gtype (VStr "Point") then
      coordinates ← getProp geometry "coordinates";
      Return (VObj (obj_set "position" coordinates stats))
    else if strictEq false gtype (VStr "Circle") then
      radius ← getProp properties "radius";
      let stats :=
        if truthy radius then
          let radiusInMeters := ToNumber radius in
          let areaInSqMeters := (Math_PI * radiusInMeters * radiusInMeters)%float in
          let stats := obj_set "area" (VNum (areaInSqMeters / SQ_METERS_TO_SQ_KM)%float) stats in
          let perimeterInMeters := (2 * Math_PI * radiusInMeters)%float in
          obj_set "perimeter" (VNum (perimeterInMeters / METERS_TO_KM)%float) stats
        else stats in
      coordinates ← getProp geometry "coordinates";
      Return (VObj (obj_set "position" coordinates stats))
    else Return (VObj stats).

(** The statistics panel: [{stats.area && <p>Area: {Math.abs(stats.area).toFixed(2)} km2</p>}].
    [Some a] when the line is shown, [a] being the number handed to
    [toFixed]. *)
Definition areaShown (stats : value) : result (option num) :=
  area ← getProp stats "area";
  Return (if truthy area then Some (PrimFloat.abs (ToNumber area)) else None).

(* ===================================================================== *)
(** * DrawControl.jsx: keeping the Leaflet layers in step with the store *)
(* ===================================================================== *)

(** [id.toString()]: [null] and [undefined] have no members, an own
    [toString] member is not a function, and the inherited methods convert
    as ToString does. *)
Definition toStringMethod (v : value) : result string :=
  match v with
  | VUndefined | VNull => Throw TypeError
  | _ => if convertible v then Return (ToString v) else Throw TypeError
  end.

(** [layerMapRef.current[id]] converts [id] to a property key: the key,
    where the conversion returns.  In the effect the conversion of every id
    has returned before the map is read ([s.id.toString()] at its top). *)
Definition ToPropertyKey (v : value) : string := ToString v.

(** The conversion to a property key on its own, as in
    [delete layerMapRef.current[id]]. *)
Definition propertyKey (v : value) : result string :=
  if convertible v then Return (ToPropertyKey v) else Throw TypeError.

(** Structural equality of values. *)
Fixpoint value_eqb (a b : value) : bool :=
  match a, b with
  | VUndefined, VUndefined => true
  | VNull, VNull => true
  | VBool x, VBool y => Bool.eqb x y
  | VNum x, VNum y => PrimFloat.Leibniz.eqb x y
  | VStr x, VStr y => String.eqb x y
  | VArr l, VArr m =>
      (fix all2 (l m : list value) : bool :=
         match l, m with
         | [], [] => true
         | x :: l', y :: m' => value_eqb x y && all2 l' m'
         | _, _ => false
         end) l m
  | VObj f, VObj g =>
      (fix all2 (f g : list (string * value)) : bool :=
         match f, g with
         | [], [] => true
         | (k, x) :: f', (k', y) :: g' => String.eqb k k' && value_eqb x y && all2 f' g'
         | _, _ => false
         end) f g
  | _, _ => false
  end.

(** [JSON.stringify(a) !== JSON.stringify(b)].  [JSON.stringify] is
    [undefined] on [undefined]; on anything else two texts are equal exactly
    when they parse back to the same value, that is when [a] and [b] have
    the same JSON normal form. *)
Definition JSON_stringify_differs (a b : value) : bool :=
  match a, b with
  | VUndefined, VUndefined => false
  | VUndefined, _ | _, VUndefined => true
  | _, _ => negb (value_eqb (JSON_norm a) (JSON_norm b))
  end.

Context {T : Toolkit}.

(** [{ ...a, ...b }]. *)
Definition merge (a b : list (string * value)) : list (string * value) :=
  foldl (fun acc kv => obj_set (fst kv) (snd kv) acc) a b.

(** Writing a property on a value held in a variable: objects take it,
    [null] and primitives throw, arrays are outside the model. *)
Definition asObject (v : value) : result (list (string * value)) :=
  match v with
  | VObj fs => Return fs
  | VArr _ => Throw OutOfModel
  | _ => Throw TypeError
  end.

(** [getPolylineStyle(customType)]; 0.9, 0.7 and 0.8 as binary64. *)
Definition getPolylineStyle (customType : value) : list (string * value) :=
  if strictEq false customType (VStr "motorway") then
    [("color", VStr "#800000"); ("weight", VNum 6%float);
     ("opacity", VNum 0x1.ccccccccccccdp-1%float); ("dashArray", VNull)]
  else if strictEq false customType (VStr "railway") then
    [("color", VStr "#000000"); ("weight", VNum 4%float);
     ("opacity", VNum 0x1.ccccccccccccdp-1%float); ("dashArray", VStr "1, 10")]
  else if strictEq false customType (VStr "path") then
    [("color", VStr "#8B4513"); ("weight", VNum 2%float);
     ("opacity", VNum 0x1.6666666666666p-1%float); ("dashArray", VStr "5, 5")]
  else if strictEq false customType (VStr "river") then
    [("color", VStr "#0000FF"); ("weight", VNum 5%float);
     ("opacity", VNum 0x1.999999999999ap-1%float); ("dashArray", VNull)]
  else
    [("weight", VNum 4%float);
     ("opacity", VNum 0x1.999999999999ap-1%float); ("dashArray", VNull)].

(** The branch of [applyCurrentStyles] on [shape.properties.type], with
    what it reads of the shape.  The polyline branch passes
    [{ ...style, color: customType === 'default' ? color : style.color }]. *)
Definition styleCallOf (shape : value) : result styleCall :=
  properties ← getProp shape "properties";
  ptype ← getProp properties "type";
  if strictEq false ptype (VStr "polyline") then
    customType ← getProp properties "customType";
    let style := getPolylineStyle customType in
    color ← (if strictEq false customType (VStr "default")
             then getProp properties "color"
             else Return (default VUndefined (assoc "color" style)));
    Return (PolylineStyle (VObj (obj_set "color" color style)))
  else if strictEq false ptype (VStr "polygon")
          || strictEq false ptype (VStr "rectangle")
          || strictEq false ptype (VStr "circle") then
    customFillType ← getProp properties "customFillType";
    color ← getProp properties "color";
    Return (FillStyle customFillType color)
  else
    color ← getProp properties "color";
    if strictEq false ptype (VStr "marker") then Return (MarkerIcon color)
    else Return (PlainStyle color).

(** The popup: the name on the layer's feature when [shape.properties.name]
    is truthy, the shape's id otherwise. *)
Definition popupCallOf (layerProperties shape : value) : result popupCall :=
  properties ← getProp shape "properties";
  name ← getProp properties "name";
  if truthy name then
    layerName ← getProp layerProperties "name"; Return (NamePopup layerName)
  else
    id ← getProp shape "id"; Return (IdPopup id).

(** The body of [applyCurrentStyles] for one shape whose layer exists. *)
Definition restyle (l : layer) (shape : value) : result layer :=
  let feature := if truthy (layer_feature l) then layer_feature l
                 else VObj [("properties", VObj [])] in
  fs ← asObject feature;
  let properties := default VUndefined (assoc "properties" fs) in
  let properties := if truthy properties then properties else VObj [] in
  shapeProperties ← getProp shape "properties";
  let merged := VObj (merge (spread properties) (spread shapeProperties)) in
  let feature' := VObj (obj_set "properties" merged fs) in
  call ← styleCallOf shape;
  popup ← popupCallOf merged shape;
  _ ← L_restyle (default VUndefined (assoc "geometry" fs)) call popup;
  Return (Layer feature').

(** [applyCurrentStyles([shape])]. *)
Definition applyCurrentStyles (shape : value) (st : layers * list op)
  : result (layers * list op) :=
  let '(lm, ops) := st in
  id ← getProp shape "id";
  let k := ToPropertyKey id in
  match lm !! k with
  | Some l => l' ← restyle l shape; Return (<[k := l']> lm, ops ++ [Style k])
  | None => Return (lm, ops)
  end.

(** Whether the tracked layer has to be torn down and rebuilt. *)
Definition shouldRecreateLayer (tracked : option layer) (cleanedFeature : value)
  : result bool :=
  match tracked with
  | Some l =>
      if truthy (layer_feature l) then
        oldGeometry ← getProp (layer_feature l) "geometry";
        if truthy oldGeometry then
          oldType ← getProp oldGeometry "type";
          newGeometry ← getProp cleanedFeature "geometry";
          newType ← getProp newGeometry "type";
          if negb (strictEq false oldType newType) then Return true
          else
            oldCoordinates ← getProp oldGeometry "coordinates";
            newCoordinates ← getProp newGeometry "coordinates";
            Return (JSON_stringify_differs oldCoordinates newCoordinates)
        else Return true
      else Return true
  | None => Return true
  end.

(** The three factories; [true] when a layer object was obtained. *)
Definition createLayer (cleanedFeature : value) : result bool :=
  geometry ← getProp cleanedFeature "geometry";
  gtype ← getProp geometry "type";
  properties ← getProp cleanedFeature "properties";
  if strictEq false gtype (VStr "Circle") then
    coordinates ← getProp geometry "coordinates";
    radius ← getProp properties "radius";
    _ ← L_circle coordinates radius;
    Return true
  else
    ptype ← (if strictEq false gtype (VStr "Point")
             then getProp properties "type" else Return VUndefined);
    if strictEq false gtype (VStr "Point") && strictEq false ptype (VStr "marker") then
      coordinates ← getProp geometry "coordinates";
      lat ← getIndex coordinates 1;
      lng ← getIndex coordinates 0;
      _ ← L_marker lat lng;
      Return true
    else
      L_geoJSON_first (VObj [("type", VStr "Feature");
                             ("geometry", geometry);
                             ("properties", properties)]).

(** One turn of [shapes.forEach(feature => { ... })]. *)
Definition syncFeature (st : layers * list op) (feature : value)
  : result (layers * list op) :=
  let '(lm, ops) := st in
  id ← getProp feature "id";
  let k := ToPropertyKey id in
  let tracked := lm !! k in
  cleanedFeature ← ensurePolygonClosedAndClean feature;
  recreate ← shouldRecreateLayer tracked cleanedFeature;
  if recreate : bool then
    let '(lm, ops) := match tracked with
                      | Some _ => (delete k lm, ops ++ [Destroy k])
                      | None => (lm, ops)
                      end in
    made ← createLayer cleanedFeature;
    if made : bool then
      cid ← getProp cleanedFeature "id";
      let ck := ToPropertyKey cid in
      applyCurrentStyles cleanedFeature
        (<[ck := Layer cleanedFeature]> lm, ops ++ [Create ck])
    else Return (lm, ops)
  else applyCurrentStyles cleanedFeature (lm, ops).

Fixpoint foldR {S A} (f : S -> A -> result S) (l : list A) (s : S) : result S :=
  match l with
  | [] => Return s
  | x :: r => s' ← f s x; foldR f r s'
  end.

(** The removal pass: every tracked key that no shape answers to.  The
    teardowns are listed in the order of the map's keys; the code follows
    [Object.keys], and the calls for different keys do not depend on one
    another. *)
Definition removeStale (currentShapeIds : list string) (lm : layers)
  : layers * list op :=
  let stale := filter (fun k => k ∉ currentShapeIds) (fst <$> map_to_list lm) in
  (filter (fun kv => fst kv ∈ currentShapeIds) lm, Destroy <$> stale).

(** The effect run on every change of [shapes] (with [map] present). *)
Definition syncShapes (shapes : store) (lm : layers) : result (layers * list op) :=
  currentShapeIds ← mapR (fun s => id ← getProp s "id"; toStringMethod id) shapes;
  foldR syncFeature shapes (removeStale currentShapeIds lm).

End Model.

(* ===================================================================== *)
(** * A reference engine and toolkit *)
(* ===================================================================== *)

(** Executable instances of the two interfaces, used to run the model on
    concrete inputs: decimal text to binary64 with correct rounding,
    binary64 to its shortest decimal text, and the entry checks of the
    Leaflet factories.  Text is ASCII.  No general theorem below refers to
    them. *)
Module Reference.

(** The binary64 nearest to [p / q] (ties to even), for [0 <= p], [0 < q]:
    a quotient of at least 65 bits with a sticky last bit, rounded once. *)
Definition round_ratio (p q : Z) : num :=
  if (p =? 0)%Z then 0%float
  else
    let sh := (66 - (Z.log2 p - Z.log2 q))%Z in
    let '(a, b) := if (0 <=? sh)%Z then (Z.shiftl p sh, q) else (p, Z.shiftl q (- sh)) in
    let quo := (a / b)%Z in
    let sticky := if (a mod b =? 0)%Z then 0%Z else 1%Z in
    SF2Prim (binary_normalize prec emax (Z.lor (Z.shiftl quo 1) sticky) (- sh - 1) false).

(** [m * 10^e] as a binary64, for [0 <= m]. *)
Definition of_decimal (m e : Z) : num :=
  if (m =? 0)%Z then 0%float
  else if (310 <? Z.log2 m * 301 / 1000 + e)%Z then PrimFloat.infinity
  else if ((Z.log2 m + 1) * 302 / 1000 + 1 + e <? -330)%Z then 0%float
  else if (0 <=? e)%Z then round_ratio (m * 10 ^ e) 1
  else round_ratio m (10 ^ (- e)).

Definition digit_of (c : ascii) : option Z :=
  let n := nat_of_ascii c in
  if (48 <=? n)%nat && (n <=? 57)%nat then Some (Z.of_nat (n - 48)) else None.

(** Reads a run of decimal digits: its value on top of [acc], how many
    there were, and what follows. *)
Fixpoint read_digits (s : string) (acc : Z) (count : Z) : Z * Z * string :=
  match s with
  | String c r =>
      match digit_of c with
      | Some d => read_digits r (10 * acc + d) (count + 1)
      | None => (acc, count, s)
      end
  | EmptyString => (acc, count, s)
  end.

Definition is_space (c : ascii) : bool :=
  let n := nat_of_ascii c in
  ((9 <=? n)%nat && (n <=? 13)%nat) || (n =? 32)%nat.

Fixpoint skip_spaces (s : string) : string :=
  match s with
  | String c r => if is_space c then skip_spaces r else s
  | EmptyString => s
  end.

Definition read_sign (s : string) : bool * string :=
  match s with
  | String "-"%char r => (true, r)
  | String "+"%char r => (false, r)
  | _ => (false, s)
  end.

(** The optional exponent part: [e] or [E], an optional sign, at least one
    digit; when incomplete it is not part of the literal. *)
Definition read_exponent (s : string) : Z * string :=
  match s with
  | String c r =>
      if (Ascii.eqb c "e"%char || Ascii.eqb c "E"%char)%bool then
        let '(neg, r1) := read_sign r in
        let '(x, count, r2) := read_digits r1 0 0 in
        if (count =? 0)%Z then (0%Z, s) else ((if neg then - x else x)%Z, r2)
      else (0%Z, s)
  | EmptyString => (0%Z, s)
  end.

Definition with_sign (neg : bool) (x : num) : num := if neg then (- x)%float else x.

(** The longest prefix of [s] that is a signed decimal literal or
    [Infinity]: its value and the rest, [None] when there is none. *)
Definition read_decimal (s : string) : option (num * string) :=
  let '(neg, s1) := read_sign s in
  match String.prefix "Infinity" s1 with
  | true => Some (with_sign neg PrimFloat.infinity, String.substring 8 (String.length s1 - 8) s1)
  | false =>
      let '(int, icount, s2) := read_digits s1 0 0 in
      let '(mant, fcount, s3) :=
        match s2 with
        | String "."%char r =>
            let '(m, total, r') := read_digits r int 0 in
            if ((icount =? 0) && (total =? 0))%Z then (int, 0%Z, s2) else (m, total, r')
        | _ => (int, 0%Z, s2)
        end in
      if ((icount =? 0) && (fcount =? 0))%Z
      then None
      else
        let '(e, s4) := read_exponent s3 in
        Some (with_sign neg (of_decimal mant (e - fcount)), s4)
  end.

Definition parse_float (s : string) : num :=
  match read_decimal (skip_spaces s) with
  | Some (x, _) => x
  | None => PrimFloat.nan
  end.


Fixpoint trim_end (s : string) : string :=
  match s with
  | EmptyString => EmptyString
  | String c r =>
      match trim_end r with
      | EmptyString => if is_space c then EmptyString else String c EmptyString
      | r' => String c r'
      end
  end.

Definition digit_in (base : Z) (c : ascii) : option Z :=
  let n := Z.of_nat (nat_of_ascii c) in
  let d := if ((48 <=? n) && (n <=? 57))%Z then (n - 48)%Z
           else if ((97 <=? n) && (n <=? 102))%Z then (n - 87)%Z
           else if ((65 <=? n) && (n <=? 70))%Z then (n - 55)%Z
           else 99%Z in
  if (d <? base)%Z then Some d else None.

(** A whole string of digits in [base], at least one. *)
Fixpoint read_integer (base : Z) (s : string) (acc : option Z) : option Z :=
  match s with
  | EmptyString => acc
  | String c r =>
      match digit_in base c with
      | Some d => read_integer base r (Some (base * default 0%Z acc + d)%Z)
      | None => None
      end
  end.

Definition radix_prefix (s : string) : option (Z * string) :=
  match s with
  | String "0"%char (String c r) =>
      if (Ascii.eqb c "x" || Ascii.eqb c "X")%char then Some (16%Z, r)
      else if (Ascii.eqb c "o" || Ascii.eqb c "O")%char then Some (8%Z, r)
      else if (Ascii.eqb c "b" || Ascii.eqb c "B")%char then Some (2%Z, r)
      else None
  | _ => None
  end.

Definition string_to_number (s : string) : num :=
  let t := trim_end (skip_spaces s) in
  match t with
  | EmptyString => 0%float
  | _ =>
      match radix_prefix t with
      | Some (base, r) =>
          match read_integer base r None with
          | Some n => round_ratio n 1
          | None => PrimFloat.nan
          end
      | None =>
          match read_decimal t with
          | Some (x, EmptyString) => x
          | _ => PrimFloat.nan
          end
      end
  end.

(** The decimal digits of a natural number. *)
Fixpoint digits_fuel (fuel : nat) (n : Z) (acc : string) : string :=
  match fuel with
  | O => acc
  | S f =>
      let acc' := String (ascii_of_nat (48 + Z.to_nat (n mod 10))) acc in
      if (n <? 10)%Z then acc' else digits_fuel f (n / 10) acc'
  end.

Definition decimal (n : Z) : string :=
  digits_fuel (S (Z.to_nat (Z.log2 n))) n EmptyString.

Fixpoint zeros (n : nat) : string :=
  match n with O => EmptyString | S k => String "0"%char (zeros k) end.

(** Whether [p / q >= 10^k]. *)
Definition ge_pow10 (p q k : Z) : bool :=
  if (0 <=? k)%Z then (q * 10 ^ k <=? p)%Z else (q <=? p * 10 ^ (- k))%Z.

(** The [n] with [10^(n-1) <= p/q < 10^n], from an estimate that is off by
    at most a few units. *)
Fixpoint settle_up (fuel : nat) (p q n : Z) : Z :=
  match fuel with
  | O => n
  | S f => if ge_pow10 p q n then settle_up f p q (n + 1) else n
  end.
Fixpoint settle_down (fuel : nat) (p q n : Z) : Z :=
  match fuel with
  | O => n
  | S f => if ge_pow10 p q (n - 1) then n else settle_down f p q (n - 1)
  end.
Definition magnitude (p q : Z) : Z :=
  let n0 := ((Z.log2 p - Z.log2 q) * 1233 / 4096)%Z in
  settle_down 8 p q (settle_up 8 p q n0).

(** The shortest digit string [s] (of [k] digits, scaled by [10^(n-k)])
    that reads back as [x = p / q]; among two candidates the nearer one. *)
Fixpoint shortest (fuel : nat) (x : num) (p q n k : Z) : Z * Z * Z :=
  let exp10 := (n - k)%Z in
  let '(a, b) := if (0 <=? exp10)%Z then (p, q * 10 ^ exp10)%Z else (p * 10 ^ (- exp10), q)%Z in
  let lo := (a / b)%Z in
  let r := (a mod b)%Z in
  let hi := (lo + 1)%Z in
  let back s := PrimFloat.eqb (of_decimal s exp10) x in
  let '(first, second) :=
    if (2 * r <? b)%Z then (lo, hi)
    else if (b <? 2 * r)%Z then (hi, lo)
    else if Z.even lo then (lo, hi) else (hi, lo) in
  let pick s := if (s =? 10 ^ k)%Z then (s / 10, k, n + 1)%Z else (s, k, n) in
  if back first then pick first
  else if back second then pick second
  else match fuel with
       | O => pick first
       | S f => shortest f x p q n (k + 1)
       end.

Definition positive_to_string (x : num) : string :=
  match Prim2SF x with
  | S754_finite _ m e =>
      let '(p, q) := if (0 <=? e)%Z then (Z.pos m * 2 ^ e, 1)%Z else (Z.pos m, 2 ^ (- e))%Z in
      let '(s, k, n) := shortest 17 x p q (magnitude p q) 1 in
      let ds := decimal s in
      let k := Z.of_nat (String.length ds) in
      if ((k <=? n) && (n <=? 21))%Z then ds +:+ zeros (Z.to_nat (n - k))
      else if ((0 <? n) && (n <=? 21))%Z then
        String.substring 0 (Z.to_nat n) ds +:+ "." +:+
        String.substring (Z.to_nat n) (Z.to_nat (k - n)) ds
      else if ((-6 <? n) && (n <=? 0))%Z then "0." +:+ zeros (Z.to_nat (- n)) +:+ ds
      else
        let e10 := (n - 1)%Z in
        let tail := (if (0 <=? e10)%Z then "e+" else "e-") +:+ decimal (Z.abs e10) in
        if (k =? 1)%Z then ds +:+ tail
        else String.substring 0 1 ds +:+ "." +:+
             String.substring 1 (Z.to_nat (k - 1)) ds +:+ tail
  | _ => EmptyString
  end.

Definition number_to_string (x : num) : string :=
  if PrimFloat.is_nan x then "NaN"
  else if PrimFloat.is_zero x then "0"
  else if PrimFloat.is_infinity x then (if PrimFloat.ltb x 0 then "-Infinity" else "Infinity")
  else if PrimFloat.ltb x 0 then "-" +:+ positive_to_string (- x)%float
  else positive_to_string x.


(** The sources only ever square. *)
Definition pow (x y : num) : num :=
  if PrimFloat.eqb y 2 then (x * x)%float
  else if PrimFloat.eqb y 1 then x
  else if PrimFloat.eqb y 0 then 1%float
  else PrimFloat.nan.

#[export] Instance engine : Engine := {|
  parseFloat_string := parse_float;
  StringToNumber := string_to_number;
  NumberToString := number_to_string;
  Math_pow := pow
|}.

(** [new L.LatLng(lat, lng)] throws on a NaN. *)
Definition latLng_ok (lat lng : value) : bool := negb (isNaN lat || isNaN lng).

(** [L.circle]: the centre goes through [L.latLng], which builds a LatLng
    from an array of two or three entries; the radius must not be NaN. *)
Definition circle (center radius : value) : result unit :=
  let center_ok :=
    match center with
    | VArr [a; b] | VArr [a; b; _] => latLng_ok a b
    | _ => true
    end in
  if center_ok && negb (isNaN radius) then Return () else Throw ToolkitError.

(** [L.marker(L.latLng(lat, lng))]: [L.latLng] hands back a missing first
    argument as it is. *)
Definition marker (lat lng : value) : result unit :=
  match lat with
  | VUndefined | VNull => Return ()
  | _ => if latLng_ok lat lng then Return () else Throw ToolkitError
  end.

Definition simple_geometry (t : value) : bool :=
  match t with
  | VStr s =>
      bool_decide (s ∈ ["Point"; "MultiPoint"; "LineString"; "MultiLineString";
                        "Polygon"; "MultiPolygon"])
  | _ => false
  end.

(** [L.geoJSON(f).getLayers()[0]]: a layer for the simple geometry types,
    "Invalid GeoJSON object." otherwise. *)
Definition geoJSON_first (geojson : value) : result bool :=
  geometry ← getProp geojson "geometry";
  gtype ← getProp geometry "type";
  if simple_geometry gtype then Return true else Throw ToolkitError.

(** Styling: a layer built for a Point is a marker and has no [setStyle],
    which the polyline and polygon branches call unguarded. *)
Definition restyle_calls (geometry : value) (call : styleCall) (popup : popupCall)
  : result unit :=
  gtype ← (if truthy geometry then getProp geometry "type" else Return VUndefined);
  let styled_as_path :=
    match call with
    | PolylineStyle _ | FillStyle _ _ => true
    | MarkerIcon _ | PlainStyle _ => false
    end in
  if strictEq false gtype (VStr "Point") && styled_as_path
  then Throw TypeError else Return ().

#[export] Instance leaflet : Toolkit := {|
  L_circle := circle;
  L_marker := marker;
  L_geoJSON_first := geoJSON_first;
  L_restyle := restyle_calls
|}.

End Reference.

(* ===================================================================== *)
(** * Vocabulary of the properties *)
(* ===================================================================== *)

(** A coordinate pair the Polygon scan lets through: exactly two entries,
    both finite numbers. *)
Definition wellFormedPair (l : list value) : bool :=
  Nat.eqb (length l) 2 && Number_isFinite (elem l 0) && Number_isFinite (elem l 1).

(** A ring the Polygon scan lets through. *)
Definition wellFormedRing (ring : value) : Prop :=
  exists ps, ring = VArr ps /\
             Forall (fun p => exists l, p = VArr l /\ wellFormedPair l = true) ps.

(** No NaN anywhere in the value. *)
Fixpoint nanFree (v : value) : bool :=
  match v with
  | VNum x => negb (PrimFloat.is_nan x)
  | VArr l => forallb nanFree l
  | VObj fs => forallb (fun kv => nanFree (snd kv)) fs
  | _ => true
  end.

(** Every array of the tree that [cleanCoordinatesRecursive] takes for a
    coordinate pair is a pair of finite numbers. *)
Fixpoint sanitised (v : value) : bool :=
  match v with
  | VArr l => if looksLikePair l then wellFormedPair l else forallb sanitised l
  | _ => true
  end.

(** The value a path of indices leads to through nested arrays,
    [tree[i0][i1]...]. *)
Fixpoint subtree (path : list nat) (tree : value) : option value :=
  match path with
  | [] => Some tree
  | i :: rest =>
      match tree with
      | VArr l => match l !! i with Some x => subtree rest x | None => None end
      | _ => None
      end
  end.

Definition heapObject (v : value) : bool :=
  match v with VArr _ | VObj _ => true | _ => false end.

(** A position that the walk takes for a coordinate pair: an array of
    two entries, each a number or a string. *)
Definition pairPosition (p : value) : bool :=
  match p with VArr l => looksLikePair l | _ => false end.

(** A ring of coordinate pairs; anything that is not an array counts,
    since the ring loop replaces it. *)
Definition ringOfPairs (ring : value) : bool :=
  match ring with VArr ps => forallb pairPosition ps | _ => true end.

(** Two positions with the same longitude and the same latitude. *)
Definition samePosition (p q : value) : bool :=
  match p, q with
  | VArr [VNum x; VNum y], VArr [VNum x'; VNum y'] =>
      PrimFloat.eqb x x' && PrimFloat.eqb y y'
  | _, _ => false
  end.

(** A ring that is empty, or whose first and last positions have the same
    longitude and the same latitude. *)
Definition closedVertexRing (ring : value) : bool :=
  match ring with
  | VArr [] => true
  | VArr (p :: r) =>
      match p, last (p :: r) with
      | VArr (VNum x0 :: VNum y0 :: _), Some (VArr (VNum x1 :: VNum y1 :: _)) =>
          PrimFloat.eqb x0 x1 && PrimFloat.eqb y0 y1
      | _, _ => false
      end
  | _ => false
  end.

Section Closing.
Context {E : Engine}.

(** The specification's account of a ring of pairs: each pair cleaned,
    then the first one appended when the last one differs from it; the
    empty ring for an empty ring and for what is not an array. *)
Definition closedRing (ring : value) : value :=
  match ring with
  | VArr (p :: ps) =>
      let cleaned := cleanCoordinatePair <$> (p :: ps) in
      let first := cleanCoordinatePair p in
      if samePosition first (default first (last cleaned))
      then VArr cleaned
      else VArr (cleaned ++ [first])
  | _ => VArr []
  end.

End Closing.

(** A ring vertex as a pair of numbers, and as the array the feature holds. *)
Definition vertex : Type := num * num.
Definition vertexValue (p : vertex) : value := VArr [VNum (fst p); VNum (snd p)].

(** Each vertex of the ring with the one that follows it, the last one
    with the first. *)
Definition consecutive (ring : list vertex) : list (vertex * vertex) :=
  zip ring (rotate 1 ring).

Section Formulas.
Context {E : Engine}.

(** The shoelace sum: the cross terms [x1 * y2 - x2 * y1] of consecutive
    vertices, added from the left starting at 0. *)
Definition shoelaceSum (ring : list vertex) : num :=
  foldl (fun sum pq =>
           (sum + (fst (fst pq) * snd (snd pq) - fst (snd pq) * snd (fst pq)))%float)
        0%float (consecutive ring).

(** The Euclidean distance between two vertices. *)
Definition euclidean (p q : vertex) : num :=
  PrimFloat.sqrt (Math_pow (fst q - fst p) 2 + Math_pow (snd q - snd p) 2)%float.

(** The sum of the distances between consecutive vertices. *)
Definition pathLength (ring : list vertex) : num :=
  foldl (fun sum pq => (sum + euclidean (fst pq) (snd pq))%float)
        0%float (consecutive ring).

Definition polygonArea (ring : list vertex) : num :=
  (shoelaceSum ring / 2 / 1000000)%float.

End Formulas.

(** The toolkit calls that concern the layer registered under [k]. *)
Definition opsFor (k : string) (ops : list op) : list op :=
  filter (fun o => op_key o = k) ops.

Section Tracking.
Context {E : Engine}.

(** Whether the feature is registered under [k], by its id as stored or by
    its id after cleaning. *)
Definition touches (k : string) (feature : value) : bool :=
  match getProp feature "id" with
  | Return id => String.eqb (ToPropertyKey id) k
  | Throw _ => false
  end
  || match ensurePolygonClosedAndClean feature ≫= (fun c => getProp c "id") with
     | Return cid => String.eqb (ToPropertyKey cid) k
     | Throw _ => false
     end.

End Tracking.

(** The state in which the factories are called. *)
Definition afterTeardown (k : string) (lm : layers) (ops : list op) : layers * list op :=
  match lm !! k with
  | Some _ => (delete k lm, ops ++ [Destroy k])
  | None => (lm, ops)
  end.

Section Styled.
Context {T : Toolkit}.

(** The layer [l'] is the layer [l] styled for [shape]: its feature is
    that of [l] with, as properties, those of [l] overlaid with those of
    the shape; and Leaflet has taken, on the layer, the call of the branch
    for the shape and the popup. *)
Definition styledFor (l l' : layer) (shape : value) : Prop :=
  exists (fs : list (string * value)) (shapeProperties : value)
         (call : styleCall) (popup : popupCall),
    layer_feature l = VObj fs /\
    getProp shape "properties" = Return shapeProperties /\
    let properties := default VUndefined (assoc "properties" fs) in
    let properties := if truthy properties then properties else VObj [] in
    let merged := VObj (merge (spread properties) (spread shapeProperties)) in
    layer_feature l' = VObj (obj_set "properties" merged fs) /\
    styleCallOf shape = Return call /\
    popupCallOf merged shape = Return popup /\
    L_restyle (default VUndefined (assoc "geometry" fs)) call popup = Return ().

End Styled.

(** A Polygon whose only ring holds [null] where a point should be. *)
Definition featureWithNullPoint : value :=
  VObj [("id", VNum 1%float);
        ("geometry", VObj [("type", VStr "Polygon");
                           ("coordinates", VArr [VArr [VNull]])]);
        ("properties", VObj [])].

(* ===================================================================== *)
(** * Sample data *)
(* ===================================================================== *)

(** Concrete features and envelopes, run on the reference engine and
    toolkit. *)
Module Sample.

Definition point (x y : num) : value := VArr [VNum x; VNum y].

Definition geometry (kind : string) (coordinates : value) : value :=
  VObj [("type", VStr kind); ("coordinates", coordinates)].

Definition feature (id : num) (kind : string) (coordinates : value) (shapeKind : string)
  : value :=
  VObj [("id", VNum id);
        ("geometry", geometry kind coordinates);
        ("properties", VObj [("type", VStr shapeKind);
                             ("color", VStr "#3388ff");
                             ("name", VStr "A")])].

Definition polygon (id : num) (rings : list value) : value :=
  feature id "Polygon" (VArr rings) "polygon".

(** The open ring of the specification's example. *)
Definition openSquare : list value :=
  [point 0 0; point 4 0; point 4 4; point 0 4]%float.
Definition closedSquare : list value :=
  [point 0 0; point 4 0; point 4 4; point 0 4; point 0 0]%float.
(** The same square with one corner moved. *)
Definition movedSquare : list value :=
  [point 0 0; point 5 0; point 4 4; point 0 4; point 0 0]%float.

Definition f1 : value := polygon 1 [VArr closedSquare].
Definition f1_moved : value := polygon 1 [VArr movedSquare].
Definition f1_recoloured : value :=
  VObj [("id", VNum 1%float);
        ("geometry", geometry "Polygon" (VArr [VArr closedSquare]));
        ("properties", VObj [("type", VStr "polygon");
                             ("color", VStr "#ff0000");
                             ("name", VStr "A")])].
Definition f2 : value := feature 2 "Point" (point 1 2)%float "marker".
Definition f3 : value := feature 3 "LineString" (VArr [point 0 0; point 3 4]%float) "polyline".

(** A Polygon with a three-entry position among its points. *)
Definition badPolygon : value :=
  polygon 7 [VArr [point 0 0; VArr [VNum 1; VNum 2; VNum 3]; point 0 0]]%float.
(** A ring of positions with an altitude, its last position above its
    first. *)
Definition spiral : list value :=
  [VArr [VNum 0; VNum 0; VNum 5]; VArr [VNum 4; VNum 0; VNum 6];
   VArr [VNum 4; VNum 4; VNum 7]; VArr [VNum 0; VNum 0; VNum 9]]%float.
(** The stored square, sent again with a three-entry position. *)
Definition f1_broken : value :=
  polygon 1 [VArr [point 0 0; VArr [VNum 1; VNum 2; VNum 3]; point 0 0]]%float.
(** A Point whose longitude is not a number at all. *)
Definition badPoint : value :=
  feature 8 "Point" (VArr [VStr "abc"; VNum 1%float]) "marker".
(** A Point holding NaN, as a local gesture could produce it. *)
Definition nanPoint : value :=
  feature 9 "Point" (VArr [VNum PrimFloat.nan; VNum 2%float]) "marker".

Definition circle (properties : list (string * value)) : value :=
  VObj [("id", VNum 5%float);
        ("geometry", geometry "Circle" (point 1 2)%float);
        ("properties", VObj properties)].

(** A named circle of radius [r]. *)
Definition disc (r : num) : value :=
  circle [("type", VStr "circle"); ("color", VStr "#3388ff");
          ("name", VStr "A"); ("radius", VNum r)].

Definition envelope (type : string) (data : value) : value :=
  VObj [("type", VStr type); ("data", data)].
Definition modifyEnvelope (id data : value) : value :=
  VObj [("type", VStr "modify"); ("id", id); ("data", data)].

(** The layers in place once the effect has run on [shapes] from nothing. *)
Definition layersAfter (shapes : store) : layers :=
  match syncShapes (E := Reference.engine) (T := Reference.leaflet) shapes ∅ with
  | Return (lm, _) => lm
  | Throw _ => ∅
  end.

(** The square run clockwise, as vertices. *)
Definition clockwiseSquare : list vertex :=
  [(0, 0); (0, 4); (4, 4); (4, 0); (0, 0)]%float.

End Sample.

(* ===================================================================== *)
(** * Vocabulary of the further properties *)
(* ===================================================================== *)

(** [a.id === b.id] for two stored features, which are distinct objects; a
    stored [null] carries no id. *)
Definition sameId (a b : value) : bool :=
  match getProp a "id", getProp b "id" with
  | Return x, Return y => strictEq false x y
  | _, _ => false
  end.

(** No two features of the store carry the same id. *)
Fixpoint distinctIds (l : store) : bool :=
  match l with
  | [] => true
  | s :: r => forallb (fun t => negb (sameId s t)) r && distinctIds r
  end.


(** Each vertex of a path with the one that follows it; the last vertex
    has no successor. *)
Definition segments (path : list vertex) : list (vertex * vertex) :=
  zip path (tail path).

Section MoreFormulas.
Context {E : Engine}.

(** The sum of the distances between successive vertices of an open
    path. *)
Definition lineLength (path : list vertex) : num :=
  foldl (fun sum pq => (sum + euclidean (fst pq) (snd pq))%float)
        0%float (segments path).

End MoreFormulas.

(** A ring entry that the iteration protocol accepts. *)
Definition iterablePoint (p : value) : bool :=
  match p with VArr _ | VStr _ => true | _ => false end.

(** A ring whose entries are all arrays or strings; anything that is not an
    array counts, since the ring loop replaces it. *)
Definition ringOfPoints (ring : value) : bool :=
  match ring with VArr ps => forallb iterablePoint ps | _ => true end.


(** The value is a fixed point of [JSON.parse(JSON.stringify(v))]: it
    holds no [undefined], no NaN, no infinity and no negative zero. *)
Definition roundTrips (v : value) : Prop := JSON_norm v = v.

Section MoreTracking.
Context {E : Engine}.

(** The key a shape is tracked under, [layerMapRef.current[shape.id]]. *)
Definition keyOf (shape : value) : string :=
  match getProp shape "id" with
  | Return id => ToPropertyKey id
  | Throw _ => EmptyString
  end.

(** The geometry type of a feature, [undefined] without a geometry. *)
Definition geometryType (feature : value) : value :=
  match getProp feature "geometry" with
  | Return geometry =>
      match getProp geometry "type" with
      | Return t => t
      | Throw _ => VUndefined
      end
  | Throw _ => VUndefined
  end.

Context {T : Toolkit}.

(** The layer map answers to the shape: the layer tracked under its id
    passes the geometry comparison of the effect against the cleaned
    feature, or no layer is tracked and the factory yields none. *)
Definition upToDate (lm : layers) (shape : value) : Prop :=
  exists c,
    ensurePolygonClosedAndClean shape = Return c /\
    match lm !! keyOf shape with
    | Some l => shouldRecreateLayer (Some l) c = Return false
    | None => createLayer c = Return false
    end.

End MoreTracking.

(** The names a plain object inherits from [Object.prototype].  Under one
    of them [layerMapRef.current[k]] finds the inherited member where no
    layer is tracked, and an assignment under [__proto__] tracks
    nothing. *)
Definition inheritedKey (k : string) : bool :=
  bool_decide (k ∈ ["constructor"; "hasOwnProperty"; "isPrototypeOf";
                    "propertyIsEnumerable"; "toLocaleString"; "toString";
                    "valueOf"; "__proto__"; "__defineGetter__";
                    "__defineSetter__"; "__lookupGetter__"; "__lookupSetter__"]).

(** The toolkit call is a styling. *)
Definition isStyle (o : op) : bool :=
  match o with Style _ => true | _ => false end.




(* ===================================================================== *)
(** * Messaging/WebSocketService.jsx: publishing and receiving *)
(* ===================================================================== *)

(** [sendMessage(type, data, id)]: the payload handed to [client.publish],
    whose body is [JSON.stringify] of it; [None] when nothing is
    published.  [connected] stands for
    [this.client && this.client.connected]. *)
Definition sendMessage (connected : bool) (type data id : value) : option value :=
  if negb connected then None
  else if strictEq false type (VStr "add") then
    Some (VObj [("type", VStr "add"); ("data", data)])
  else if strictEq false type (VStr "modify") then
    Some (VObj [("type", VStr "modify"); ("id", id); ("data", data)])
  else if strictEq false type (VStr "remove") then
    Some (VObj [("type", VStr "remove"); ("id", id)])
  else if strictEq false type (VStr "bulkAdd") then
    match data with
    | VArr _ => Some (VObj [("type", VStr "bulkAdd"); ("data", data)])
    | _ => None
    end
  else None.

Section Receiving.
Context {E : Engine}.

(** The subscription callback on a frame whose body is the text of
    [payload]: [JSON.parse(message.body)], then the registered handler,
    both inside the [try]. *)
Definition onFrame (payload : value) (prev : store) : store :=
  match JSON_clone payload with
  | Return parsedMessage => onMessage parsedMessage prev
  | Throw _ => prev
  end.

End Receiving.

(* ===================================================================== *)
(** * DrawControl.jsx and App.jsx: local gestures *)
(* ===================================================================== *)

(** A state update queued with [onShapeUpdate(prev => ...)]; React applies
    the queue to the store in order. *)
Definition updater : Type := store -> result store.

(** [prev => prev.filter(f => f.id !== pid)]. *)
Definition removedBy (pid : value) : updater :=
  fun prev =>
    filterR (fun f => fid ← getProp f "id"; Return (negb (strictEq false fid pid))) prev.

Section Gestures.
Context {E : Engine}.

(** [handleDelete], one turn of [layers.eachLayer]: the layer map, the
    payloads published so far and the queued updates. *)
Definition deleteLayer (connected : bool) (l : layer)
    (st : layers * list value * list updater)
  : result (layers * list value * list updater) :=
  let '(lm, outbox, queue) := st in
  let feature := layer_feature l in
  if truthy feature then
    properties ← getProp feature "properties";
    if truthy properties then
      pid ← getProp properties "id";
      k ← propertyKey pid;
      Return (delete k lm,
              outbox ++ option_list (sendMessage connected (VStr "remove") VNull pid),
              queue ++ [removedBy pid])
    else Return st
  else Return st.

Definition handleDelete (connected : bool) (deleted : list layer)
    (st : layers * list value * list updater)
  : result (layers * list value * list updater) :=
  foldR (fun st l => deleteLayer connected l st) deleted st.

(** [{ ...shape, properties: { ...shape.properties, [prop]: value } }]. *)
Definition updatedShape (prop : string) (newValue shape : value) : result value :=
  properties ← getProp shape "properties";
  let newProps := VObj (obj_set prop newValue (spread properties)) in
  Return (VObj (obj_set "properties" newProps (spread shape))).

(** [updateShapeProperty(prop, value)], as the function handed to
    [setShapes]: the new store and the payloads it publishes on the way. *)
Fixpoint updateShapeProperty (connected : bool) (selectedId : value)
    (prop : string) (newValue : value) (prev : store) : result (store * list value) :=
  match prev with
  | [] => Return ([], [])
  | shape :: rest =>
      id ← getProp shape "id";
      '(shape', sent) ←
        (if strictEq false id selectedId then
           u ← updatedShape prop newValue shape;
           uid ← getProp u "id";
           Return (u, option_list (sendMessage connected (VStr "modify") u uid))
         else Return (shape, []));
      '(rest', sent') ← updateShapeProperty connected selectedId prop newValue rest;
      Return (shape' :: rest', sent ++ sent')
  end.

(** [s => s.properties.type === "marker"]. *)
Definition isMarker (s : value) : result bool :=
  properties ← getProp s "properties";
  t ← getProp properties "type";
  Return (strictEq false t (VStr "marker")).

(** [shapes.filter(s => s.properties.type === "marker")], the points
    handed to the popup. *)
Definition markers (shapes : store) : result (list value) :=
  filterR isMarker shapes.

End Gestures.

(* ===================================================================== *)
(** * Sidebar/MarkerPopup.jsx: the list of markers *)
(* ===================================================================== *)

(** [String.prototype.toLowerCase], which follows the Unicode case
    mappings, is the engine's. *)
Class Casing : Type := {
  toLowerCase : string -> string
}.

(** [s.includes(t)]. *)
Fixpoint includes (s t : string) : bool :=
  String.prefix t s ||
  match s with
  | EmptyString => false
  | String _ r => includes r t
  end.

(** The comparison of [Set.prototype.has]: [===], except that NaN is equal
    to itself.  Ids held by different points are different objects. *)
Definition sameValueZero (a b : value) : bool :=
  match a, b with
  | VNum x, VNum y => PrimFloat.eqb x y || (PrimFloat.is_nan x && PrimFloat.is_nan y)
  | _, _ => strictEq false a b
  end.

(** [point.properties.id]. *)
Definition pointId (point : value) : result value :=
  properties ← getProp point "properties"; getProp properties "id".

Section Popup.
Context {C : Casing}.

(** [point.properties.name.toLowerCase().includes(searchTerm.toLowerCase())];
    only a string has a [toLowerCase] to call. *)
Definition nameMatches (searchTerm : string) (point : value) : result bool :=
  properties ← getProp point "properties";
  name ← getProp properties "name";
  match name with
  | VStr s => Return (includes (toLowerCase s) (toLowerCase searchTerm))
  | _ => Throw TypeError
  end.

Definition searchedPoints (searchTerm : string) (points : list value)
  : result (list value) :=
  filterR (nameMatches searchTerm) points.

(** The second filter, with the ids [seenIds] holds so far. *)
Fixpoint uniqueFrom (seenIds : list value) (points : list value) : result (list value) :=
  match points with
  | [] => Return []
  | point :: rest =>
      id ← pointId point;
      if existsb (sameValueZero id) seenIds then uniqueFrom seenIds rest
      else kept ← uniqueFrom (seenIds ++ [id]) rest; Return (point :: kept)
  end.

Definition uniqueFilteredPoints (searched : list value) : result (list value) :=
  uniqueFrom [] searched.

(** The points the popup lists for a search term. *)
Definition listedPoints (searchTerm : string) (points : list value)
  : result (list value) :=
  searched ← searchedPoints searchTerm points; uniqueFilteredPoints searched.

End Popup.


(** Replaying the calls made for one key, from whether a layer is tracked
    under it: whether one is tracked afterwards, [None] when a call comes
    out of place (a teardown or a styling with no layer tracked, a creation
    over a tracked layer). *)
Fixpoint replay (tracked : bool) (calls : list op) : option bool :=
  match calls with
  | [] => Some tracked
  | Destroy _ :: r => if tracked then replay false r else None
  | Create _ :: r => if tracked then None else replay true r
  | Style _ :: r => if tracked then replay true r else None
  end.

Definition trackedUnder (lm : layers) (k : string) : bool :=
  match lm !! k with Some _ => true | None => false end.


(* ===================================================================== *)
(** * DrawControl.jsx: drawing and editing *)
(* ===================================================================== *)

(** What Leaflet hands [handleCreate] with a drawn layer, and what its
    calls on that layer answer. *)
Record created : Type := Created {
  (** [e.layerType] *)
  layerType : value;
  (** [L.Util.stamp(e.layer)] *)
  stamp : value;
  (** the [setStyle] / [setIcon] call of the branch taken *)
  styled : result unit;
  (** [e.layer.toGeoJSON()] *)
  toGeoJSON : result value;
  (** [bindPopup], [on('click', ..)] and [drawnItems.addLayer] *)
  attached : result unit
}.

(** An edited layer, and what its [toGeoJSON()] answers. *)
Record edited : Type := Edited {
  edited_layer : layer;
  edited_toGeoJSON : result value
}.

(** [l.find(p)]. *)
Fixpoint find (p : value -> result bool) (l : list value) : result value :=
  match l with
  | [] => Return VUndefined
  | x :: r => b ← p x; if b : bool then Return x else find p r
  end.

(** [prev => [...prev, geoJson]]. *)
Definition appended (geoJson : value) : updater :=
  fun prev => Return (prev ++ [geoJson]).

(** [prev => prev.map(f => f.id === existingShape.id ? updatedFeature : f)]. *)
Definition replacedBy (existingShape updatedFeature : value) : updater :=
  mapR (fun f => fid ← getProp f "id";
                 eid ← getProp existingShape "id";
                 Return (if strictEq false fid eid then updatedFeature else f)).

Section Drawing.
Context {E : Engine}.

(** [initialProperties], with the member the branch taken adds. *)
Definition initialProperties (shapeType id : value) : list (string * value) :=
  let initialProperties :=
    [("name", VStr ("Unnamed " ++ ToString shapeType));
     ("color", VStr "#3388ff");
     ("type", shapeType);
     ("id", id)] in
  if strictEq false shapeType (VStr "polyline") then
    obj_set "customType" (VStr "default") initialProperties
  else if strictEq false shapeType (VStr "polygon")
          || strictEq false shapeType (VStr "circle")
          || strictEq false shapeType (VStr "rectangle") then
    obj_set "customFillType" (VStr "default") initialProperties
  else initialProperties.

(** [handleCreate(e)]: the layer map, the payloads published so far and
    the queued updates. *)
Definition handleCreate (connected : bool) (e : created)
    (st : layers * list value * list updater)
  : result (layers * list value * list updater) :=
  let '(lm, outbox, queue) := st in
  let initialProperties := initialProperties (layerType e) (stamp e) in
  _ ← styled e;
  geoJson ← toGeoJSON e;
  fs ← asObject geoJson;
  let geoJson :=
    VObj (obj_set "properties" (VObj initialProperties) (obj_set "id" (stamp e) fs)) in
  _ ← attached e;
  Return (<[ToPropertyKey (stamp e) := Layer geoJson]> lm,
          outbox ++ option_list (sendMessage connected (VStr "add") geoJson VUndefined),
          queue ++ [appended geoJson]).

(** [{ ...existingShape, geometry: editedGeoJson.geometry }]. *)
Definition editedFeature (existingShape editedGeoJson : value) : result value :=
  geometry ← getProp editedGeoJson "geometry";
  Return (VObj (obj_set "geometry" geometry (spread existingShape))).

(** [s => s.id === layer.feature.id]. *)
Definition sameAsLayer (l : layer) (s : value) : result bool :=
  sid ← getProp s "id";
  lid ← getProp (layer_feature l) "id";
  Return (strictEq false sid lid).

(** [handleEdit], one turn of [layers.eachLayer]: the layers as the turns
    so far leave them, the payloads published and the queued updates.
    [shapesRef] is [shapesRef.current]. *)
Definition editLayer (connected : bool) (shapesRef : store) (e : edited)
    (st : list layer * list value * list updater)
  : result (list layer * list value * list updater) :=
  let '(seen, outbox, queue) := st in
  let l := edited_layer e in
  existingShape ← find (sameAsLayer l) shapesRef;
  if negb (truthy existingShape) then
    (* console.warn(.., layer.feature.id) *)
    _ ← getProp (layer_feature l) "id";
    Return (seen ++ [l], outbox, queue)
  else
    editedGeoJson ← edited_toGeoJSON e;
    updatedFeature ← editedFeature existingShape editedGeoJson;
    uid ← getProp updatedFeature "id";
    Return (seen ++ [Layer updatedFeature],
            outbox ++ option_list (sendMessage connected (VStr "modify") updatedFeature uid),
            queue ++ [replacedBy existingShape updatedFeature]).

Definition handleEdit (connected : bool) (shapesRef : store) (es : list edited)
    (st : list layer * list value * list updater)
  : result (list layer * list value * list updater) :=
  foldR (fun st e => editLayer connected shapesRef e st) es st.

End Drawing.


(* ===================================================================== *)
(** * A reference casing, and more sample data *)
(* ===================================================================== *)

(** Lower-casing of ASCII text, to run the popup on concrete input. *)
Module ReferenceCasing.

Definition lower_char (c : ascii) : ascii :=
  let n := nat_of_ascii c in
  if (65 <=? n)%nat && (n <=? 90)%nat then ascii_of_nat (n + 32) else c.

Fixpoint lower (s : string) : string :=
  match s with
  | EmptyString => EmptyString
  | String c r => String (lower_char c) (lower r)
  end.

#[export] Instance casing : Casing := {| toLowerCase := lower |}.

End ReferenceCasing.

Module Scenario.

(** A marker as [handleCreate] stores it: the id is also among the
    properties. *)
Definition marker (id : num) (name : string) (x y : num) : value :=
  VObj [("type", VStr "Feature");
        ("properties", VObj [("name", VStr name); ("color", VStr "#3388ff");
                             ("type", VStr "marker"); ("id", VNum id)]);
        ("geometry", Sample.geometry "Point" (Sample.point x y));
        ("id", VNum id)].

Definition harbour : value := marker 41 "Harbour" 1 2.
Definition market : value := marker 42 "Old Market" 3 4.
(** A second feature carrying the id of [harbour]. *)
Definition harbourAgain : value := marker 41 "North harbour" 5 6.

(** The members of an object. *)
Definition members (v : value) : list (string * value) :=
  match v with VObj fs => fs | _ => [] end.

Definition removeEnvelope (id : value) : value :=
  VObj [("type", VStr "remove"); ("id", id)].

(** An open path of two vertices, 5 apart. *)
Definition path : list vertex := [(0, 0); (3, 4)]%float.

(** A marker drawn at (1, 2), stamped 41 by Leaflet, every call on it
    going through. *)
Definition drawnHarbour : created :=
  Created (VStr "marker") (VNum 41%float) (Return tt)
          (Return (VObj [("type", VStr "Feature");
                         ("properties", VObj []);
                         ("geometry", Sample.geometry "Point" (Sample.point 1 2))]))
          (Return tt).

Definition drawnHarbourFeature : value :=
  VObj [("type", VStr "Feature");
        ("properties", VObj [("name", VStr "Unnamed marker"); ("color", VStr "#3388ff");
                             ("type", VStr "marker"); ("id", VNum 41%float)]);
        ("geometry", Sample.geometry "Point" (Sample.point 1 2));
        ("id", VNum 41%float)].

End Scenario.

(** Pairwise distinct strings, by evaluation. *)
Ltac distinct_strings :=
  vm_compute;
  repeat (apply NoDup_cons_2;
          [let H := fresh in
           intros H;
           repeat (apply elem_of_cons in H as [H|H]; [discriminate H|]);
           by apply elem_of_nil in H|]);
  apply NoDup_nil_2.

(* ===================================================================== *)
(** * Facts about the language layer *)
(* ===================================================================== *)

Lemma bind_Return {A B} (f : A -> result B) (a : A) : (Return a ≫= f) = f a.
Proof. reflexivity. Qed.

Lemma strictEq_VStr (same : bool) (v : value) (s : string) :
  strictEq same v (VStr s) = true <-> v = VStr s.
Proof.
  destruct v; simpl; try (split; [discriminate | intros [=]]).
  rewrite String.eqb_eq. split; [intros -> | intros [= ->]]; reflexivity.
Qed.

Lemma assoc_obj_set_eq k v fs : assoc k (obj_set k v fs) = Some v.
Proof.
  induction fs as [|[k' v'] fs IH]; simpl.
  - by rewrite String.eqb_refl.
  - destruct (String.eqb k k') eqn:Hk; simpl; rewrite ?Hk; [by rewrite String.eqb_refl | done].
Qed.

Lemma assoc_obj_set_ne k k' v fs : k <> k' -> assoc k (obj_set k' v fs) = assoc k fs.
Proof.
  intros Hne. induction fs as [|[k1 v1] fs IH]; simpl.
  - apply String.eqb_neq in Hne. by rewrite Hne.
  - destruct (String.eqb k' k1) eqn:Hk; simpl.
    + apply String.eqb_eq in Hk as <-. apply String.eqb_neq in Hne. by rewrite Hne.
    + by rewrite IH.
Qed.

Lemma obj_set_same k v fs : assoc k fs = Some v -> obj_set k v fs = fs.
Proof.
  induction fs as [|[k' v'] fs IH]; simpl; [discriminate|].
  destruct (String.eqb k k') eqn:Hk.
  - apply String.eqb_eq in Hk as ->. by intros [= ->].
  - intros Hfs. by rewrite IH.
Qed.

(* --------------------------------------------------------------------- *)
(** ** [findIndex], [imap] *)

Lemma findIndex_first (p : value -> result bool) (l : list value) (i : nat) (x : value) :
  l !! i = Some x -> p x = Return true ->
  (forall j y, j < i -> l !! j = Some y -> p y = Return false) ->
  findIndex p l = Return (Some i).
Proof.
  revert i. induction l as [|y l IH]; intros i Hi Hx Hbefore; [done|].
  destruct i as [|i]; simpl in *.
  - injection Hi as ->. by rewrite Hx.
  - rewrite (Hbefore 0 y); [|lia|done]. simpl.
    rewrite (IH i); [done..|].
    intros j z Hj Hz. apply (Hbefore (S j)); [lia|done].
Qed.

Lemma findIndex_none (p : value -> result bool) (l : list value) :
  (forall y, y ∈ l -> p y = Return false) -> findIndex p l = Return None.
Proof.
  induction l as [|y l IH]; intros Hall; [done|]. simpl.
  rewrite Hall; [|left]. simpl. rewrite IH; [done|].
  intros z Hz. apply Hall. by right.
Qed.

(** When some element satisfies [p], the search either finds an index or
    throws on an earlier element; it never answers [-1]. *)
Lemma findIndex_present (p : value -> result bool) (l : list value) (i : nat) (x : value) :
  l !! i = Some x -> p x = Return true ->
  (exists j, findIndex p l = Return (Some j)) \/ (exists e, findIndex p l = Throw e).
Proof.
  revert i. induction l as [|y l IH]; intros i Hi Hx; [done|].
  simpl. destruct (p y) as [[|]|e] eqn:Hy; simpl; [left; eauto | | right; eauto].
  destruct i as [|i]; simpl in Hi.
  - injection Hi as ->. congruence.
  - destruct (IH i Hi Hx) as [[j ->]|[e ->]]; simpl; [left | right]; eauto.
Qed.

Lemma imap_replace (i : nat) (v : value) (l : list value) :
  imap (fun index shape => if Nat.eqb index i then v else shape) l = <[i := v]> l.
Proof.
  apply list_eq. intros j. rewrite list_lookup_imap.
  destruct (decide (i = j)) as [->|Hne].
  - rewrite Nat.eqb_refl. destruct (l !! j) eqn:Hl; simpl.
    + rewrite list_lookup_insert_eq; [done|]. by eapply lookup_lt_Some.
    + symmetry. rewrite list_insert_ge; [done|]. by apply lookup_ge_None.
  - rewrite list_lookup_insert_ne; [|done].
    destruct (Nat.eqb_spec j i) as [->|_]; [done|]. by destruct (l !! j).
Qed.

(* ===================================================================== *)
(** * The feature store *)
(* ===================================================================== *)

Section Store.
Context {E : Engine}.

(** The handler on an [add] or [modify] message, one step at a time. *)
Lemma handleIncomingMessage_upsert (message type data : value) (prev : store) :
  getProp message "type" = Return type ->
  type = VStr "add" \/ type = VStr "modify" ->
  payload message = Return data ->
  handleIncomingMessage message prev =
    (ok ← accepted data;
     if ok : bool then key ← envelopeKey message data; upsert type key data prev
     else Return prev).
Proof.
  intros Ht Hty Hp. unfold handleIncomingMessage. rewrite Ht. simpl.
  destruct Hty as [-> | ->]; simpl; by rewrite Hp.
Qed.

(** C5. [bulkAdd] replaces the store wholesale with the array it carries,
    in the order given and whatever the store held before; a packet whose
    type is not ['bulkAdd'], or whose data is not an array, leaves the store
    as it was. *)
Theorem bulkAdd_replaces_store (packet : value) (prev : store) :
  (forall data : list value,
      getProp packet "type" = Return (VStr "bulkAdd") ->
      getProp packet "data" = Return (VArr data) ->
      processBulkAddPacket packet prev = data /\
      handleIncomingMessage packet prev = Return data) /\
  ((getProp packet "type" <> Return (VStr "bulkAdd") \/
    (forall data : list value, getProp packet "data" <> Return (VArr data))) ->
   processBulkAddPacket packet prev = prev).
Proof.
  split.
  - intros data Ht Hd.
    assert (Hproc : processBulkAddPacket packet prev = data).
    { unfold processBulkAddPacket. rewrite Ht, Hd.
      destruct packet; simpl in *; try discriminate. done. }
    split; [done|]. unfold handleIncomingMessage. rewrite Ht. simpl. by rewrite Hproc.
  - intros Hnot. unfold processBulkAddPacket.
    destruct (truthy packet); [|done].
    destruct (getProp packet "type") as [t|] eqn:Ht; [|done].
    destruct (getProp packet "data") as [d|] eqn:Hd; [|done].
    destruct d; try done.
    destruct (strictEq false t (VStr "bulkAdd")) eqn:Heq; [|done].
    apply strictEq_VStr in Heq as ->.
    destruct Hnot as [Hnot | Hnot]; [done | by destruct (Hnot elems)].
Qed.

(** C4. An [add] whose id is already carried by a stored feature leaves
    the store exactly as it was: same features, same order, same content. *)
Theorem add_existing_id_is_noop (message data key : value) (prev : store)
    (i : nat) (s : value) :
  getProp message "type" = Return (VStr "add") ->
  payload message = Return data ->
  envelopeKey message data = Return key ->
  prev !! i = Some s ->
  hasId key s = Return true ->
  onMessage message prev = prev.
Proof.
  intros Ht Hp Hk Hi Hs. unfold onMessage.
  rewrite (handleIncomingMessage_upsert message (VStr "add") data prev Ht (or_introl eq_refl) Hp).
  destruct (accepted data) as [[|]|e]; simpl; [|done..].
  rewrite Hk. simpl. unfold upsert.
  destruct (findIndex_present (hasId key) prev i s Hi Hs) as [[j ->]|[e ->]]; done.
Qed.

(** C6, as the code has it.  A [modify] whose feature passes the inbound
    guard is applied under the envelope's key, [message.id || data.id]:
    when a stored feature carries the key, the first such feature is
    replaced, in place, by the new feature with its [id] set to the key
    (the new feature itself when it already carries the key), the store
    keeping its length and every other position its feature; when none
    does, the new feature is appended as it came.  A [modify] whose feature
    fails the guard is dropped: the store stays as it was. *)
Theorem modify_replaces_in_place (message data : value) (prev : store) :
  getProp message "type" = Return (VStr "modify") ->
  payload message = Return data ->
  (accepted data = Return false -> handleIncomingMessage message prev = Return prev) /\
  (forall key,
      accepted data = Return true ->
      envelopeKey message data = Return key ->
      (forall (i : nat) (s : value),
          prev !! i = Some s -> hasId key s = Return true ->
          (forall j s', j < i -> prev !! j = Some s' -> hasId key s' = Return false) ->
          handleIncomingMessage message prev = Return (<[i := withId data key]> prev)) /\
      ((forall s, s ∈ prev -> hasId key s = Return false) ->
       handleIncomingMessage message prev = Return (prev ++ [data])) /\
      (forall fs, data = VObj fs -> assoc "id" fs = Some key -> withId data key = data)).
Proof.
  intros Ht Hp.
  rewrite (handleIncomingMessage_upsert message (VStr "modify") data prev Ht
             (or_intror eq_refl) Hp).
  split; [by intros ->|].
  intros key -> Hk. rewrite bind_Return, Hk, bind_Return. split; [|split].
  - intros i s Hi Hs Hbefore.
    unfold upsert. rewrite (findIndex_first _ _ i s Hi Hs Hbefore). simpl.
    by rewrite imap_replace.
  - intros Hnone. unfold upsert. by rewrite (findIndex_none _ _ Hnone).
  - intros fs -> Hid. unfold withId. simpl. by rewrite obj_set_same.
Qed.

(* --------------------------------------------------------------------- *)
(** ** The inbound guard *)


Lemma finite_not_nan (x : num) : PrimFloat.is_finite x = true -> PrimFloat.is_nan x = false.
Proof.
  unfold PrimFloat.is_finite. destruct (PrimFloat.is_nan x); [discriminate | done].
Qed.

Lemma badPair_array (l : list value) : badPair (VArr l) = Return (negb (wellFormedPair l)).
Proof.
  unfold badPair, wellFormedPair. simpl.
  destruct (Nat.eqb (length l) 2); simpl; [|done].
  f_equal. unfold elem.
  destruct (default VUndefined (l !! 0)) as [| | |x| | |] eqn:Ha; simpl;
    rewrite ?orb_true_r; try done.
  destruct (PrimFloat.is_finite x) eqn:Hx; simpl; rewrite ?orb_true_r; [|done].
  unfold isNaN at 1. simpl. rewrite (finite_not_nan x Hx). simpl.
  destruct (default VUndefined (l !! 1)) as [| | |y| | |] eqn:Hb; simpl;
    rewrite ?orb_true_r; try done.
  destruct (PrimFloat.is_finite y) eqn:Hy; simpl; rewrite ?orb_true_r; [|done].
  unfold isNaN. simpl. by rewrite (finite_not_nan y Hy).
Qed.

Lemma anyR_hit (f : value -> result bool) (l : list value) (x : value) :
  x ∈ l -> (f x = Return true \/ exists e, f x = Throw e) ->
  anyR f l = Return true \/ exists e, anyR f l = Throw e.
Proof.
  induction l as [|y l IH]; intros Hin Hx; [by apply elem_of_nil in Hin|].
  simpl. apply elem_of_cons in Hin as [<- | Hin].
  - destruct Hx as [-> | [e ->]]; simpl; eauto.
  - destruct (f y) as [[|]|e]; simpl; eauto.
Qed.

Lemma anyR_miss (f : value -> result bool) (l : list value) :
  Forall (fun x => f x = Return false) l -> anyR f l = Return false.
Proof. induction 1 as [|x l Hx _ IH]; simpl; [done|]. by rewrite Hx. Qed.

(** One malformed pair anywhere in the rings stops the scan: it rejects,
    unless it threw on the way. *)
Lemma polygonRejected_bad (rings ring pair : list value) :
  VArr ring ∈ rings -> VArr pair ∈ ring -> wellFormedPair pair = false ->
  polygonRejected (VArr rings) = Return true \/
  exists e, polygonRejected (VArr rings) = Throw e.
Proof.
  intros Hring Hpair Hbad. unfold polygonRejected. simpl.
  apply (anyR_hit _ rings (VArr ring) Hring). simpl.
  apply (anyR_hit _ ring (VArr pair) Hpair).
  left. by rewrite badPair_array, Hbad.
Qed.


Lemma polygonRejected_good (rings : list value) :
  Forall wellFormedRing rings -> polygonRejected (VArr rings) = Return false.
Proof.
  intros Hall. unfold polygonRejected. simpl. apply anyR_miss.
  eapply Forall_impl; [exact Hall|]. intros ring (ps & -> & Hps). simpl.
  apply anyR_miss. eapply Forall_impl; [exact Hps|].
  intros p (l & -> & Hl). by rewrite badPair_array, Hl.
Qed.

Lemma accepted_geometry (data : value) (gs : list (string * value)) (t : string) :
  getProp data "geometry" = Return (VObj gs) ->
  assoc "type" gs = Some (VStr t) ->
  accepted data =
    if String.eqb t "Polygon"
    then bad ← polygonRejected (default VUndefined (assoc "coordinates" gs));
         Return (negb bad)
    else Return true.
Proof.
  intros Hg Ht. unfold accepted.
  destruct data; simpl in Hg; try discriminate; try (by injection Hg).
  simpl. injection Hg as Hg. rewrite Hg. simpl. rewrite Ht. simpl. done.
Qed.

(** C1, as the code has it.  An inbound [add] or [modify] whose feature is
    a Polygon with a malformed coordinate pair in one of its rings (not
    exactly two entries, or an entry that is not a finite number) is
    discarded and the store stays as it was.  A Polygon whose pairs are all
    well formed, and a feature of any other geometry type whatever its
    coordinates, reach the store operation exactly as received: nothing is
    corrected or closed on the way in, and with no stored feature under its
    id the feature is appended as it came. *)
Theorem inbound_guard (message type data : value) (gs : list (string * value))
    (t : string) (prev : store) :
  getProp message "type" = Return type ->
  type = VStr "add" \/ type = VStr "modify" ->
  payload message = Return data ->
  getProp data "geometry" = Return (VObj gs) ->
  assoc "type" gs = Some (VStr t) ->
  (forall rings ring pair,
      t = "Polygon" ->
      assoc "coordinates" gs = Some (VArr rings) ->
      VArr ring ∈ rings -> VArr pair ∈ ring -> wellFormedPair pair = false ->
      onMessage message prev = prev) /\
  (forall key,
      t <> "Polygon" \/
      (exists rings, assoc "coordinates" gs = Some (VArr rings) /\
                     Forall wellFormedRing rings) ->
      envelopeKey message data = Return key ->
      (forall s, s ∈ prev -> hasId key s = Return false) ->
      handleIncomingMessage message prev = Return (prev ++ [data])).
Proof.
  intros Ht Hty Hp Hg Hgt.
  pose proof (handleIncomingMessage_upsert message type data prev Ht Hty Hp) as Hstep.
  pose proof (accepted_geometry data gs t Hg Hgt) as Hadm.
  split.
  - intros rings ring pair -> Hc Hring Hpair Hbad.
    unfold onMessage. rewrite Hstep, Hadm. simpl. rewrite Hc. simpl.
    destruct (polygonRejected_bad rings ring pair Hring Hpair Hbad) as [-> | [e ->]]; done.
  - intros key Hshape Hk Hnone.
    assert (Hok : accepted data = Return true).
    { rewrite Hadm. destruct Hshape as [Hne | (rings & Hc & Hall)].
      - apply String.eqb_neq in Hne. by rewrite Hne.
      - destruct (String.eqb t "Polygon"); [|done].
        rewrite Hc. simpl. by rewrite (polygonRejected_good rings Hall). }
    rewrite Hstep, Hok. simpl. rewrite Hk. simpl. unfold upsert.
    rewrite (findIndex_none _ _ Hnone). simpl.
    by destruct (strictEq false type (VStr "add")).
Qed.

End Store.

(* ===================================================================== *)
(** * Geometry cleaning *)
(* ===================================================================== *)


Section Geometry.
Context {E : Engine}.

Lemma float_eqb_refl (x : num) : PrimFloat.is_nan x = false -> PrimFloat.eqb x x = true.
Proof. unfold PrimFloat.is_nan. by destruct (PrimFloat.eqb x x). Qed.

Lemma parseFloat_number (x : num) :
  PrimFloat.is_nan x = false -> PrimFloat.eqb x (parseFloat (VNum x)) = true.
Proof.
  intros Hx. simpl. destruct (PrimFloat.is_zero x) eqn:Hz; [exact Hz|].
  by apply float_eqb_refl.
Qed.

Lemma parseFloat_number_finite (x : num) :
  PrimFloat.is_finite x = true -> PrimFloat.is_finite (parseFloat (VNum x)) = true.
Proof. intros Hx. simpl. by destruct (PrimFloat.is_zero x). Qed.

(** What [cleanCoordinatePair] does to an array of two entries. *)
Lemma cleanCoordinatePair_two (a b : value) :
  cleanCoordinatePair (VArr [a; b]) =
    if PrimFloat.is_finite (parseFloat a) && PrimFloat.is_finite (parseFloat b)
    then VArr [VNum (parseFloat a); VNum (parseFloat b)]
    else origin.
Proof.
  unfold cleanCoordinatePair, elem. simpl.
  destruct (PrimFloat.is_finite (parseFloat a)) eqn:Ha; simpl; rewrite ?orb_true_r; [|done].
  rewrite (finite_not_nan _ Ha). simpl.
  destruct (PrimFloat.is_finite (parseFloat b)) eqn:Hb; simpl; rewrite ?orb_true_r; [|done].
  by rewrite (finite_not_nan _ Hb).
Qed.

Lemma looksLikePair_inv (l : list value) :
  looksLikePair l = true ->
  exists a b, l = [a; b] /\ numberOrString a = true /\ numberOrString b = true.
Proof.
  unfold looksLikePair, elem.
  destruct l as [|a [|b [|c l]]]; simpl; try discriminate.
  intros H. apply andb_true_iff in H. exists a, b. tauto.
Qed.

Lemma cleanCoordinatePair_wellFormed (a b : value) :
  exists l, cleanCoordinatePair (VArr [a; b]) = VArr l /\
            looksLikePair l = true /\ wellFormedPair l = true.
Proof.
  rewrite cleanCoordinatePair_two.
  destruct (PrimFloat.is_finite (parseFloat a)) eqn:Ha;
    destruct (PrimFloat.is_finite (parseFloat b)) eqn:Hb; simpl;
    eexists; (split; [reflexivity|]); unfold looksLikePair, wellFormedPair, elem; simpl;
    rewrite ?Ha, ?Hb; done.
Qed.

Lemma cleanCoordinatesRecursive_array (l : list value) :
  cleanCoordinatesRecursive (VArr l) =
    if looksLikePair l then cleanCoordinatePair (VArr l)
    else VArr (List.map cleanCoordinatesRecursive l).
Proof. reflexivity. Qed.

Lemma typeof_cleanCoordinatesRecursive (v : value) :
  typeof (cleanCoordinatesRecursive v) = typeof v.
Proof.
  destruct v; try done. rewrite cleanCoordinatesRecursive_array.
  destruct (looksLikePair elems) eqn:Hl; [|done].
  apply looksLikePair_inv in Hl as (a & b & -> & _).
  by destruct (cleanCoordinatePair_wellFormed a b) as (l & -> & _).
Qed.

Lemma looksLikePair_map_clean (l : list value) :
  looksLikePair (List.map cleanCoordinatesRecursive l) = looksLikePair l.
Proof.
  unfold looksLikePair, numberOrString, elem. rewrite length_map.
  destruct l as [|a [|b l]]; simpl; try done.
  by rewrite !typeof_cleanCoordinatesRecursive.
Qed.

Lemma cleanCoordinatesRecursive_sanitised (tree : value) :
  sanitised (cleanCoordinatesRecursive tree) = true.
Proof.
  induction tree as [| | | | |l IH|fs _] using value_ind; try done.
  rewrite cleanCoordinatesRecursive_array.
  destruct (looksLikePair l) eqn:Hl.
  - apply looksLikePair_inv in Hl as (a & b & -> & _).
    destruct (cleanCoordinatePair_wellFormed a b) as (l' & -> & Hl' & Hw). simpl.
    by rewrite Hl'.
  - simpl. rewrite looksLikePair_map_clean, Hl.
    apply forallb_forall. intros y Hy. apply in_map_iff in Hy as (x & <- & Hx).
    rewrite Forall_forall in IH. apply IH. by apply list_elem_of_In.
Qed.

Lemma subtree_app (p q : list nat) (tree : value) :
  subtree (p ++ q) tree =
    match subtree p tree with Some x => subtree q x | None => None end.
Proof.
  revert tree. induction p as [|i p IH]; intros tree; [done|].
  simpl. destruct tree; try done. destruct (elems !! i); [apply IH | done].
Qed.

(** The walk reaches every array of the tree, and leaves in its place what
    it makes of that array. *)
Lemma subtree_cleanCoordinatesRecursive (path : list nat) (tree : value) (l : list value) :
  subtree path tree = Some (VArr l) ->
  subtree path (cleanCoordinatesRecursive tree) = Some (cleanCoordinatesRecursive (VArr l)).
Proof.
  revert tree. induction path as [|i rest IH]; intros tree; simpl.
  - by intros [= ->].
  - destruct tree as [| | | | |l0|]; try discriminate.
    destruct (l0 !! i) as [child|] eqn:Hchild; [|discriminate]. intros Hrest.
    rewrite cleanCoordinatesRecursive_array.
    destruct (looksLikePair l0) eqn:Hpair.
    + exfalso. apply looksLikePair_inv in Hpair as (a & b & -> & Ha & Hb).
      assert (Hprim : numberOrString child = true).
      { destruct i as [|[|i]]; simpl in Hchild; try discriminate; by injection Hchild as <-. }
      destruct rest; simpl in Hrest; [injection Hrest as ->; discriminate Hprim|].
      by destruct child.
    + simpl. rewrite list_lookup_fmap, Hchild. simpl. by apply IH.
Qed.

(** C3, as the code has it.  Whatever the tree, after the walk every array
    of two number-or-string entries is a pair of finite numbers.  Wherever
    the tree holds such an array, however deep, the result holds in its
    place [[0, 0]] when either entry fails to parse to a finite number, and
    the pair of the parsed numbers otherwise; a pair of finite numbers
    comes back with the same two numbers.  Every other array is walked,
    not replaced: it keeps its length, and its entries that are not arrays
    stay as they are. *)
Theorem cleanCoordinatesRecursive_sanitises (tree : value) :
  sanitised (cleanCoordinatesRecursive tree) = true /\
  (forall path a b,
      subtree path tree = Some (VArr [a; b]) ->
      numberOrString a = true -> numberOrString b = true ->
      subtree path (cleanCoordinatesRecursive tree) =
        Some (if PrimFloat.is_finite (parseFloat a) && PrimFloat.is_finite (parseFloat b)
              then VArr [VNum (parseFloat a); VNum (parseFloat b)]
              else origin)) /\
  (forall path x y,
      subtree path tree = Some (VArr [VNum x; VNum y]) ->
      PrimFloat.is_finite x = true -> PrimFloat.is_finite y = true ->
      exists x' y',
        subtree path (cleanCoordinatesRecursive tree) = Some (VArr [VNum x'; VNum y']) /\
        strictEq false (VNum x) (VNum x') = true /\
        strictEq false (VNum y) (VNum y') = true) /\
  (forall path l,
      subtree path tree = Some (VArr l) -> looksLikePair l = false ->
      exists l',
        subtree path (cleanCoordinatesRecursive tree) = Some (VArr l') /\
        length l' = length l /\
        forall i v, l !! i = Some v -> heapObject v = false \/ (exists fs, v = VObj fs) ->
                    l' !! i = Some v).
Proof.
  split; [apply cleanCoordinatesRecursive_sanitised|]. split; [|split].
  - intros path a b Hpath Ha Hb.
    rewrite (subtree_cleanCoordinatesRecursive _ _ _ Hpath), cleanCoordinatesRecursive_array.
    unfold looksLikePair, elem. simpl. rewrite Ha, Hb. simpl. f_equal.
    exact (cleanCoordinatePair_two a b).
  - intros path x y Hpath Hx Hy.
    exists (parseFloat (VNum x)), (parseFloat (VNum y)). split.
    + rewrite (subtree_cleanCoordinatesRecursive _ _ _ Hpath), cleanCoordinatesRecursive_array.
      change (looksLikePair [VNum x; VNum y]) with true.
      rewrite cleanCoordinatePair_two.
      by rewrite (parseFloat_number_finite x Hx), (parseFloat_number_finite y Hy).
    + split; apply parseFloat_number; by apply finite_not_nan.
  - intros path l Hpath Hl.
    exists (List.map cleanCoordinatesRecursive l).
    rewrite (subtree_cleanCoordinatesRecursive _ _ _ Hpath), cleanCoordinatesRecursive_array, Hl.
    split; [done|]. split; [apply length_map|].
    intros i v Hv Hkind. rewrite list_lookup_fmap, Hv. simpl. f_equal.
    destruct Hkind as [Hprim | [fs ->]]; [by destruct v | done].
Qed.

End Geometry.

Section Rings.
Context {E : Engine}.

Lemma nanFree_elem (l : list value) (i : nat) :
  forallb nanFree l = true -> nanFree (elem l i) = true.
Proof.
  intros Hl. unfold elem. destruct (l !! i) as [x|] eqn:Hx; [|done]. simpl.
  rewrite forallb_forall in Hl. apply Hl. apply list_elem_of_In.
  by eapply list_elem_of_lookup_2.
Qed.

Lemma nanFree_assoc (k : string) (fs : list (string * value)) :
  forallb (fun kv => nanFree (snd kv)) fs = true ->
  nanFree (default VUndefined (assoc k fs)) = true.
Proof.
  induction fs as [|[k' v] fs IH]; simpl; [done|].
  intros [Hv Hfs]%andb_true_iff. destruct (String.eqb k k'); [done | by apply IH].
Qed.

Lemma nanFree_obj_set (k : string) (v : value) (fs : list (string * value)) :
  nanFree v = true ->
  forallb (fun kv => nanFree (snd kv)) fs = true ->
  forallb (fun kv => nanFree (snd kv)) (obj_set k v fs) = true.
Proof.
  intros Hv. induction fs as [|[k' v'] fs IH]; simpl; [by rewrite Hv|].
  intros [Hv' Hfs]%andb_true_iff.
  destruct (String.eqb k k'); simpl; rewrite ?Hv, ?Hv'; simpl; [done | by apply IH].
Qed.

Lemma JSON_norm_nanFree (v : value) : nanFree (JSON_norm v) = true.
Proof.
  induction v as [| | |x| |l IH|fs IH] using value_ind; simpl; try done.
  - destruct (PrimFloat.is_finite x) eqn:Hx; [|done].
    destruct (PrimFloat.is_zero x); simpl; [done|]. by rewrite (finite_not_nan x Hx).
  - induction IH as [|y l Hy _ IHl]; simpl; [done|]. by rewrite Hy.
  - induction IH as [|[k y] fs Hy _ IHfs]; simpl; [done|].
    simpl in Hy. destruct y; simpl in *; rewrite ?Hy; done.
Qed.

Lemma strictEq_refl (a : value) : nanFree a = true -> strictEq true a a = true.
Proof.
  destruct a; simpl; try done.
  - by destruct b.
  - intros Hx. apply float_eqb_refl. by destruct (PrimFloat.is_nan x).
  - intros _. apply String.eqb_refl.
Qed.

End Rings.

Section Validator.
Context {E : Engine}.

Lemma JSON_clone_nanFree (v nf : value) : JSON_clone v = Return nf -> nanFree nf = true.
Proof.
  destruct v; simpl; try discriminate; intros [= <-]; try done;
    apply (JSON_norm_nanFree (VNum _)) || apply (JSON_norm_nanFree (VArr _))
    || apply (JSON_norm_nanFree (VObj _)).
Qed.

Lemma getProp_VObj (fs : list (string * value)) (k : string) :
  getProp (VObj fs) k = Return (default VUndefined (assoc k fs)).
Proof. reflexivity. Qed.

#[local] Arguments cleanCoordinatesRecursive : simpl never.

(** What the validator hands back, when it returns: the members of the
    deep copy, with [properties] and [geometry] made present, and the
    geometry either left alone (no coordinate array), or carrying the walked
    coordinates, ring-fixed when the type is Polygon. *)
Lemma ensurePolygonClosedAndClean_cases (geoJsonFeature result : value) :
  ensurePolygonClosedAndClean geoJsonFeature = Return result ->
  exists fs2 : list (string * value),
    forallb (fun kv => nanFree (snd kv)) fs2 = true /\
    truthy (default VUndefined (assoc "properties" fs2)) = true /\
    truthy (default VUndefined (assoc "geometry" fs2)) = true /\
    ((result = VObj fs2 /\
      forall gs cs, assoc "geometry" fs2 = Some (VObj gs) ->
                    assoc "coordinates" gs <> Some (VArr cs)) \/
     (exists gs cs,
        assoc "geometry" fs2 = Some (VObj gs) /\
        assoc "coordinates" gs = Some (VArr cs) /\
        let cleaned := cleanCoordinatesRecursive (VArr cs) in
        let gs1 := obj_set "coordinates" cleaned gs in
        (strictEq false (default VUndefined (assoc "type" gs1)) (VStr "Polygon") = false /\
         result = VObj (obj_set "geometry" (VObj gs1) fs2)) \/
        (strictEq false (default VUndefined (assoc "type" gs1)) (VStr "Polygon") = true /\
         exists rings rings',
           cleaned = VArr rings /\ mapR fixRing rings = Return rings' /\
           result = VObj (obj_set "geometry"
                            (VObj (obj_set "coordinates" (VArr rings') gs1)) fs2)))).
Proof.
  unfold ensurePolygonClosedAndClean.
  destruct (JSON_clone geoJsonFeature) as [nf|] eqn:Hclone; [|discriminate].
  apply JSON_clone_nanFree in Hclone. rewrite bind_Return.
  destruct nf as [| | | | | |fs]; try discriminate.
  simpl in Hclone.
  set (fs1 := if truthy (default VUndefined (assoc "properties" fs)) then fs
              else obj_set "properties" (VObj []) fs).
  set (fs2 := if truthy (default VUndefined (assoc "geometry" fs1)) then fs1
              else obj_set "geometry" emptyGeometry fs1).
  cbv zeta.
  assert (Hfs1 : forallb (fun kv => nanFree (snd kv)) fs1 = true).
  { unfold fs1. case_match; [done|]. by apply nanFree_obj_set. }
  assert (Hfs2 : forallb (fun kv => nanFree (snd kv)) fs2 = true).
  { unfold fs2. case_match; [done|]. by apply nanFree_obj_set. }
  assert (Hp1 : truthy (default VUndefined (assoc "properties" fs1)) = true).
  { unfold fs1. case_match; [done|]. by rewrite assoc_obj_set_eq. }
  assert (Hp2 : truthy (default VUndefined (assoc "properties" fs2)) = true).
  { unfold fs2. case_match; [done|]. by rewrite assoc_obj_set_ne. }
  assert (Hg2 : truthy (default VUndefined (assoc "geometry" fs2)) = true).
  { unfold fs2. case_match; [done|]. by rewrite assoc_obj_set_eq. }
  clearbody fs2. clear fs1 Hfs1 Hp1.
  intros Hres. exists fs2. split; [done|]. split; [done|]. split; [done|].
  destruct (assoc "geometry" fs2) as [g|] eqn:Hg; [|done]. simpl in Hg2, Hres.
  destruct g as [| | | | | |gs]; try done; simpl in Hres;
    try (left; split; [by injection Hres | by intros]).
  destruct (assoc "coordinates" gs) as [c|] eqn:Hc; simpl in Hres;
    [|left; split; [by injection Hres | by intros gs' cs [= <-]; rewrite Hc]].
  destruct c as [| | | | |cs|]; simpl in Hres;
    try (left; split; [by injection Hres | by intros gs' cs' [= <-]; rewrite Hc]).
  right. exists gs, cs. split; [done|]. split; [done|]. cbv zeta.
  destruct (strictEq false _ (VStr "Polygon")) eqn:Hty.
  - right. split; [done|].
    destruct (cleanCoordinatesRecursive (VArr cs)) as [| | | | |rings|] eqn:Hcl.
    all: try (exfalso; revert Hcl; rewrite cleanCoordinatesRecursive_array;
              destruct (looksLikePair cs) eqn:Hl;
              [apply looksLikePair_inv in Hl as (u & w & -> & _);
               destruct (cleanCoordinatePair_wellFormed u w) as (l & -> & _)|]; discriminate).
    destruct (mapR fixRing rings) as [rings'|] eqn:Hm; [|discriminate].
    exists rings, rings'. split; [done|]. split; [done|]. by injection Hres.
  - left. split; [done|]. by injection Hres.
Qed.

End Validator.


Section ValidatorTheorems.
Context {E : Engine}.

Lemma elem_last (p : value) (r : list value) :
  elem (p :: r) (length (p :: r) - 1) = default VUndefined (last (p :: r)).
Proof.
  unfold elem. rewrite last_lookup. do 2 f_equal. simpl. lia.
Qed.

(** Whatever it is given, [cleanCoordinatePair] hands back two finite
    numbers. *)
Lemma cleanCoordinatePair_finite (coordPair : value) :
  exists lon lat,
    cleanCoordinatePair coordPair = VArr [VNum lon; VNum lat] /\
    PrimFloat.is_finite lon = true /\ PrimFloat.is_finite lat = true.
Proof.
  assert (Horigin : exists lon lat,
             origin = VArr [VNum lon; VNum lat] /\
             PrimFloat.is_finite lon = true /\ PrimFloat.is_finite lat = true).
  { by exists 0%float, 0%float. }
  destruct coordPair as [| | | | |[|a [|b [|c l]]]|]; try exact Horigin.
  rewrite cleanCoordinatePair_two.
  destruct (PrimFloat.is_finite (parseFloat a)) eqn:Ha; [|exact Horigin].
  destruct (PrimFloat.is_finite (parseFloat b)) eqn:Hb; [|exact Horigin].
  simpl. eauto.
Qed.

(** The ring loop on a ring of pairs of numbers: the ring as it is when
    its ends agree, followed by a copy of its first pair when they do
    not. *)
Lemma fixRing_pairs (c : value) (cs : list value) :
  Forall (fun p => exists x y, p = VArr [VNum x; VNum y]) (c :: cs) ->
  fixRing (VArr (c :: cs)) =
    Return (if samePosition c (default c (last (c :: cs)))
            then VArr (c :: cs) else VArr ((c :: cs) ++ [c])).
Proof.
  intros Hall. unfold fixRing, closeRing. rewrite elem_last.
  change (elem (c :: cs) 0) with c.
  assert (Hlast : exists x y, last (c :: cs) = Some (VArr [VNum x; VNum y])).
  { destruct (last (c :: cs)) as [q|] eqn:Hq.
    - rewrite Forall_forall in Hall.
      destruct (Hall q) as (x & y & ->); [|eauto].
      rewrite last_lookup in Hq. by eapply list_elem_of_lookup_2.
    - by apply last_None in Hq. }
  destruct Hlast as (x1 & y1 & ->).
  apply Forall_cons in Hall as [(x0 & y0 & ->) _]. simpl.
  destruct (PrimFloat.eqb x0 x1); simpl; [|done].
  by destruct (PrimFloat.eqb y0 y1).
Qed.

(** The walk and the ring loop on a ring of pairs give the
    specification's closed ring. *)
Lemma fixRing_ringOfPairs (ring : value) :
  ringOfPairs ring = true ->
  fixRing (cleanCoordinatesRecursive ring) = Return (closedRing ring).
Proof.
  destruct ring as [| | | | |[|p ps]|]; try done. intros Hall.
  assert (Hclean : cleanCoordinatesRecursive (VArr (p :: ps)) =
                   VArr (cleanCoordinatePair <$> (p :: ps))).
  { rewrite cleanCoordinatesRecursive_array.
    assert (looksLikePair (p :: ps) = false) as ->.
    { simpl in Hall. apply andb_true_iff in Hall as [Hp _].
      destruct p; try discriminate. unfold looksLikePair, elem. simpl.
      by rewrite andb_false_r. }
    f_equal. apply map_ext_in. intros q Hq.
    simpl in Hall. change (forallb pairPosition (p :: ps) = true) in Hall.
    rewrite forallb_forall in Hall. specialize (Hall q Hq).
    destruct q; try discriminate. simpl in Hall.
    by rewrite cleanCoordinatesRecursive_array, Hall. }
  rewrite Hclean. unfold closedRing. cbv zeta.
  change (cleanCoordinatePair <$> p :: ps)
    with (cleanCoordinatePair p :: (cleanCoordinatePair <$> ps)).
  apply fixRing_pairs.
  change (cleanCoordinatePair p :: (cleanCoordinatePair <$> ps))
    with (cleanCoordinatePair <$> p :: ps).
  apply Forall_fmap, Forall_forall. intros q _. simpl.
  destruct (cleanCoordinatePair_finite q) as (x & y & -> & _). eauto.
Qed.

Lemma closedRing_closed (ring : value) : closedVertexRing (closedRing ring) = true.
Proof.
  destruct ring as [| | | | |[|p ps]|]; try done.
  unfold closedRing. cbv zeta.
  destruct (cleanCoordinatePair_finite p) as (x0 & y0 & Hp & Hx0 & Hy0).
  change (cleanCoordinatePair <$> p :: ps)
    with (cleanCoordinatePair p :: (cleanCoordinatePair <$> ps)).
  rewrite Hp.
  set (rest := cleanCoordinatePair <$> ps).
  destruct (samePosition _ _) eqn:Hsame.
  - unfold closedVertexRing.
    destruct (last (VArr [VNum x0; VNum y0] :: rest)) as [q|] eqn:Hq;
      [|by apply last_None in Hq].
    simpl in Hsame. by destruct q as [| | | | |[|[| | |x1| | |] [|[| | |y1| | |] [|? ?]]]|].
  - assert (Hlast : last (VArr [VNum x0; VNum y0] :: (rest ++ [VArr [VNum x0; VNum y0]]))
                    = Some (VArr [VNum x0; VNum y0])).
    { change (last ((VArr [VNum x0; VNum y0] :: rest) ++ [VArr [VNum x0; VNum y0]])
              = Some (VArr [VNum x0; VNum y0])).
      apply last_snoc. }
    change ((VArr [VNum x0; VNum y0] :: rest) ++ [VArr [VNum x0; VNum y0]])
      with (VArr [VNum x0; VNum y0] :: (rest ++ [VArr [VNum x0; VNum y0]])).
    unfold closedVertexRing. cbv iota. rewrite Hlast.
    by rewrite !float_eqb_refl by (by apply finite_not_nan).
Qed.

(** C2, as the code has it.  On a feature whose deep copy is a Polygon
    with rings of coordinate pairs (positions of two entries, each a
    number or a string), the validator returns, and each ring of the
    result is the ring of the cleaned pairs, followed by a copy of its
    first pair exactly when its last pair differs from the first in
    longitude or latitude; an empty ring, and a ring that is not an array,
    give the empty ring.  Every ring of the result is therefore empty or
    has a first and a last position with the same longitude and the same
    latitude. *)
Theorem ensurePolygonClosedAndClean_closes_rings
    (geoJsonFeature : value) (fs gs : list (string * value)) (rings : list value) :
  JSON_clone geoJsonFeature = Return (VObj fs) ->
  assoc "geometry" fs = Some (VObj gs) ->
  assoc "type" gs = Some (VStr "Polygon") ->
  assoc "coordinates" gs = Some (VArr rings) ->
  forallb ringOfPairs rings = true ->
  exists result geometry,
    ensurePolygonClosedAndClean geoJsonFeature = Return result /\
    getProp result "geometry" = Return geometry /\
    getProp geometry "type" = Return (VStr "Polygon") /\
    getProp geometry "coordinates" = Return (VArr (closedRing <$> rings)) /\
    forallb closedVertexRing (closedRing <$> rings) = true.
Proof.
  intros Hclone Hg Ht Hc Hrings.
  assert (Hloop : exists rings0,
             cleanCoordinatesRecursive (VArr rings) = VArr rings0 /\
             mapR fixRing rings0 = Return (closedRing <$> rings)).
  { rewrite cleanCoordinatesRecursive_array.
    destruct (looksLikePair rings) eqn:Hpair.
    - apply looksLikePair_inv in Hpair as (a & b & -> & Ha & Hb).
      destruct (cleanCoordinatePair_finite (VArr [a; b])) as (x & y & -> & _).
      eexists. split; [reflexivity|]. by destruct a, b.
    - eexists. split; [reflexivity|].
      clear Hpair Hc. induction rings as [|r rings IH]; [done|].
      simpl in Hrings. apply andb_true_iff in Hrings as [Hr Hrings].
      cbn [List.map mapR]. rewrite (fixRing_ringOfPairs r Hr), bind_Return.
      by rewrite (IH Hrings). }
  destruct Hloop as (rings0 & Hcleaned & Hfixed).
  unfold ensurePolygonClosedAndClean. rewrite Hclone, bind_Return.
  set (fs1 := if truthy (default VUndefined (assoc "properties" fs)) then fs
              else obj_set "properties" (VObj []) fs).
  assert (Hg1 : assoc "geometry" fs1 = Some (VObj gs)).
  { unfold fs1. case_match; [done|]. by rewrite assoc_obj_set_ne. }
  set (fs2 := if truthy (default VUndefined (assoc "geometry" fs1)) then fs1
              else obj_set "geometry" emptyGeometry fs1).
  assert (fs2 = fs1) as -> by (unfold fs2; by rewrite Hg1).
  clearbody fs1. cbv zeta. rewrite Hg1.
  change (default VUndefined (Some (VObj gs))) with (VObj gs).
  rewrite getProp_VObj, Hc.
  change (default VUndefined (Some (VArr rings))) with (VArr rings).
  rewrite bind_Return. cbv iota. rewrite Hcleaned.
  rewrite assoc_obj_set_ne, Ht by done.
  change (strictEq false (default VUndefined (Some (VStr "Polygon"))) (VStr "Polygon"))
    with true.
  cbv iota. rewrite Hfixed, bind_Return.
  eexists _, _. split; [reflexivity|].
  rewrite getProp_VObj, assoc_obj_set_eq. split; [reflexivity|].
  change (default VUndefined (Some ?x)) with x.
  rewrite !getProp_VObj, assoc_obj_set_eq, !assoc_obj_set_ne, Ht by done.
  split; [done|]. split; [done|].
  apply forallb_forall. intros r' Hr'. apply in_map_iff in Hr' as (r & <- & _).
  apply closedRing_closed.
Qed.

(** C8, where the code fails it.  On a Polygon with [null] in the place of
    a ring's point the validator throws: the ring loop reads
    [firstPoint[0]] of [null].  Such a feature reaches it: a [bulkAdd]
    stores it unchecked, and the next run of the layer effect, whatever
    the layers, stops on the exception. *)
Theorem ensurePolygonClosedAndClean_throws_on_null_point
    {T : Toolkit} (prev : store) (lm : layers) :
  ensurePolygonClosedAndClean featureWithNullPoint = Throw TypeError /\
  handleIncomingMessage
    (VObj [("type", VStr "bulkAdd"); ("data", VArr [featureWithNullPoint])]) prev
    = Return [featureWithNullPoint] /\
  syncShapes [featureWithNullPoint] lm = Throw TypeError.
Proof.
  assert (Hthrow : ensurePolygonClosedAndClean featureWithNullPoint = Throw TypeError)
    by reflexivity.
  split; [exact Hthrow|]. split; [reflexivity|].
  unfold syncShapes.
  change (mapR _ [featureWithNullPoint])
    with (Return (A := list string) [ToString (VNum 1%float)]).
  rewrite bind_Return.
  destruct (removeStale _ lm) as [lm0 ops0].
  unfold foldR, syncFeature.
  change (getProp featureWithNullPoint "id") with (Return (A := value) (VNum 1%float)).
  by rewrite bind_Return, Hthrow.
Qed.

End ValidatorTheorems.

(* ===================================================================== *)
(** * Shape statistics *)
(* ===================================================================== *)



Section Stats.
Context {E : Engine}.

Lemma rotate_nat_add_1 (j n : nat) : rotate_nat_add 1 j n = (j + 1) mod n.
Proof.
  unfold rotate_nat_add.
  rewrite <- Nat2Z.inj_add, <- Nat2Z.inj_mod, Nat2Z.id. by rewrite Nat.add_comm.
Qed.

Lemma consecutive_lookup (ring : list vertex) (j : nat) (p : vertex) :
  ring !! j = Some p ->
  exists q, ring !! ((j + 1) mod length ring) = Some q /\
            consecutive ring !! j = Some (p, q).
Proof.
  intros Hp. pose proof (lookup_lt_Some _ _ _ Hp) as Hlt.
  destruct (ring !! ((j + 1) mod length ring)) as [q|] eqn:Hq.
  - exists q. split; [done|]. unfold consecutive.
    apply lookup_zip_with_Some. exists p, q. split; [done|]. split; [done|].
    by rewrite lookup_rotate_r, rotate_nat_add_1.
  - apply lookup_ge_None in Hq.
    pose proof (Nat.mod_upper_bound (j + 1) (length ring)). lia.
Qed.

Lemma length_consecutive (ring : list vertex) : length (consecutive ring) = length ring.
Proof. unfold consecutive. rewrite length_zip_with, length_rotate. lia. Qed.

(** A reduction whose callback does, at every index, what [step] does to
    the matching term of [ts], is the left fold of [step] over [ts]. *)
Lemma reduce_from_pointwise {T} (f : num -> value -> nat -> result num)
    (step : num -> T -> num) (l : list value) (ts : list T) (i : nat) (sum : num) :
  length l = length ts ->
  (forall j x t s, l !! j = Some x -> ts !! j = Some t ->
                   f s x (i + j) = Return (step s t)) ->
  reduce_from f l i sum = Return (foldl step sum ts).
Proof.
  revert ts i sum. induction l as [|x l IH]; intros [|t ts] i sum Hlen Hf;
    simpl in *; try done.
  rewrite <- (Nat.add_0_r i) at 1. rewrite (Hf 0 x t sum eq_refl eq_refl).
  rewrite bind_Return. apply IH; [lia|].
  intros j y u s Hy Hu. replace (S i + j) with (i + S j) by lia. by apply (Hf (S j)).
Qed.

Lemma destructure2_vertex (p : vertex) :
  destructure2 (vertexValue p) = Return (VNum (fst p), VNum (snd p)).
Proof. reflexivity. Qed.

Lemma nextVertex_vertex (ring : list vertex) (j : nat) (q : vertex) :
  ring !! ((j + 1) mod length ring) = Some q ->
  nextVertex (vertexValue <$> ring) j = vertexValue q.
Proof.
  intros Hq. unfold nextVertex, elem.
  by rewrite length_fmap, list_lookup_fmap, Hq.
Qed.

Lemma area_reduce (ring : list vertex) :
  reduce (areaStep (vertexValue <$> ring)) (vertexValue <$> ring) 0%float =
    Return (shoelaceSum ring).
Proof.
  unfold reduce, shoelaceSum. apply reduce_from_pointwise.
  - by rewrite length_fmap, length_consecutive.
  - intros j x [p q] s Hx Ht. simpl.
    rewrite list_lookup_fmap in Hx.
    destruct (ring !! j) as [p'|] eqn:Hp; [|discriminate]. injection Hx as <-.
    destruct (consecutive_lookup ring j p' Hp) as (q' & Hq & Hc).
    pose proof (eq_trans (eq_sym Ht) Hc) as Heq. injection Heq as -> ->.
    unfold areaStep. rewrite destructure2_vertex, bind_Return.
    by rewrite (nextVertex_vertex ring j q' Hq), destructure2_vertex.
Qed.

Lemma perimeter_reduce (ring : list vertex) :
  reduce (perimeterStep (vertexValue <$> ring)) (vertexValue <$> ring) 0%float =
    Return (pathLength ring).
Proof.
  unfold reduce, pathLength. apply reduce_from_pointwise.
  - by rewrite length_fmap, length_consecutive.
  - intros j x [p q] s Hx Ht. simpl.
    rewrite list_lookup_fmap in Hx.
    destruct (ring !! j) as [p'|] eqn:Hp; [|discriminate]. injection Hx as <-.
    destruct (consecutive_lookup ring j p' Hp) as (q' & Hq & Hc).
    pose proof (eq_trans (eq_sym Ht) Hc) as Heq. injection Heq as -> ->.
    unfold perimeterStep. rewrite destructure2_vertex, bind_Return.
    by rewrite (nextVertex_vertex ring j q' Hq), destructure2_vertex.
Qed.

(** The head of [getShapeStats], up to the dispatch on the geometry type. *)
Lemma getShapeStats_dispatch (shape geometry properties ptype pcolor : value) (t : string) :
  getProp shape "geometry" = Return geometry ->
  getProp geometry "type" = Return (VStr t) ->
  getProp shape "properties" = Return properties ->
  getProp properties "type" = Return ptype ->
  getProp properties "color" = Return pcolor ->
  truthy shape = true /\ exists gs, geometry = VObj gs.
Proof.
  intros Hg Ht _ _ _. split.
  - destruct shape; simpl in *; try discriminate; try done.
    all: injection Hg as <-; discriminate.
  - destruct geometry; simpl in Ht; try discriminate; eauto.
Qed.

(** C9. For a Polygon whose first ring is a list of numeric vertices the
    statistics carry the shoelace sum of consecutive vertices, halved and
    divided by 10^6, as the area, and the sum of the Euclidean distances
    between consecutive vertices divided by 10^3 as the perimeter; the
    panel shows the magnitude of the area.  For a Circle of radius [r]
    (a number other than 0 and NaN) they carry pi * r * r / 10^6,
    2 * pi * r / 10^3 and the position as stored.  All arithmetic is
    binary64, in the order written. *)
Theorem getShapeStats_formulas
    (shape geometry properties ptype pcolor coordinates : value) :
  getProp shape "geometry" = Return geometry ->
  getProp shape "properties" = Return properties ->
  getProp properties "type" = Return ptype ->
  getProp properties "color" = Return pcolor ->
  getProp geometry "coordinates" = Return coordinates ->
  (forall (ring : list vertex) (holes : list value),
      getProp geometry "type" = Return (VStr "Polygon") ->
      coordinates = VArr (VArr (vertexValue <$> ring) :: holes) ->
      let stats := VObj [("type", ptype); ("color", pcolor);
                         ("area", VNum (polygonArea ring));
                         ("perimeter", VNum (pathLength ring / 1000)%float)] in
      getShapeStats shape = Return stats /\
      areaShown stats =
        Return (if truthy (VNum (polygonArea ring))
                then Some (PrimFloat.abs (polygonArea ring)) else None)) /\
  (forall r : num,
      getProp geometry "type" = Return (VStr "Circle") ->
      getProp properties "radius" = Return (VNum r) ->
      truthy (VNum r) = true ->
      getShapeStats shape =
        Return (VObj [("type", ptype); ("color", pcolor);
                      ("area", VNum (Math_PI * r * r / 1000000)%float);
                      ("perimeter", VNum (2 * Math_PI * r / 1000)%float);
                      ("position", coordinates)])).
Proof.
  intros Hg Hp Hpt Hpc Hc. split.
  - intros ring holes Ht -> stats.
    destruct (getShapeStats_dispatch _ _ _ _ _ _ Hg Ht Hp Hpt Hpc) as [Hshape _].
    split; [|done].
    unfold getShapeStats. rewrite Hshape, Hg, Hp. simpl negb. cbv iota.
    rewrite !bind_Return, Hpt, bind_Return, Hpc, bind_Return, Ht, bind_Return.
    change (strictEq false (VStr "Polygon") (VStr "Polygon")) with true. cbv iota.
    rewrite Hc, bind_Return.
    change (getIndex (VArr (VArr (vertexValue <$> ring) :: holes)) 0)
      with (Return (A:=value) (VArr (vertexValue <$> ring))).
    rewrite bind_Return.
    change (asArray (VArr (vertexValue <$> ring)))
      with (Return (A:=list value) (vertexValue <$> ring)).
    rewrite bind_Return, area_reduce, bind_Return, perimeter_reduce, bind_Return.
    reflexivity.
  - intros r Ht Hr Htruthy.
    destruct (getShapeStats_dispatch _ _ _ _ _ _ Hg Ht Hp Hpt Hpc) as [Hshape _].
    unfold getShapeStats. rewrite Hshape, Hg, Hp. simpl negb. cbv iota.
    rewrite !bind_Return, Hpt, bind_Return, Hpc, bind_Return, Ht, bind_Return.
    change (strictEq false (VStr "Circle") (VStr "Polygon")) with false.
    change (strictEq false (VStr "Circle") (VStr "LineString")) with false.
    change (strictEq false (VStr "Circle") (VStr "Point")) with false.
    change (strictEq false (VStr "Circle") (VStr "Circle")) with true. cbv iota.
    rewrite Hr, bind_Return, Htruthy, Hc, bind_Return. reflexivity.
Qed.

(** C10. For a Circle whose [properties.radius] is absent or falsy the
    statistics are the type, the colour and the position as stored, with
    no area and no perimeter member; nothing throws and nothing is
    reported as zero. *)
Theorem getShapeStats_circle_without_radius
    (shape geometry properties ptype pcolor coordinates radius : value) :
  getProp shape "geometry" = Return geometry ->
  getProp shape "properties" = Return properties ->
  getProp properties "type" = Return ptype ->
  getProp properties "color" = Return pcolor ->
  getProp geometry "type" = Return (VStr "Circle") ->
  getProp geometry "coordinates" = Return coordinates ->
  getProp properties "radius" = Return radius ->
  truthy radius = false ->
  exists fields,
    getShapeStats shape = Return (VObj fields) /\
    fields = [("type", ptype); ("color", pcolor); ("position", coordinates)] /\
    assoc "position" fields = Some coordinates /\
    assoc "area" fields = None /\
    assoc "perimeter" fields = None.
Proof.
  intros Hg Hp Hpt Hpc Ht Hc Hr Hfalsy.
  destruct (getShapeStats_dispatch _ _ _ _ _ _ Hg Ht Hp Hpt Hpc) as [Hshape _].
  eexists. split; [|split; [reflexivity | done]].
  unfold getShapeStats. rewrite Hshape, Hg, Hp. simpl negb. cbv iota.
  rewrite !bind_Return, Hpt, bind_Return, Hpc, bind_Return, Ht, bind_Return.
  change (strictEq false (VStr "Circle") (VStr "Polygon")) with false.
  change (strictEq false (VStr "Circle") (VStr "LineString")) with false.
  change (strictEq false (VStr "Circle") (VStr "Point")) with false.
  change (strictEq false (VStr "Circle") (VStr "Circle")) with true. cbv iota.
  rewrite Hr, bind_Return, Hfalsy, Hc, bind_Return. reflexivity.
Qed.

End Stats.

(* ===================================================================== *)
(** * Layer synchronisation *)
(* ===================================================================== *)


Section Sync.
Context {E : Engine} {T : Toolkit}.

Lemma opsFor_app (k : string) (a b : list op) :
  opsFor k (a ++ b) = opsFor k a ++ opsFor k b.
Proof. apply filter_app. Qed.

Lemma opsFor_other (k : string) (o : op) : op_key o <> k -> opsFor k [o] = [].
Proof. intros Hne. unfold opsFor. by rewrite filter_cons_False, filter_nil. Qed.

Lemma opsFor_self (k : string) (o : op) : op_key o = k -> opsFor k [o] = [o].
Proof. intros Hk. unfold opsFor. by rewrite filter_cons_True, filter_nil. Qed.

Lemma applyCurrentStyles_inv (shape : value) (lm lm' : layers) (ops ops' : list op) :
  applyCurrentStyles shape (lm, ops) = Return (lm', ops') ->
  exists id,
    getProp shape "id" = Return id /\
    match lm !! ToPropertyKey id with
    | Some l => exists l', lm' = <[ToPropertyKey id := l']> lm /\
                           ops' = ops ++ [Style (ToPropertyKey id)]
    | None => lm' = lm /\ ops' = ops
    end.
Proof.
  unfold applyCurrentStyles.
  destruct (getProp shape "id") as [id|] eqn:Hid; [|discriminate].
  rewrite bind_Return. intros Happly. exists id. split; [done|].
  destruct (lm !! ToPropertyKey id) as [l|]; [|by injection Happly as <- <-].
  destruct (restyle l shape) as [l'|]; [|discriminate].
  rewrite bind_Return in Happly. injection Happly as <- <-. eauto.
Qed.


Lemma syncFeature_inv (feature : value) (lm lm' : layers) (ops ops' : list op) :
  syncFeature (lm, ops) feature = Return (lm', ops') ->
  exists id c recreate,
    getProp feature "id" = Return id /\
    ensurePolygonClosedAndClean feature = Return c /\
    shouldRecreateLayer (lm !! ToPropertyKey id) c = Return recreate /\
    if recreate : bool then
      exists made, createLayer c = Return made /\
        if made : bool then
          exists cid, getProp c "id" = Return cid /\
            applyCurrentStyles c
              (<[ToPropertyKey cid := Layer c]> (afterTeardown (ToPropertyKey id) lm ops).1,
               (afterTeardown (ToPropertyKey id) lm ops).2 ++ [Create (ToPropertyKey cid)])
            = Return (lm', ops')
        else (lm', ops') = afterTeardown (ToPropertyKey id) lm ops
    else applyCurrentStyles c (lm, ops) = Return (lm', ops').
Proof.
  unfold syncFeature.
  destruct (getProp feature "id") as [id|] eqn:Hid; [|discriminate].
  rewrite bind_Return.
  destruct (ensurePolygonClosedAndClean feature) as [c|] eqn:Hc; [|discriminate].
  rewrite bind_Return.
  destruct (shouldRecreateLayer (lm !! ToPropertyKey id) c) as [recreate|] eqn:Hr;
    [|discriminate].
  rewrite bind_Return. intros Hrest. exists id, c, recreate.
  split; [done|]. split; [done|]. split; [done|].
  destruct recreate; [|done].
  unfold afterTeardown. destruct (lm !! ToPropertyKey id) as [l|] eqn:Hl.
  - destruct (createLayer c) as [made|] eqn:Hm; [|discriminate].
    rewrite bind_Return in Hrest. exists made. split; [done|].
    destruct made; [|by injection Hrest as <- <-].
    destruct (getProp c "id") as [cid|] eqn:Hcid; [|discriminate].
    rewrite bind_Return in Hrest. eauto.
  - destruct (createLayer c) as [made|] eqn:Hm; [|discriminate].
    rewrite bind_Return in Hrest. exists made. split; [done|].
    destruct made; [|by injection Hrest as <- <-].
    destruct (getProp c "id") as [cid|] eqn:Hcid; [|discriminate].
    rewrite bind_Return in Hrest. eauto.
Qed.

Lemma afterTeardown_other (k k' : string) (lm : layers) (ops : list op) :
  k' <> k ->
  (afterTeardown k' lm ops).1 !! k = lm !! k /\
  opsFor k (afterTeardown k' lm ops).2 = opsFor k ops.
Proof.
  intros Hne. unfold afterTeardown. destruct (lm !! k'); simpl; [|done].
  rewrite lookup_delete_ne by done. split; [done|].
  rewrite opsFor_app, opsFor_other by done. by rewrite app_nil_r.
Qed.

Lemma applyCurrentStyles_other (k : string) (shape id : value)
    (lm lm' : layers) (ops ops' : list op) :
  applyCurrentStyles shape (lm, ops) = Return (lm', ops') ->
  getProp shape "id" = Return id -> ToPropertyKey id <> k ->
  lm' !! k = lm !! k /\ opsFor k ops' = opsFor k ops.
Proof.
  intros Happly Hid Hne.
  apply applyCurrentStyles_inv in Happly as (id' & Hid' & Hcase).
  rewrite Hid in Hid'. injection Hid' as <-.
  destruct (lm !! ToPropertyKey id) as [l|].
  - destruct Hcase as (l' & -> & ->). rewrite lookup_insert_ne by done.
    split; [done|]. rewrite opsFor_app, opsFor_other by done. by rewrite app_nil_r.
  - by destruct Hcase as [-> ->].
Qed.

Lemma touches_false (k : string) (feature : value) :
  touches k feature = false ->
  (forall id, getProp feature "id" = Return id -> ToPropertyKey id <> k) /\
  (forall c cid, ensurePolygonClosedAndClean feature = Return c ->
                 getProp c "id" = Return cid -> ToPropertyKey cid <> k).
Proof.
  unfold touches. intros [H1 H2]%orb_false_iff. split.
  - intros id Hid. rewrite Hid in H1. by apply String.eqb_neq.
  - intros c cid Hc Hcid. rewrite Hc, bind_Return, Hcid in H2. by apply String.eqb_neq.
Qed.

(** A feature registered elsewhere leaves the layer under [k] and its
    calls alone. *)
Lemma syncFeature_other (k : string) (feature : value)
    (lm lm' : layers) (ops ops' : list op) :
  touches k feature = false ->
  syncFeature (lm, ops) feature = Return (lm', ops') ->
  lm' !! k = lm !! k /\ opsFor k ops' = opsFor k ops.
Proof.
  intros [Hraw Hclean]%touches_false Hstep.
  apply syncFeature_inv in Hstep as (id & c & recreate & Hid & Hc & _ & Hcase).
  specialize (Hraw id Hid).
  destruct recreate.
  - destruct Hcase as (made & _ & Hcase).
    destruct (afterTeardown_other k _ lm ops Hraw) as [Hlm Hops].
    destruct made.
    + destruct Hcase as (cid & Hcid & Happly).
      specialize (Hclean c cid Hc Hcid).
      destruct (applyCurrentStyles_other k c cid _ _ _ _ Happly Hcid Hclean) as [-> ->].
      rewrite lookup_insert_ne by done. split; [done|].
      rewrite opsFor_app, opsFor_other by done. by rewrite app_nil_r.
    + destruct (afterTeardown _ lm ops) as [lm1 ops1]. by injection Hcase as -> ->.
  - destruct (ensurePolygonClosedAndClean_cases _ _ Hc) as (fs & _).
    destruct (getProp c "id") as [cid|] eqn:Hcid.
    + eapply (applyCurrentStyles_other k c cid); [exact Hcase | exact Hcid | by eapply Hclean].
    + apply applyCurrentStyles_inv in Hcase as (? & ? & _). congruence.
Qed.

Lemma foldR_app {S A} (f : S -> A -> result S) (l1 l2 : list A) (s : S) :
  foldR f (l1 ++ l2) s = (s' ← foldR f l1 s; foldR f l2 s').
Proof.
  revert s. induction l1 as [|x l1 IH]; intros s; simpl; [done|].
  destruct (f s x); simpl; [apply IH | done].
Qed.

Lemma foldR_cons {S A} (f : S -> A -> result S) (x : A) (l : list A) (s : S) :
  foldR f (x :: l) s = (s' ← f s x; foldR f l s').
Proof. reflexivity. Qed.

Lemma foldR_others (k : string) (l : list value)
    (lm lm' : layers) (ops ops' : list op) :
  Forall (fun g => touches k g = false) l ->
  foldR syncFeature l (lm, ops) = Return (lm', ops') ->
  lm' !! k = lm !! k /\ opsFor k ops' = opsFor k ops.
Proof.
  intros Hall. revert lm ops. induction Hall as [|g l Hg _ IH]; intros lm ops.
  - by intros [= <- <-].
  - rewrite foldR_cons.
    destruct (syncFeature (lm, ops) g) as [[lm1 ops1]|] eqn:Hstep; [|discriminate].
    rewrite bind_Return. intros Hrest.
    destruct (syncFeature_other k g _ _ _ _ Hg Hstep) as [<- <-]. by apply IH.
Qed.

End Sync.

Section SyncTheorems.
Context {E : Engine} {T : Toolkit}.

Lemma toStringMethod_key (id : value) (k : string) :
  toStringMethod id = Return k -> ToPropertyKey id = k.
Proof.
  unfold toStringMethod, ToPropertyKey.
  destruct id; try discriminate; destruct (convertible _); try discriminate;
    by intros [= <-].
Qed.

Lemma mapR_elem {A B} (f : A -> result B) (l : list A) (ys : list B) (x : A) (y : B) :
  mapR f l = Return ys -> x ∈ l -> f x = Return y -> y ∈ ys.
Proof.
  revert ys. induction l as [|a l IH]; intros ys Hmap Hin Hx.
  - by apply elem_of_nil in Hin.
  - simpl in Hmap. destruct (f a) as [b|] eqn:Ha; [|discriminate].
    rewrite bind_Return in Hmap.
    destruct (mapR f l) as [bs|] eqn:Hl; [|discriminate].
    rewrite bind_Return in Hmap. injection Hmap as <-.
    apply elem_of_cons in Hin as [-> | Hin].
    + rewrite Hx in Ha. injection Ha as ->. by left.
    + right. by apply IH.
Qed.

Lemma opsFor_Destroy_absent (k : string) (l : list string) :
  k ∉ l -> opsFor k (Destroy <$> l) = [].
Proof.
  induction l as [|x l IH]; intros Hk; [done|].
  apply not_elem_of_cons in Hk as [Hne Hk].
  change (Destroy <$> x :: l) with ([Destroy x] ++ (Destroy <$> l)).
  rewrite opsFor_app, opsFor_other, IH; done.
Qed.

(** The removal pass leaves a layer whose key some shape answers to. *)
Lemma removeStale_kept (k : string) (ids : list string) (lm : layers) :
  k ∈ ids ->
  (removeStale ids lm).1 !! k = lm !! k /\ opsFor k (removeStale ids lm).2 = [].
Proof.
  intros Hk. unfold removeStale. simpl. split.
  - destruct (lm !! k) as [l|] eqn:Hl.
    + by apply map_lookup_filter_Some_2.
    + apply map_lookup_filter_None_2. by left.
  - apply opsFor_Destroy_absent. intros Hin.
    apply list_elem_of_filter in Hin as [Hnot _]. by apply Hnot.
Qed.

(** With the geometry type unchanged, the layer is rebuilt exactly when
    the serialised coordinates differ. *)
Lemma shouldRecreateLayer_same_type (tracked : layer) (cleaned : value)
    (oldGeometry oldType oldCoordinates newGeometry newType newCoordinates : value) :
  getProp (layer_feature tracked) "geometry" = Return oldGeometry ->
  truthy oldGeometry = true ->
  getProp oldGeometry "type" = Return oldType ->
  getProp oldGeometry "coordinates" = Return oldCoordinates ->
  getProp cleaned "geometry" = Return newGeometry ->
  getProp newGeometry "type" = Return newType ->
  getProp newGeometry "coordinates" = Return newCoordinates ->
  strictEq false oldType newType = true ->
  shouldRecreateLayer (Some tracked) cleaned =
    Return (JSON_stringify_differs oldCoordinates newCoordinates).
Proof.
  intros Hog Htruthy Hot Hoc Hng Hnt Hnc Hsame. unfold shouldRecreateLayer.
  assert (Hf : truthy (layer_feature tracked) = true).
  { destruct (layer_feature tracked); simpl in Hog; try discriminate; try done;
      injection Hog as <-; discriminate. }
  rewrite Hf, Hog, bind_Return, Htruthy, Hot, bind_Return, Hng, bind_Return,
    Hnt, bind_Return, Hsame.
  simpl negb. cbv iota. by rewrite Hoc, bind_Return, Hnc, bind_Return.
Qed.

Lemma applyCurrentStyles_restyle (shape id : value) (l : layer)
    (lm lm' : layers) (ops ops' : list op) :
  applyCurrentStyles shape (lm, ops) = Return (lm', ops') ->
  getProp shape "id" = Return id ->
  lm !! ToPropertyKey id = Some l ->
  exists l', restyle l shape = Return l' /\
             lm' = <[ToPropertyKey id := l']> lm /\
             ops' = ops ++ [Style (ToPropertyKey id)].
Proof.
  unfold applyCurrentStyles. intros Happly Hid Hl.
  rewrite Hid, bind_Return, Hl in Happly.
  destruct (restyle l shape) as [l'|]; [|discriminate].
  rewrite bind_Return in Happly. injection Happly as <- <-. eauto.
Qed.

Lemma restyle_styledFor (l l' : layer) (shape : value) (fs : list (string * value)) :
  layer_feature l = VObj fs ->
  restyle l shape = Return l' -> styledFor l l' shape.
Proof.
  intros Hfs. unfold restyle. rewrite Hfs. simpl truthy. cbv iota.
  simpl asObject. rewrite bind_Return.
  destruct (getProp shape "properties") as [sp|] eqn:Hsp; [|discriminate].
  rewrite bind_Return. cbv zeta.
  destruct (styleCallOf shape) as [call|] eqn:Hcall; [|discriminate].
  rewrite bind_Return.
  destruct (popupCallOf _ shape) as [popup|] eqn:Hpopup; [|discriminate].
  rewrite bind_Return.
  destruct (L_restyle _ call popup) as [[]|] eqn:Hmade; [|discriminate].
  rewrite bind_Return. intros [= <-].
  exists fs, sp, call, popup. cbv zeta. simpl layer_feature. done.
Qed.

(** Which factory a geometry goes to, and with what: a Circle goes to
    [L.circle] with its coordinates and [properties.radius]; a geometry
    that is neither a Circle nor a Point goes to [L.geoJSON]. *)
Lemma createLayer_factory (cleaned geometry gtype coordinates properties : value) :
  getProp cleaned "geometry" = Return geometry ->
  getProp geometry "type" = Return gtype ->
  getProp geometry "coordinates" = Return coordinates ->
  getProp cleaned "properties" = Return properties ->
  (strictEq false gtype (VStr "Circle") = true ->
   createLayer cleaned =
     (radius ← getProp properties "radius";
      _ ← L_circle coordinates radius; Return true)) /\
  (strictEq false gtype (VStr "Circle") = false ->
   strictEq false gtype (VStr "Point") = false ->
   createLayer cleaned =
     L_geoJSON_first (VObj [("type", VStr "Feature");
                            ("geometry", geometry);
                            ("properties", properties)])).
Proof.
  intros Hg Ht Hc Hp. unfold createLayer.
  rewrite Hg, bind_Return, Ht, bind_Return, Hp, bind_Return.
  split.
  - intros ->. by rewrite Hc, bind_Return.
  - intros -> ->. by rewrite bind_Return.
Qed.

(** C7, as the code has it.  Take a snapshot (as a [modify] leaves it) in
    which one feature answers to the key [k] (not a name that a plain
    object inherits), a layer being tracked under [k] whose geometry has
    the same type as the cleaned feature's, and a run of the effect that
    completes.

    When the serialised coordinates differ, the tracked layer is torn down
    and the factory for the geometry is called with the cleaned feature (a
    Circle goes to [L.circle] with its coordinates and its radius, what is
    neither a Circle nor a Point to [L.geoJSON]): when it yields a layer,
    the calls made for [k] are one teardown, one creation and one styling,
    in that order, and the layer tracked at the end is the new one,
    carrying the cleaned feature, styled for it; when it yields none, the
    teardown is the only call and no layer is tracked under [k] any more.

    When they do not differ, there is no teardown and no creation: the one
    call is a styling, and the layer tracked at the end is the layer that
    was tracked, styled for the cleaned feature: its geometry is untouched,
    its properties are overlaid with the feature's, and Leaflet is handed
    what the styling branch for the feature's type reads of it, and the
    popup. *)
Theorem geometry_change_recreates_layer_once
    (pre post : list value) (feature id cleaned cid properties : value) (k : string)
    (tracked : layer)
    (oldGeometry oldType oldCoordinates newGeometry newType newCoordinates : value)
    (lm lm' : layers) (ops : list op) :
  getProp feature "id" = Return id ->
  toStringMethod id = Return k ->
  inheritedKey k = false ->
  ensurePolygonClosedAndClean feature = Return cleaned ->
  getProp cleaned "id" = Return cid ->
  ToPropertyKey cid = k ->
  Forall (fun g => touches k g = false) (pre ++ post) ->
  lm !! k = Some tracked ->
  getProp (layer_feature tracked) "geometry" = Return oldGeometry ->
  truthy oldGeometry = true ->
  getProp oldGeometry "type" = Return oldType ->
  getProp oldGeometry "coordinates" = Return oldCoordinates ->
  getProp cleaned "geometry" = Return newGeometry ->
  getProp newGeometry "type" = Return newType ->
  getProp newGeometry "coordinates" = Return newCoordinates ->
  getProp cleaned "properties" = Return properties ->
  strictEq false oldType newType = true ->
  syncShapes (pre ++ feature :: post) lm = Return (lm', ops) ->
  (JSON_stringify_differs oldCoordinates newCoordinates = true ->
   exists made,
     createLayer cleaned = Return made /\
     (strictEq false newType (VStr "Circle") = true ->
      createLayer cleaned =
        (radius ← getProp properties "radius";
         _ ← L_circle newCoordinates radius; Return true)) /\
     (strictEq false newType (VStr "Circle") = false ->
      strictEq false newType (VStr "Point") = false ->
      createLayer cleaned =
        L_geoJSON_first (VObj [("type", VStr "Feature");
                               ("geometry", newGeometry);
                               ("properties", properties)])) /\
     if made : bool then
       opsFor k ops = [Destroy k; Create k; Style k] /\
       exists l', lm' !! k = Some l' /\ styledFor (Layer cleaned) l' cleaned
     else
       opsFor k ops = [Destroy k] /\ lm' !! k = None) /\
  (JSON_stringify_differs oldCoordinates newCoordinates = false ->
   opsFor k ops = [Style k] /\
   exists l', lm' !! k = Some l' /\ styledFor tracked l' cleaned).
Proof.
  intros Hid Hstr _ Hclean Hcid Hck Hothers Hlm Hog Htruthy Hot Hoc Hng Hnt Hnc Hprops
    Hsame Hsync.
  pose proof (toStringMethod_key id k Hstr) as Hk.
  apply Forall_app in Hothers as [Hpre Hpost].
  unfold syncShapes in Hsync.
  destruct (mapR _ (pre ++ feature :: post)) as [ids|] eqn:Hids; [|discriminate].
  rewrite bind_Return in Hsync.
  assert (Hin : k ∈ ids).
  { eapply (mapR_elem _ _ ids feature k Hids).
    - apply elem_of_app. right. by left.
    - by rewrite Hid, bind_Return. }
  destruct (removeStale_kept k ids lm Hin) as [Hlm0 Hops0].
  destruct (removeStale ids lm) as [lm0 ops0]. simpl in Hlm0, Hops0.
  rewrite foldR_app in Hsync.
  destruct (foldR syncFeature pre (lm0, ops0)) as [[lm1 ops1]|] eqn:Hfold1; [|discriminate].
  rewrite bind_Return, foldR_cons in Hsync.
  destruct (syncFeature (lm1, ops1) feature) as [[lm2 ops2]|] eqn:Hstep; [|discriminate].
  rewrite bind_Return in Hsync.
  destruct (foldR_others k pre _ _ _ _ Hpre Hfold1) as [Hlm1 Hops1].
  destruct (foldR_others k post _ _ _ _ Hpost Hsync) as [-> ->].
  rewrite Hlm0, Hlm in Hlm1. rewrite Hops0 in Hops1.
  apply syncFeature_inv in Hstep as (id' & c & recreate & Hid' & Hc & Hrec & Hcase).
  rewrite Hid in Hid'. injection Hid' as <-.
  rewrite Hclean in Hc. injection Hc as <-.
  rewrite Hk, Hlm1 in Hrec.
  rewrite (shouldRecreateLayer_same_type tracked cleaned _ _ _ _ _ _
             Hog Htruthy Hot Hoc Hng Hnt Hnc Hsame) in Hrec.
  injection Hrec as Hrec. rewrite Hk in Hcase.
  assert (Htfs : exists tfs, layer_feature tracked = VObj tfs).
  { destruct (layer_feature tracked); simpl in Hog; try discriminate; eauto;
      injection Hog as <-; discriminate. }
  assert (Hcfs : exists cfs, cleaned = VObj cfs).
  { destruct (ensurePolygonClosedAndClean_cases _ _ Hclean)
      as (fs2 & _ & _ & _ & [[-> _] | (gs & cs & _ & _ & [[_ ->] | (_ & r & r' & _ & _ & ->)])]);
      eauto. }
  split; intros Hdiff; rewrite Hdiff in Hrec; subst recreate.
  - destruct Hcase as (made & Hmade & Hcase). exists made. split; [done|].
    destruct (createLayer_factory cleaned newGeometry newType newCoordinates properties
                Hng Hnt Hnc Hprops) as [Hcircle Hother].
    split; [done|]. split; [done|].
    unfold afterTeardown in Hcase. rewrite Hlm1 in Hcase. simpl in Hcase.
    destruct made.
    + destruct Hcase as (cid' & Hcid' & Happly).
      rewrite Hcid in Hcid'. injection Hcid' as <-. rewrite Hck in Happly.
      destruct (applyCurrentStyles_restyle cleaned cid (Layer cleaned) _ _ _ _ Happly Hcid)
        as (l' & Hre & -> & ->).
      { rewrite Hck. apply lookup_insert_eq. }
      rewrite Hck. split.
      * rewrite !opsFor_app, Hops1. by rewrite !opsFor_self.
      * exists l'. split; [apply lookup_insert_eq|].
        destruct Hcfs as [cfs ->]. by eapply restyle_styledFor.
    + injection Hcase as -> ->. split.
      * by rewrite opsFor_app, Hops1, opsFor_self.
      * apply lookup_delete_eq.
  - destruct (applyCurrentStyles_restyle cleaned cid tracked _ _ _ _ Hcase Hcid)
      as (l' & Hre & -> & ->).
    { by rewrite Hck. }
    rewrite Hck. split.
    + by rewrite opsFor_app, Hops1, opsFor_self.
    + exists l'. split; [apply lookup_insert_eq|].
      destruct Htfs as [tfs Htfs]. by eapply restyle_styledFor.
Qed.

End SyncTheorems.

(* ===================================================================== *)
(** * More on the feature store *)
(* ===================================================================== *)

Section Equality.

Lemma SFeqb_true (a b : spec_float) :
  SFeqb a b = true ->
  a = b \/ exists s s', a = S754_zero s /\ b = S754_zero s'.
Proof.
  unfold SFeqb.
  destruct a as [s| s | |s m e], b as [s'|s'| |s' m' e']; simpl; try discriminate;
    try (right; eauto; fail); try (destruct s, s'; (discriminate || by left)).
  change (PosDef.Pos.compare_cont Eq m m') with (Pos.compare m m').
  destruct s, s'; try discriminate;
    destruct (Z.compare_spec e e') as [->| |]; try discriminate;
    destruct (Pos.compare_spec m m') as [->| |]; try discriminate; by left.
Qed.

Lemma float_eqb_trans (x y z : num) :
  PrimFloat.eqb x y = true -> PrimFloat.eqb z x = PrimFloat.eqb z y.
Proof.
  rewrite !FloatAxioms.eqb_spec. intros [-> | (s & s' & -> & ->)]%SFeqb_true; [done|].
  unfold SFeqb. by destruct (Prim2SF z).
Qed.

Lemma float_eqb_sym (x y : num) : PrimFloat.eqb x y = PrimFloat.eqb y x.
Proof.
  rewrite !FloatAxioms.eqb_spec. unfold SFeqb.
  destruct (Prim2SF x) as [s| s | |s m e], (Prim2SF y) as [s'|s'| |s' m' e']; simpl; try done;
    try (by destruct s, s').
  change (PosDef.Pos.compare_cont Eq m m') with (Pos.compare m m').
  change (PosDef.Pos.compare_cont Eq m' m) with (Pos.compare m' m).
  rewrite (Z.compare_antisym e e'), (Pos.compare_antisym m m').
  destruct s, s'; try done; destruct (e ?= e')%Z; simpl; try done;
    by destruct (m ?= m')%positive.
Qed.

(** [===] between distinct objects is symmetric, and compatible with
    itself: what equals [a] compares like [a]. *)
Lemma strictEq_sym (a b : value) : strictEq false a b = strictEq false b a.
Proof.
  destruct a, b; simpl; try done.
  - by destruct b, b0.
  - apply float_eqb_sym.
  - apply String.eqb_sym.
Qed.

Lemma strictEq_trans (a b c : value) :
  strictEq false a b = true -> strictEq false c a = strictEq false c b.
Proof.
  destruct a, b; simpl; try discriminate; intros Hab; destruct c; simpl; try done.
  - apply Bool.eqb_prop in Hab. by subst.
  - by apply float_eqb_trans.
  - apply String.eqb_eq in Hab. by subst.
Qed.

End Equality.

Section StoreLemmas.

Lemma findIndex_Some_inv (p : value -> result bool) (l : list value) (i : nat) :
  findIndex p l = Return (Some i) ->
  exists x, l !! i = Some x /\ p x = Return true /\
            forall j y, j < i -> l !! j = Some y -> p y = Return false.
Proof.
  revert i. induction l as [|y l IH]; intros i; simpl; [discriminate|].
  destruct (p y) as [[|]|e] eqn:Hy; simpl; try discriminate.
  - intros [= <-]. exists y. split; [done|]. split; [done|]. intros j z Hj. lia.
  - destruct (findIndex p l) as [[k|]|e]; simpl; try discriminate.
    intros [= <-]. destruct (IH k eq_refl) as (x & Hx & Hpx & Hbefore).
    exists x. split; [done|]. split; [done|].
    intros [|j] z Hj Hz; simpl in Hz.
    + by injection Hz as <-.
    + apply (Hbefore j); [lia | done].
Qed.

Lemma findIndex_None_inv (p : value -> result bool) (l : list value) :
  findIndex p l = Return None -> forall y, y ∈ l -> p y = Return false.
Proof.
  induction l as [|x l IH]; simpl; intros Hf y Hy; [by apply elem_of_nil in Hy|].
  destruct (p x) as [[|]|e] eqn:Hx; simpl in Hf; try discriminate.
  destruct (findIndex p l) as [[k|]|e]; simpl in Hf; try discriminate.
  apply elem_of_cons in Hy as [-> | Hy]; [done | by apply IH].
Qed.

(** What [filter] with a callback that may throw returns, when it
    returns. *)
Lemma filterR_spec (p : value -> result bool) (l l' : list value) :
  filterR p l = Return l' ->
  sublist l' l /\ (forall s, s ∈ l' <-> s ∈ l /\ p s = Return true) /\
  Forall (fun s => exists b, p s = Return b) l.
Proof.
  revert l'. induction l as [|x l IH]; simpl; intros l'.
  - intros [= <-]. split; [constructor|]. split; [|constructor].
    intros s. split; [by intros ?%elem_of_nil | by intros [?%elem_of_nil _]].
  - destruct (p x) as [b|] eqn:Hx; simpl; [|discriminate].
    destruct (filterR p l) as [ys|]; simpl; [|discriminate].
    destruct (IH ys eq_refl) as (Hsub & Hmem & Hall).
    intros [= <-]. split; [|split].
    + destruct b; by constructor.
    + intros s. destruct b.
      * rewrite !elem_of_cons, Hmem. split.
        -- intros [-> | [Hs Hp]]; [split; [by left | done] | split; [by right | done]].
        -- intros [[-> | Hs] Hp]; [by left | by right].
      * rewrite Hmem, elem_of_cons. split.
        -- intros [Hs Hp]. split; [by right | done].
        -- intros [[-> | Hs] Hp]; [congruence | done].
    + constructor; eauto.
Qed.


Lemma filterR_idem (p : value -> result bool) (l l' : list value) :
  filterR p l = Return l' -> filterR p l' = Return l'.
Proof.
  revert l'. induction l as [|x l IH]; simpl; intros l'; [by intros [= <-]|].
  destruct (p x) as [b|] eqn:Hx; simpl; [|discriminate].
  destruct (filterR p l) as [ys|]; simpl; [|discriminate].
  intros [= <-]. destruct b; simpl; rewrite ?Hx, ?(IH ys eq_refl); done.
Qed.

End StoreLemmas.

Section StoreMore.
Context {E : Engine}.


(** What the store update handed to [setShapes] returns, when it returns. *)
Lemma upsert_cases (type key data : value) (prev next : store) :
  upsert type key data prev = Return next ->
  (next = prev /\ type = VStr "add" /\ exists i, findIndex (hasId key) prev = Return (Some i)) \/
  (next = prev ++ [data] /\ forall s, s ∈ prev -> hasId key s = Return false) \/
  (type <> VStr "add" /\
   exists i x, prev !! i = Some x /\ hasId key x = Return true /\
               (forall j y, j < i -> prev !! j = Some y -> hasId key y = Return false) /\
               next = <[i := withId data key]> prev).
Proof.
  unfold upsert.
  destruct (findIndex (hasId key) prev) as [[i|]|e] eqn:Hfind; simpl; [| |discriminate].
  - destruct (strictEq false type (VStr "add")) eqn:Hty.
    + apply strictEq_VStr in Hty. intros [= <-]. left. eauto.
    + intros [= <-]. right. right. split.
      { intros ->. discriminate Hty. }
      apply findIndex_Some_inv in Hfind as (x & Hx & Hpx & Hbefore).
      exists i, x. by rewrite imap_replace.
  - intros Hnext. right. left. split.
    + destruct (strictEq false type (VStr "add")); by injection Hnext.
    + by apply findIndex_None_inv.
Qed.

(** Every way the subscription callback can leave the store. *)
Lemma onMessage_cases (message : value) (prev : store) :
  onMessage message prev = prev \/
  (exists type data key,
      (type = VStr "add" \/ type = VStr "modify") /\
      getProp message "type" = Return type /\
      payload message = Return data /\
      accepted data = Return true /\
      envelopeKey message data = Return key /\
      upsert type key data prev = Return (onMessage message prev)) \/
  (exists mid,
      getProp message "type" = Return (VStr "remove") /\
      getProp message "id" = Return mid /\
      filterR (fun shape => sid ← getProp shape "id";
                            Return (negb (strictEq false sid mid))) prev
        = Return (onMessage message prev)) \/
  (getProp message "type" = Return (VStr "bulkAdd") /\
   onMessage message prev = processBulkAddPacket message prev).
Proof.
  unfold onMessage, handleIncomingMessage.
  destruct (getProp message "type") as [type|] eqn:Ht; simpl; [|by left].
  destruct (strictEq false type (VStr "add") || strictEq false type (VStr "modify")) eqn:Hty.
  - assert (Htype : type = VStr "add" \/ type = VStr "modify").
    { apply orb_true_iff in Hty as [H|H]; apply strictEq_VStr in H; auto. }
    destruct (payload message) as [data|] eqn:Hp; simpl; [|by left].
    destruct (accepted data) as [[|]|] eqn:Hok; simpl; [| by left..].
    destruct (envelopeKey message data) as [key|] eqn:Hk; simpl; [|by left].
    destruct (upsert type key data prev) as [next|] eqn:Hup; [|by left].
    right. left. exists type, data, key. by rewrite Hup.
  - destruct (strictEq false type (VStr "remove")) eqn:Hrm.
    + apply strictEq_VStr in Hrm as ->.
      destruct (getProp message "id") as [mid|] eqn:Hmid; simpl; [|by left].
      destruct (filterR _ prev) as [next|] eqn:Hf; [|by left].
      right. right. left. exists mid. by rewrite Hf.
    + destruct (strictEq false type (VStr "bulkAdd")) eqn:Hb; [|by left].
      apply strictEq_VStr in Hb as ->. right. right. by right.
Qed.


End StoreMore.

Section StoreInvariants.
Context {E : Engine}.

Lemma accepted_object (data : value) :
  accepted data = Return true -> exists fs, data = VObj fs.
Proof.
  unfold accepted. destruct data; eauto; simpl; try discriminate;
    repeat case_match; discriminate.
Qed.

Lemma bulkAdd_any_store (message : value) (prev prev' : store) :
  processBulkAddPacket message prev = prev \/
  processBulkAddPacket message prev' = processBulkAddPacket message prev.
Proof.
  unfold processBulkAddPacket.
  destruct (truthy message); [|by left].
  destruct (getProp message "type") as [t|]; [|by left].
  destruct (getProp message "data") as [[| | | | |data|]|]; try by left.
  destruct (strictEq false t (VStr "bulkAdd")); [by right | by left].
Qed.

Lemma onMessage_upsert (message type data key : value) (prev : store) :
  type = VStr "add" \/ type = VStr "modify" ->
  getProp message "type" = Return type ->
  payload message = Return data ->
  accepted data = Return true ->
  envelopeKey message data = Return key ->
  onMessage message prev =
    match upsert type key data prev with Return next => next | Throw _ => prev end.
Proof.
  intros Hty Ht Hp Hok Hk. unfold onMessage.
  rewrite (handleIncomingMessage_upsert message type data prev Ht Hty Hp), Hok.
  simpl. by rewrite Hk.
Qed.

(** X2: delivery twice.  For an envelope keyed by the id its own feature
    carries (a string, a boolean, [null] or a number other than NaN), and
    for every [remove], [bulkAdd] and unknown message, handling the message
    a second time changes nothing: the store after two deliveries is the
    store after one. *)
Theorem onMessage_twice (message : value) (prev : store) :
  (forall type data key,
      getProp message "type" = Return type ->
      type = VStr "add" \/ type = VStr "modify" ->
      payload message = Return data ->
      envelopeKey message data = Return key ->
      getProp data "id" = Return key /\ key <> VUndefined /\
      strictEq false key key = true) ->
  onMessage message (onMessage message prev) = onMessage message prev.
Proof.
  intros Hkeyed.
  destruct (onMessage_cases message prev)
    as [Hsame | [(type & data & key & Hty & Ht & Hp & Hok & Hk & Hup)
                | [(mid & Ht & Hmid & Hf) | [Ht Hbulk]]]].
  - by rewrite !Hsame.
  - destruct (Hkeyed type data key Ht Hty Hp Hk) as (Hdid & Hdef & Hrefl).
    destruct (accepted_object data Hok) as [fs ->].
    assert (Hown : hasId key (VObj fs) = Return true).
    { unfold hasId. by rewrite Hdid, bind_Return, Hrefl. }
    assert (Hwith : withId (VObj fs) key = VObj fs).
    { unfold withId. simpl. rewrite obj_set_same; [done|].
      simpl in Hdid. injection Hdid as Hdid.
      destruct (assoc "id" fs); simpl in Hdid; congruence. }
    rewrite (onMessage_upsert message type (VObj fs) key _ Hty Ht Hp Hok Hk).
    apply upsert_cases in Hup
      as [(-> & -> & i & Hfind) | [[-> Hnone] | (Hne & i & x & Hx & Hpx & Hbefore & ->)]].
    + unfold upsert. by rewrite Hfind.
    + assert (Hfind : findIndex (hasId key) (prev ++ [VObj fs]) = Return (Some (length prev))).
      { apply (findIndex_first _ _ _ (VObj fs)); [by apply list_lookup_middle | done |].
        intros j y Hj Hy. rewrite lookup_app_l in Hy by done.
        apply Hnone. by eapply list_elem_of_lookup_2. }
      unfold upsert. rewrite Hfind, bind_Return.
      destruct (strictEq false type (VStr "add")); [done|].
      rewrite imap_replace, Hwith. apply list_insert_id. by apply list_lookup_middle.
    + assert (Hfind : findIndex (hasId key) (<[i := withId (VObj fs) key]> prev)
                      = Return (Some i)).
      { apply (findIndex_first _ _ _ (withId (VObj fs) key)).
        - apply list_lookup_insert_eq. by eapply lookup_lt_Some.
        - by rewrite Hwith.
        - intros j y Hj Hy. unfold store in *.
          rewrite list_lookup_insert_ne in Hy by lia. by eapply Hbefore. }
      unfold upsert. rewrite Hfind, bind_Return.
      destruct (strictEq false type (VStr "add")) eqn:Hadd.
      { apply strictEq_VStr in Hadd. done. }
      rewrite imap_replace. unfold store in *. by rewrite list_insert_insert_eq.
  - unfold onMessage at 1. unfold handleIncomingMessage.
    rewrite Ht, bind_Return.
    change (strictEq false (VStr "remove") (VStr "add") ||
            strictEq false (VStr "remove") (VStr "modify")) with false.
    change (strictEq false (VStr "remove") (VStr "remove")) with true. cbv iota.
    rewrite Hmid, bind_Return. by rewrite (filterR_idem _ _ _ Hf).
  - rewrite Hbulk. unfold onMessage at 1. unfold handleIncomingMessage.
    rewrite Ht, bind_Return.
    change (strictEq false (VStr "bulkAdd") (VStr "add") ||
            strictEq false (VStr "bulkAdd") (VStr "modify")) with false.
    change (strictEq false (VStr "bulkAdd") (VStr "remove")) with false.
    change (strictEq false (VStr "bulkAdd") (VStr "bulkAdd")) with true. cbv iota.
    destruct (bulkAdd_any_store message prev (processBulkAddPacket message prev))
      as [Hp | Hp]; [by rewrite !Hp | exact Hp].
Qed.

Lemma sameId_sym (a b : value) : sameId a b = sameId b a.
Proof.
  unfold sameId. destruct (getProp a "id"), (getProp b "id"); try done.
  apply strictEq_sym.
Qed.

(** Two features whose ids are equal compare alike with any third. *)
Lemma sameId_compat (x y t : value) (xid yid : value) :
  getProp x "id" = Return xid -> getProp y "id" = Return yid ->
  strictEq false xid yid = true -> sameId t x = sameId t y.
Proof.
  intros Hx Hy Heq. unfold sameId. rewrite Hx, Hy.
  destruct (getProp t "id") as [tid|]; [|done]. by apply strictEq_trans.
Qed.

Lemma distinctIds_lookup (l : list value) :
  distinctIds l = true <->
  forall i j a b, i < j -> l !! i = Some a -> l !! j = Some b -> sameId a b = false.
Proof.
  induction l as [|s r IH]; simpl.
  - split; [intros _ i j a b _ Hi; done | done].
  - rewrite andb_true_iff, forallb_forall, IH. split.
    + intros [Hs Hr] [|i] [|j] a b Hij Ha Hb; simpl in *; try lia.
      * injection Ha as <-. apply negb_true_iff, Hs, list_elem_of_In.
        by eapply list_elem_of_lookup_2.
      * apply (Hr i j); [lia | done..].
    + intros Hall. split.
      * intros t Ht. apply list_elem_of_In, list_elem_of_lookup in Ht as [j Hj].
        apply negb_true_iff. by apply (Hall 0 (S j)); [lia | |].
      * intros i j a b Hij Ha Hb. by apply (Hall (S i) (S j)); [lia | |].
Qed.

Lemma distinctIds_sublist (l l' : list value) :
  sublist l' l -> distinctIds l = true -> distinctIds l' = true.
Proof.
  induction 1 as [|x l1 l2 Hsub IH|x l1 l2 Hsub IH]; simpl; [done| |].
  - intros [Hx Hr]%andb_true_iff. rewrite IH by done. rewrite andb_true_r.
    rewrite forallb_forall in Hx. apply forallb_forall. intros t Ht. apply Hx.
    apply list_elem_of_In. apply list_elem_of_In in Ht. by eapply elem_of_sublist.
  - intros [_ Hr]%andb_true_iff. by apply IH.
Qed.

Lemma distinctIds_snoc (l : list value) (d : value) :
  distinctIds l = true -> (forall s, s ∈ l -> sameId s d = false) ->
  distinctIds (l ++ [d]) = true.
Proof.
  rewrite !distinctIds_lookup. intros Hl Hd i j a b Hij Ha Hb.
  destruct (decide (j < length l)) as [Hj | Hj].
  - rewrite lookup_app_l in Ha, Hb by lia. by apply (Hl i j).
  - pose proof (lookup_lt_Some _ _ _ Hb) as Hlt. rewrite length_app in Hlt. simpl in Hlt.
    assert (j = length l) as -> by lia.
    rewrite list_lookup_middle in Hb by done. injection Hb as <-.
    rewrite lookup_app_l in Ha by lia. apply Hd. by eapply list_elem_of_lookup_2.
Qed.

Lemma distinctIds_replace (l : list value) (i : nat) (x y : value) :
  distinctIds l = true -> l !! i = Some x ->
  (forall t, sameId t y = sameId t x) ->
  distinctIds (<[i := y]> l) = true.
Proof.
  rewrite !distinctIds_lookup. intros Hl Hx Hy i1 j1 a b Hij Ha Hb.
  pose proof (lookup_lt_Some _ _ _ Hx) as Hi.
  destruct (decide (i1 = i)) as [-> | Hi1]; destruct (decide (j1 = i)) as [-> | Hj1]; try lia.
  - rewrite list_lookup_insert_eq in Ha by done. injection Ha as <-.
    rewrite list_lookup_insert_ne in Hb by done.
    rewrite sameId_sym, Hy, sameId_sym. by apply (Hl i j1).
  - rewrite list_lookup_insert_eq in Hb by done. injection Hb as <-.
    rewrite list_lookup_insert_ne in Ha by done.
    rewrite Hy. by apply (Hl i1 i).
  - rewrite list_lookup_insert_ne in Ha, Hb by done. by apply (Hl i1 j1).
Qed.

(** X3: ids stay distinct.  When the envelope carries no id of its own, or
    the id of the feature it carries, handling an [add], [modify], [remove]
    or unknown message keeps the ids of the stored features pairwise
    distinct. *)
Theorem onMessage_keeps_ids_distinct (message : value) (prev : store) :
  getProp message "type" <> Return (VStr "bulkAdd") ->
  (forall data mid did,
      payload message = Return data ->
      getProp message "id" = Return mid -> truthy mid = true ->
      getProp data "id" = Return did ->
      strictEq false mid did = true) ->
  distinctIds prev = true ->
  distinctIds (onMessage message prev) = true.
Proof.
  intros Hnot Henv Hprev.
  destruct (onMessage_cases message prev)
    as [-> | [(type & data & key & Hty & Ht & Hp & Hok & Hk & Hup)
             | [(mid & Ht & Hmid & Hf) | [Ht _]]]]; [done | | | done].
  - destruct (accepted_object data Hok) as [fs ->].
    set (did := default VUndefined (assoc "id" fs)).
    assert (Hdid : getProp (VObj fs) "id" = Return did) by done.
    (* the key compares like the feature's own id *)
    assert (Hkey : forall c, strictEq false c key = strictEq false c did).
    { unfold envelopeKey in Hk.
      destruct (getProp message "id") as [mid|] eqn:Hmid; [|discriminate].
      rewrite bind_Return in Hk. destruct (truthy mid) eqn:Htr.
      - injection Hk as <-. intros c. apply strictEq_trans. by eapply Henv.
      - rewrite Hdid in Hk. by injection Hk as <-. }
    remember (onMessage message prev) as next eqn:Hnext. clear Hnext.
    apply upsert_cases in Hup
      as [(-> & _) | [[-> Hnone] | (_ & i & x & Hx & Hpx & Hbefore & ->)]]; [done | |].
    + apply distinctIds_snoc; [done|]. intros s Hs. specialize (Hnone s Hs).
      unfold hasId in Hnone. unfold sameId. rewrite Hdid.
      destruct (getProp s "id") as [sid|]; [|done].
      rewrite bind_Return in Hnone. injection Hnone as Hnone. by rewrite <- Hkey.
    + apply (distinctIds_replace prev i x); [done..|].
      unfold hasId in Hpx.
      destruct (getProp x "id") as [xid|] eqn:Hxid; [|discriminate].
      rewrite bind_Return in Hpx. injection Hpx as Hpx.
      intros t. symmetry.
      apply (sameId_compat x (withId (VObj fs) key) t xid key); [done | | done].
      unfold withId. simpl. by rewrite assoc_obj_set_eq.
  - destruct (filterR_spec _ _ _ Hf) as (Hsub & _). by eapply distinctIds_sublist.
Qed.

End StoreInvariants.

(* ===================================================================== *)
(** * More on the statistics *)
(* ===================================================================== *)

Section StatsMore.
Context {E : Engine}.

Lemma length_reduce (path : list vertex) :
  reduce (lengthStep (vertexValue <$> path)) (vertexValue <$> path) 0%float =
    Return (lineLength path).
Proof.
  unfold reduce, lineLength, segments.
  destruct path as [|p0 rest]; [done|].
  change (reduce_from ?f (vertexValue <$> p0 :: rest) 0 0%float)
    with (reduce_from f (vertexValue <$> rest) 1 0%float).
  apply reduce_from_pointwise.
  - rewrite length_fmap, length_zip_with, length_cons. simpl tail. lia.
  - intros j x [p q] s Hx Ht.
    rewrite list_lookup_fmap in Hx.
    destruct (rest !! j) as [q'|] eqn:Hq; [|discriminate]. injection Hx as <-.
    apply lookup_zip_with_Some in Ht as (p' & q'' & [= <- <-] & Hp & Hq').
    simpl in Hq'. rewrite Hq in Hq'. injection Hq' as <-.
    unfold lengthStep. rewrite destructure2_vertex, bind_Return.
    change (1 + j) with (S j). cbv iota. unfold elem.
    by rewrite list_lookup_fmap, Hp.
Qed.

(** X4: LineString.  For a LineString whose coordinates are numeric
    vertices the statistics carry, as the length, the sum of the Euclidean
    distances between successive vertices divided by 10^3: nothing joins
    the last vertex to the first, and a path of fewer than two vertices has
    length 0. *)
Theorem getShapeStats_lineString_length
    (shape geometry properties ptype pcolor : value) (path : list vertex) :
  getProp shape "geometry" = Return geometry ->
  getProp shape "properties" = Return properties ->
  getProp properties "type" = Return ptype ->
  getProp properties "color" = Return pcolor ->
  getProp geometry "type" = Return (VStr "LineString") ->
  getProp geometry "coordinates" = Return (VArr (vertexValue <$> path)) ->
  getShapeStats shape =
    Return (VObj [("type", ptype); ("color", pcolor);
                  ("length", VNum (lineLength path / 1000)%float)]) /\
  (length path <= 1 -> lineLength path = 0%float).
Proof.
  intros Hg Hp Hpt Hpc Ht Hc. split.
  - destruct (getShapeStats_dispatch _ _ _ _ _ _ Hg Ht Hp Hpt Hpc) as [Hshape _].
    unfold getShapeStats. rewrite Hshape, Hg, Hp. simpl negb. cbv iota.
    rewrite !bind_Return, Hpt, bind_Return, Hpc, bind_Return, Ht, bind_Return.
    change (strictEq false (VStr "LineString") (VStr "Polygon")) with false.
    change (strictEq false (VStr "LineString") (VStr "LineString")) with true. cbv iota.
    rewrite Hc, bind_Return.
    change (asArray (VArr (vertexValue <$> path)))
      with (Return (A:=list value) (vertexValue <$> path)).
    by rewrite bind_Return, length_reduce, bind_Return.
  - destruct path as [|p [|q path]]; simpl; [done | done | intros Hlen; lia].
Qed.

End StatsMore.

(* ===================================================================== *)
(** * More on the validator *)
(* ===================================================================== *)

Section ValidatorMore.
Context {E : Engine}.

#[local] Arguments cleanCoordinatesRecursive : simpl never.

Lemma cleanCoordinatesRecursive_is_array (l : list value) :
  exists l', cleanCoordinatesRecursive (VArr l) = VArr l'.
Proof.
  rewrite cleanCoordinatesRecursive_array.
  destruct (looksLikePair l) eqn:Hl; [|eauto].
  apply looksLikePair_inv in Hl as (a & b & -> & _).
  destruct (cleanCoordinatePair_wellFormed a b) as (l' & -> & _). eauto.
Qed.

Lemma iterablePoint_clean (p : value) :
  iterablePoint p = true -> iterablePoint (cleanCoordinatesRecursive p) = true.
Proof.
  destruct p; try done. intros _.
  by destruct (cleanCoordinatesRecursive_is_array elems) as [l' ->].
Qed.

Lemma iterablePoint_total (p : value) (i : nat) :
  iterablePoint p = true ->
  (exists a, getIndex p i = Return a) /\ exists copy, iterate p = Return copy.
Proof. destruct p; try done; simpl; eauto. Qed.

(** The ring loop returns on a ring whose entries are arrays or strings. *)
Lemma closeRing_total (p : value) (r : list value) :
  forallb iterablePoint (p :: r) = true -> exists l', closeRing (p :: r) = Return l'.
Proof.
  intros Hall. unfold closeRing.
  set (l := p :: r) in *.
  assert (Hin : forall i, i < length l -> iterablePoint (elem l i) = true).
  { intros i Hi. unfold elem. destruct (lookup_lt_is_Some_2 l i Hi) as [x Hx].
    rewrite Hx. simpl. rewrite forallb_forall in Hall. apply Hall, list_elem_of_In.
    by eapply list_elem_of_lookup_2. }
  assert (Hfirst : iterablePoint (elem l 0) = true) by (apply Hin; simpl; lia).
  assert (Hlast : iterablePoint (elem l (length l - 1)) = true) by (apply Hin; simpl; lia).
  destruct (iterablePoint_total _ 0 Hfirst) as [[f0 ->] [copy ->]].
  destruct (iterablePoint_total _ 1 Hfirst) as [[f1 ->] _].
  destruct (iterablePoint_total _ 0 Hlast) as [[l0 ->] _].
  destruct (iterablePoint_total _ 1 Hlast) as [[l1 ->] _].
  rewrite !bind_Return.
  destruct (negb (strictEq _ f0 l0)); rewrite ?bind_Return; [eauto|].
  destruct (negb (strictEq _ f1 l1)); rewrite ?bind_Return; eauto.
Qed.

Lemma fixRing_total (ring : value) :
  ringOfPoints ring = true -> exists ring', fixRing ring = Return ring'.
Proof.
  destruct ring as [| | | | |[|p r]|]; simpl; eauto. intros Hall.
  destruct (closeRing_total p r Hall) as [l' ->]. simpl. eauto.
Qed.

Lemma mapR_total {A B} (f : A -> result B) (l : list A) :
  Forall (fun x => exists y, f x = Return y) l -> exists ys, mapR f l = Return ys.
Proof.
  induction 1 as [|x l [y Hy] _ [ys IH]]; simpl; [eauto|].
  rewrite Hy, IH. simpl. eauto.
Qed.

(** Cleaning keeps a ring of arrays and strings one, except that a ring of
    two numeric strings becomes a pair of numbers, on which the ring loop
    returns as well. *)
Lemma fixRing_clean_total (ring : value) :
  ringOfPoints ring = true ->
  exists ring', fixRing (cleanCoordinatesRecursive ring) = Return ring'.
Proof.
  destruct ring as [| | | | |ps|]; try (simpl; eauto; fail). intros Hall.
  rewrite cleanCoordinatesRecursive_array.
  destruct (looksLikePair ps) eqn:Hl.
  - apply looksLikePair_inv in Hl as (a & b & -> & _).
    rewrite cleanCoordinatePair_two. case_match; simpl; eauto.
  - apply fixRing_total. simpl in *. apply forallb_forall. intros q Hq.
    apply in_map_iff in Hq as (p & <- & Hp). apply iterablePoint_clean.
    rewrite forallb_forall in Hall. by apply Hall.
Qed.

(** X5: where the validator returns.  On a feature whose deep copy is an
    object, the validator returns whenever the geometry is not a Polygon,
    and for a Polygon whenever every entry of every ring is an array or a
    string (whatever their content): the only exception it can raise comes
    from a ring entry that is [null], a number, a boolean or an object. *)
Theorem ensurePolygonClosedAndClean_returns
    (geoJsonFeature : value) (fs : list (string * value)) :
  JSON_clone geoJsonFeature = Return (VObj fs) ->
  (forall gs rings,
      assoc "geometry" fs = Some (VObj gs) ->
      assoc "type" gs = Some (VStr "Polygon") ->
      assoc "coordinates" gs = Some (VArr rings) ->
      forallb ringOfPoints rings = true) ->
  exists result, ensurePolygonClosedAndClean geoJsonFeature = Return result.
Proof.
  intros Hclone Hpoints. unfold ensurePolygonClosedAndClean.
  rewrite Hclone, bind_Return.
  set (fs1 := if truthy (default VUndefined (assoc "properties" fs)) then fs
              else obj_set "properties" (VObj []) fs).
  assert (Hg1 : assoc "geometry" fs1 = assoc "geometry" fs).
  { unfold fs1. case_match; [done|]. by apply assoc_obj_set_ne. }
  clearbody fs1.
  set (fs2 := if truthy (default VUndefined (assoc "geometry" fs1)) then fs1
              else obj_set "geometry" emptyGeometry fs1).
  assert (Hg2 : assoc "geometry" fs2 = assoc "geometry" fs \/
                assoc "geometry" fs2 = Some emptyGeometry).
  { unfold fs2. case_match; [by left | right; apply assoc_obj_set_eq]. }
  assert (Htruthy : truthy (default VUndefined (assoc "geometry" fs2)) = true).
  { unfold fs2. case_match; [done|]. by rewrite assoc_obj_set_eq. }
  clearbody fs2. cbv zeta.
  destruct (assoc "geometry" fs2) as [[| | | | | |gs]|] eqn:Hgs; simpl; eauto;
    try discriminate.
  destruct (assoc "coordinates" gs) as [[| | | | |cs|]|] eqn:Hcs; simpl; eauto.
  rewrite assoc_obj_set_ne by done.
  destruct (strictEq false _ (VStr "Polygon")) eqn:Hty; [|eauto].
  apply strictEq_VStr in Hty.
  assert (Hrings : forallb ringOfPoints cs = true).
  { destruct Hg2 as [Hg2 | [= ->]]; [|discriminate Hty].
    apply (Hpoints gs cs); [congruence | | done].
    destruct (assoc "type" gs); simpl in Hty; congruence. }
  assert (exists rings', cleanCoordinatesRecursive (VArr cs) = VArr rings' /\
                         exists fixed, mapR fixRing rings' = Return fixed)
    as (rings' & -> & fixed & ->); [|simpl; eauto].
  rewrite cleanCoordinatesRecursive_array.
  destruct (looksLikePair cs) eqn:Hl.
  - apply looksLikePair_inv in Hl as (a & b & -> & _).
    rewrite cleanCoordinatePair_two. case_match; eexists; (split; [reflexivity|]);
      simpl; eauto.
  - eexists. split; [reflexivity|]. apply mapR_total.
    apply Forall_forall. intros ring Hring.
    apply list_elem_of_In, in_map_iff in Hring as (c & <- & Hc).
    apply fixRing_clean_total. rewrite forallb_forall in Hrings. by apply Hrings.
Qed.

(** What the validator does to the members of the deep copy. *)
Lemma ensurePolygonClosedAndClean_members (geoJsonFeature copy result : value) :
  JSON_clone geoJsonFeature = Return copy ->
  ensurePolygonClosedAndClean geoJsonFeature = Return result ->
  (forall k, k <> "geometry" -> k <> "properties" ->
             getProp result k = getProp copy k) /\
  (forall p, getProp copy "properties" = Return p ->
             getProp result "properties" = Return (if truthy p then p else VObj [])) /\
  (forall g, getProp copy "geometry" = Return g ->
             if truthy g
             then exists g', getProp result "geometry" = Return g' /\ truthy g' = true /\
                             forall k, k <> "coordinates" -> getProp g' k = getProp g k
             else getProp result "geometry" = Return emptyGeometry).
Proof.
  intros Hclone. unfold ensurePolygonClosedAndClean. rewrite Hclone, bind_Return.
  destruct copy as [| | | | | |fs]; try discriminate.
  set (fs1 := if truthy (default VUndefined (assoc "properties" fs)) then fs
              else obj_set "properties" (VObj []) fs).
  set (fs2 := if truthy (default VUndefined (assoc "geometry" fs1)) then fs1
              else obj_set "geometry" emptyGeometry fs1).
  cbv zeta.
  assert (H1 : forall k, k <> "properties" -> assoc k fs1 = assoc k fs).
  { intros k Hk. unfold fs1. case_match; [done|]. by apply assoc_obj_set_ne. }
  assert (Hp1 : default VUndefined (assoc "properties" fs1) =
                let p := default VUndefined (assoc "properties" fs) in
                if truthy p then p else VObj []).
  { unfold fs1. cbv zeta. case_match; [done|]. by rewrite assoc_obj_set_eq. }
  assert (H2 : forall k, k <> "geometry" -> assoc k fs2 = assoc k fs1).
  { intros k Hk. unfold fs2. case_match; [done|]. by apply assoc_obj_set_ne. }
  assert (Hg2 : assoc "geometry" fs2 =
                let g := default VUndefined (assoc "geometry" fs) in
                if truthy g then assoc "geometry" fs else Some emptyGeometry).
  { unfold fs2. cbv zeta. rewrite (H1 "geometry") by done.
    case_match; [by apply H1 | by rewrite assoc_obj_set_eq]. }
  clearbody fs2. clearbody fs1.
  (* whatever the branch, the result is [fs2] with its geometry replaced by
     one that differs at most in [coordinates] *)
  assert (Hshape : forall res,
            res = VObj fs2 \/
            (exists gs gs', assoc "geometry" fs2 = Some (VObj gs) /\
                            res = VObj (obj_set "geometry" (VObj gs') fs2) /\
                            (forall k, k <> "coordinates" -> assoc k gs' = assoc k gs) /\
                            (VObj gs = emptyGeometry -> gs' = gs)) ->
            (truthy (default VUndefined (assoc "geometry" fs2)) = true) ->
            (forall k, k <> "geometry" -> k <> "properties" ->
                       getProp res k = getProp (VObj fs) k) /\
            (forall p, getProp (VObj fs) "properties" = Return p ->
                       getProp res "properties" = Return (if truthy p then p else VObj [])) /\
            (forall g, getProp (VObj fs) "geometry" = Return g ->
                       if truthy g
                       then exists g', getProp res "geometry" = Return g' /\ truthy g' = true /\
                                       forall k, k <> "coordinates" -> getProp g' k = getProp g k
                       else getProp res "geometry" = Return emptyGeometry)).
  { intros res Hres Htruthy. split; [|split].
    - intros k Hkg Hkp.
      destruct Hres as [-> | (gs & gs' & _ & -> & _)]; rewrite !getProp_VObj;
        rewrite ?assoc_obj_set_ne by done; by rewrite H2, H1.
    - intros p [= Hp].
      assert (Hres' : getProp res "properties" =
                      Return (default VUndefined (assoc "properties" fs1))).
      { destruct Hres as [-> | (gs & gs' & _ & -> & _)]; rewrite !getProp_VObj;
          rewrite ?assoc_obj_set_ne by done; by rewrite H2. }
      rewrite Hres', Hp1. cbv zeta. by rewrite Hp.
    - intros g [= Hg]. cbv zeta in Hg2. rewrite Hg in Hg2.
      destruct (truthy g) eqn:Htr.
      + destruct Hres as [-> | (gs & gs' & Hgs & -> & Hsame & _)].
        * exists g. rewrite getProp_VObj, Hg2, Hg. by rewrite Htr.
        * exists (VObj gs'). rewrite getProp_VObj, assoc_obj_set_eq.
          split; [done|]. split; [done|].
          intros k Hk. rewrite Hg2 in Hgs. rewrite Hgs in Hg. simpl in Hg. subst g.
          by rewrite !getProp_VObj, Hsame.
      + destruct Hres as [-> | (gs & gs' & Hgs & -> & _ & Hempty)].
        * by rewrite getProp_VObj, Hg2.
        * rewrite getProp_VObj, assoc_obj_set_eq.
          rewrite Hg2 in Hgs. injection Hgs as <-. by rewrite (Hempty eq_refl). }
  assert (Htruthy : truthy (default VUndefined (assoc "geometry" fs2)) = true).
  { rewrite Hg2. cbv zeta. case_match; [|done].
    by destruct (assoc "geometry" fs). }
  destruct (assoc "geometry" fs2) as [[| | | | | |gs]|] eqn:Hgs; simpl;
    try (intros [= <-]; apply Hshape; [by left | by rewrite ?Hgs]); try discriminate.
  destruct (assoc "coordinates" gs) as [[| | | | |cs|]|] eqn:Hcs; simpl;
    try (intros [= <-]; apply Hshape; [by left | by rewrite ?Hgs]).
  destruct (strictEq false _ (VStr "Polygon")) eqn:Hty.
  - destruct (cleanCoordinatesRecursive_is_array cs) as [rings ->].
    destruct (mapR fixRing rings) as [rings'|]; [|discriminate].
    simpl. intros [= <-]. apply Hshape; [|by rewrite ?Hgs]. right. eexists _, _.
    split; [done|]. split; [done|]. split.
    + intros k Hk. by rewrite !assoc_obj_set_ne.
    + intros [= ->]. discriminate Hty.
  - intros [= <-]. apply Hshape; [|by rewrite ?Hgs]. right. eexists _, _.
    split; [done|]. split; [done|]. split.
    + intros k Hk. by rewrite assoc_obj_set_ne.
    + intros [= ->]. injection Hcs as <-. reflexivity.
Qed.

(** X6: what the validator leaves alone.  Whatever the feature, the
    validator hands back every member of the deep copy other than the
    geometry's coordinates as it was: the id and every other top-level
    member, the properties when there are any ([{}] otherwise), and every
    member of the geometry but [coordinates]; a missing geometry becomes
    [{ type: null, coordinates: [] }]. *)
Theorem ensurePolygonClosedAndClean_keeps_members
    (geoJsonFeature copy result : value) :
  JSON_clone geoJsonFeature = Return copy ->
  ensurePolygonClosedAndClean geoJsonFeature = Return result ->
  (forall k, k <> "geometry" -> k <> "properties" ->
             getProp result k = getProp copy k) /\
  (forall p, getProp copy "properties" = Return p ->
             getProp result "properties" = Return (if truthy p then p else VObj [])) /\
  (forall g, getProp copy "geometry" = Return g ->
             if truthy g
             then exists g', getProp result "geometry" = Return g' /\ truthy g' = true /\
                             forall k, k <> "coordinates" -> getProp g' k = getProp g k
             else getProp result "geometry" = Return emptyGeometry).
Proof. apply ensurePolygonClosedAndClean_members. Qed.

End ValidatorMore.

(* ===================================================================== *)
(** * More on the layer synchronisation *)
(* ===================================================================== *)

Section Styling.
Context {E : Engine} {T : Toolkit}.

(** [{ ...a, ...b }] takes every member of [b] and keeps the members of
    [a] that [b] does not list. *)
Lemma merge_assoc (a b : list (string * value)) (k : string) :
  NoDup b.*1 ->
  assoc k (merge a b) = match assoc k b with Some v => Some v | None => assoc k a end.
Proof.
  unfold merge. revert a. induction b as [|[k' v] b IH]; intros a Hnd; simpl; [done|].
  apply NoDup_cons in Hnd as [Hk' Hnd]. rewrite (IH _ Hnd).
  destruct (String.eqb_spec k k') as [->|Hne].
  - assert (assoc k' b = None) as ->.
    { clear -Hk'. induction b as [|[k1 v1] b IH]; simpl; [done|].
      apply not_elem_of_cons in Hk' as [Hne Hk']. simpl in Hne.
      apply String.eqb_neq in Hne. rewrite Hne. by apply IH. }
    apply assoc_obj_set_eq.
  - destruct (assoc k b); [done|]. by apply assoc_obj_set_ne.
Qed.

(** What [restyle] hands back: the layer's feature with its [properties]
    replaced by the merge. *)
Lemma restyle_inv (l l' : layer) (shape : value) :
  restyle l shape = Return l' ->
  exists fs shapeProperties,
    (if truthy (layer_feature l) then layer_feature l
     else VObj [("properties", VObj [])]) = VObj fs /\
    getProp shape "properties" = Return shapeProperties /\
    let properties := default VUndefined (assoc "properties" fs) in
    let properties := if truthy properties then properties else VObj [] in
    layer_feature l' =
      VObj (obj_set "properties"
              (VObj (merge (spread properties) (spread shapeProperties))) fs).
Proof.
  unfold restyle.
  destruct (asObject _) as [fs|] eqn:Hfs; [|discriminate]. rewrite bind_Return.
  destruct (getProp shape "properties") as [sp|]; [|discriminate]. rewrite bind_Return.
  destruct (styleCallOf shape) as [call|]; [|discriminate]. rewrite bind_Return.
  destruct (popupCallOf _ shape) as [popup|]; [|discriminate]. rewrite bind_Return.
  destruct (L_restyle _ call popup); [|discriminate]. rewrite bind_Return.
  intros [= <-]. exists fs, sp. split; [|done].
  destruct (if truthy (layer_feature l) then _ else _); simpl in Hfs; congruence.
Qed.

(** The calls [restyle] makes: the branch and the popup are read off the
    shape, and Leaflet has taken them. *)
Lemma restyle_calls_made (l l' : layer) (shape : value) :
  restyle l shape = Return l' ->
  exists call popup properties geometry,
    styleCallOf shape = Return call /\
    getProp (layer_feature l') "properties" = Return properties /\
    popupCallOf properties shape = Return popup /\
    getProp (layer_feature l') "geometry" = Return geometry /\
    L_restyle geometry call popup = Return ().
Proof.
  unfold restyle.
  destruct (asObject _) as [fs|] eqn:Hfs; [|discriminate]. rewrite bind_Return.
  destruct (getProp shape "properties") as [sp|]; [|discriminate]. rewrite bind_Return.
  destruct (styleCallOf shape) as [call|]; [|discriminate]. rewrite bind_Return.
  destruct (popupCallOf _ shape) as [popup|] eqn:Hpopup; [|discriminate].
  rewrite bind_Return.
  destruct (L_restyle _ call popup) as [[]|] eqn:Hcall; [|discriminate].
  rewrite bind_Return. intros [= <-]. simpl.
  eexists call, popup, _, _. split; [done|].
  rewrite assoc_obj_set_eq. split; [done|]. split; [exact Hpopup|].
  rewrite assoc_obj_set_ne by done. split; [done | exact Hcall].
Qed.

(** X7: styling merges.  Styling a layer for a shape leaves every member of
    the layer's feature but [properties] as it was, and the new
    [properties] hold every property of the shape, plus the properties the
    layer had that the shape does not list. *)
Theorem restyle_merges_properties
    (l l' : layer) (shape : value) (fs old new : list (string * value)) :
  layer_feature l = VObj fs ->
  assoc "properties" fs = Some (VObj old) ->
  getProp shape "properties" = Return (VObj new) ->
  NoDup new.*1 ->
  restyle l shape = Return l' ->
  exists merged,
    getProp (layer_feature l') "properties" = Return (VObj merged) /\
    (forall k, assoc k merged =
               match assoc k new with Some v => Some v | None => assoc k old end) /\
    (forall k, k <> "properties" ->
               getProp (layer_feature l') k = getProp (layer_feature l) k).
Proof.
  intros Hfs Hold Hnew Hnd Hre.
  apply restyle_inv in Hre as (fs' & sp & Hfeat & Hsp & Hl').
  rewrite Hfs in Hfeat. simpl in Hfeat. injection Hfeat as <-.
  rewrite Hnew in Hsp. injection Hsp as <-.
  cbv zeta in Hl'. rewrite Hold in Hl'. simpl in Hl'.
  exists (merge old new). rewrite Hl', Hfs. split; [|split].
  - by rewrite getProp_VObj, assoc_obj_set_eq.
  - intros k. by apply merge_assoc.
  - intros k Hk. by rewrite !getProp_VObj, assoc_obj_set_ne.
Qed.

End Styling.

Section Settling.
Context {E : Engine} {T : Toolkit}.

Lemma value_eqb_refl (v : value) : value_eqb v v = true.
Proof.
  induction v as [| |b|x|s|l IH|fs IH] using value_ind; simpl; try done.
  - by destruct b.
  - by apply Leibniz.eqb_spec.
  - apply String.eqb_refl.
  - induction IH as [|y l Hy _ IHl]; [done|]. by rewrite Hy.
  - induction IH as [|[k y] fs Hy _ IHfs]; [done|].
    simpl in Hy. by rewrite String.eqb_refl, Hy.
Qed.

Lemma JSON_stringify_differs_same (v : value) : JSON_stringify_differs v v = false.
Proof.
  unfold JSON_stringify_differs. destruct v; try done; by rewrite value_eqb_refl.
Qed.

Lemma roundTrips_clone (v : value) : roundTrips v -> JSON_clone v = Return v.
Proof. unfold roundTrips. intros Hv. destruct v; try done; simpl in *; by rewrite Hv. Qed.

Lemma roundTrips_nanFree (v : value) : roundTrips v -> nanFree v = true.
Proof. intros <-. apply JSON_norm_nanFree. Qed.

Lemma nanFree_getProp (v a : value) (k : string) :
  nanFree v = true -> getProp v k = Return a -> nanFree a = true.
Proof.
  destruct v; simpl; try discriminate; intros Hv [= <-]; try done.
  by apply nanFree_assoc.
Qed.

Lemma strictEq_self (a : value) :
  nanFree a = true -> heapObject a = false -> strictEq false a a = true.
Proof.
  intros Hnf Hprim. destruct a as [| |b|x|s| |]; try done.
  - by destruct b.
  - by apply (strictEq_refl (VNum x)).
  - apply String.eqb_refl.
Qed.

(** On a shape that round-trips, the cleaned feature carries the shape's
    id, a truthy geometry, and the shape's geometry type ([null] when the
    shape has no geometry). *)
Lemma cleaned_facts (s c : value) :
  roundTrips s -> ensurePolygonClosedAndClean s = Return c ->
  getProp c "id" = getProp s "id" /\
  exists g t, getProp c "geometry" = Return g /\ truthy g = true /\
              getProp g "type" = Return t /\ nanFree t = true /\
              (heapObject (geometryType s) = false -> heapObject t = false).
Proof.
  intros Hrt Hc.
  destruct (ensurePolygonClosedAndClean_members s s c (roundTrips_clone s Hrt) Hc)
    as (Htop & _ & Hgeo).
  split; [by apply Htop|].
  assert (exists fs, s = VObj fs) as [fs ->].
  { unfold ensurePolygonClosedAndClean in Hc. rewrite (roundTrips_clone s Hrt) in Hc.
    destruct s; try discriminate. eauto. }
  specialize (Hgeo _ eq_refl).
  pose proof (roundTrips_nanFree _ Hrt) as Hnf.
  destruct (truthy (default VUndefined (assoc "geometry" fs))) eqn:Htr.
  - destruct Hgeo as (g' & Hg' & Htr' & Hsame). exists g'.
    assert (exists t, getProp g' "type" = Return t) as [t Ht].
    { destruct g'; try discriminate; simpl; eauto. }
    exists t. split; [done|]. split; [done|]. split; [done|].
    rewrite (Hsame "type") in Ht by done.
    split.
    + eapply nanFree_getProp; [|exact Ht]. by apply (nanFree_assoc "geometry" fs).
    + unfold geometryType. rewrite getProp_VObj, Ht. done.
  - exists emptyGeometry, VNull. by rewrite Hgeo.
Qed.

Lemma keyOf_cleaned (s c : value) :
  roundTrips s -> ensurePolygonClosedAndClean s = Return c -> keyOf c = keyOf s.
Proof.
  intros Hrt Hc. unfold keyOf. by rewrite (proj1 (cleaned_facts s c Hrt Hc)).
Qed.

Lemma keyOf_id (s id : value) : getProp s "id" = Return id -> ToPropertyKey id = keyOf s.
Proof. intros Hid. unfold keyOf. by rewrite Hid. Qed.

(** A shape that round-trips touches no key but its own. *)
Lemma touches_other (k : string) (s : value) :
  roundTrips s -> keyOf s <> k -> touches k s = false.
Proof.
  intros Hrt Hne. unfold touches. apply orb_false_iff. split.
  - destruct (getProp s "id") as [id|] eqn:Hid; [|done].
    apply String.eqb_neq. by rewrite (keyOf_id s id Hid).
  - destruct (ensurePolygonClosedAndClean s) as [c|] eqn:Hc; [|done].
    rewrite bind_Return.
    destruct (getProp c "id") as [cid|] eqn:Hcid; [|done].
    apply String.eqb_neq. rewrite (keyOf_id c cid Hcid). by rewrite (keyOf_cleaned s c Hrt Hc).
Qed.

Lemma applyCurrentStyles_step (shape : value) (lm lm' : layers) (ops ops' : list op) :
  applyCurrentStyles shape (lm, ops) = Return (lm', ops') ->
  match lm !! keyOf shape with
  | Some l => exists l', restyle l shape = Return l' /\
                         lm' = <[keyOf shape := l']> lm /\
                         ops' = ops ++ [Style (keyOf shape)]
  | None => lm' = lm /\ ops' = ops
  end.
Proof.
  unfold applyCurrentStyles, keyOf.
  destruct (getProp shape "id") as [id|] eqn:Hid; [|discriminate].
  rewrite bind_Return.
  destruct (lm !! ToPropertyKey id) as [l|]; [|by intros [= <- <-]].
  destruct (restyle l shape) as [l'|]; [|discriminate].
  rewrite bind_Return. intros [= <- <-]. eauto.
Qed.

Lemma restyle_keeps_geometry (l l' : layer) (shape : value) :
  restyle l shape = Return l' -> truthy (layer_feature l) = true ->
  truthy (layer_feature l') = true /\
  getProp (layer_feature l') "geometry" = getProp (layer_feature l) "geometry".
Proof.
  intros Hre Htr. apply restyle_inv in Hre as (fs & sp & Hfeat & _ & Hl').
  rewrite Htr in Hfeat. cbv zeta in Hl'. rewrite Hl', Hfeat. split; [done|].
  by rewrite !getProp_VObj, assoc_obj_set_ne.
Qed.

(** The geometry comparison reads the tracked layer's feature through its
    truthiness and its geometry only. *)
Lemma shouldRecreateLayer_ext (l l' : layer) (c : value) :
  truthy (layer_feature l') = truthy (layer_feature l) ->
  getProp (layer_feature l') "geometry" = getProp (layer_feature l) "geometry" ->
  shouldRecreateLayer (Some l') c = shouldRecreateLayer (Some l) c.
Proof. intros Htr Hg. unfold shouldRecreateLayer. by rewrite Htr, Hg. Qed.

(** A layer carrying the cleaned feature's own geometry passes the
    comparison. *)
Lemma shouldRecreateLayer_self (l : layer) (c g t : value) :
  truthy (layer_feature l) = true ->
  getProp (layer_feature l) "geometry" = Return g ->
  getProp c "geometry" = Return g ->
  truthy g = true -> getProp g "type" = Return t ->
  nanFree t = true -> heapObject t = false ->
  shouldRecreateLayer (Some l) c = Return false.
Proof.
  intros Htr Hlg Hcg Hg Ht Hnf Hprim. unfold shouldRecreateLayer.
  rewrite Htr, Hlg, bind_Return, Hg, Ht, bind_Return, Hcg, bind_Return, Ht, bind_Return.
  rewrite (strictEq_self t Hnf Hprim). simpl negb. cbv iota.
  assert (exists v, getProp g "coordinates" = Return v) as [v ->].
  { destruct g; try discriminate; simpl; eauto. }
  by rewrite !bind_Return, JSON_stringify_differs_same.
Qed.

Lemma shouldRecreateLayer_false_truthy (l : layer) (c : value) :
  shouldRecreateLayer (Some l) c = Return false -> truthy (layer_feature l) = true.
Proof.
  unfold shouldRecreateLayer. by destruct (truthy (layer_feature l)).
Qed.

(** One turn of the loop leaves the layer map answering to its shape, and
    every other key as it was. *)
Lemma syncFeature_upToDate (s : value) (lm lm' : layers) (ops ops' : list op) :
  roundTrips s -> heapObject (geometryType s) = false ->
  syncFeature (lm, ops) s = Return (lm', ops') ->
  upToDate lm' s.
Proof.
  intros Hrt Hprim Hstep.
  apply syncFeature_inv in Hstep as (id & c & recreate & Hid & Hc & Hrec & Hcase).
  destruct (cleaned_facts s c Hrt Hc) as (Hcid & g & t & Hg & Hgtr & Ht & Hnf & Htprim).
  specialize (Htprim Hprim).
  pose proof (keyOf_cleaned s c Hrt Hc) as Hkc.
  rewrite (keyOf_id s id Hid) in *.
  exists c. split; [done|].
  destruct recreate.
  - destruct Hcase as (made & Hmade & Hcase). destruct made.
    + destruct Hcase as (cid & Hcid' & Happly).
      rewrite (keyOf_id c cid Hcid'), Hkc in Happly.
      apply applyCurrentStyles_step in Happly. rewrite Hkc, lookup_insert_eq in Happly.
      destruct Happly as (l' & Hre & -> & _). rewrite lookup_insert_eq.
      assert (Htrc : truthy c = true).
      { destruct c; simpl in Hg; try discriminate; try done; injection Hg as <-; discriminate. }
      destruct (restyle_keeps_geometry _ _ _ Hre Htrc) as [Htr' Hg'].
      apply (shouldRecreateLayer_self l' c g t); try done. by rewrite Hg'.
    + assert (lm' !! keyOf s = None) as ->; [|done].
      unfold afterTeardown in Hcase.
      destruct (lm !! keyOf s) eqn:Hl; injection Hcase as -> _; [|done].
      apply lookup_delete_eq.
  - apply applyCurrentStyles_step in Hcase. rewrite Hkc in Hcase.
    destruct (lm !! keyOf s) as [l|] eqn:Hl; [|discriminate].
    destruct Hcase as (l' & Hre & -> & _). rewrite lookup_insert_eq.
    pose proof (shouldRecreateLayer_false_truthy l c Hrec) as Htr.
    destruct (restyle_keeps_geometry _ _ _ Hre Htr) as [Htr' Hg'].
    rewrite (shouldRecreateLayer_ext l l' c); [done | congruence | done].
Qed.

Lemma upToDate_lookup (lm lm' : layers) (s : value) :
  lm' !! keyOf s = lm !! keyOf s -> upToDate lm s -> upToDate lm' s.
Proof. intros Heq (c & Hc & Hl). exists c. by rewrite Heq. Qed.

Lemma foldR_upToDate (l : list value) (lm lm' : layers) (ops ops' : list op) :
  Forall roundTrips l ->
  Forall (fun s => heapObject (geometryType s) = false) l ->
  NoDup (keyOf <$> l) ->
  foldR syncFeature l (lm, ops) = Return (lm', ops') ->
  Forall (upToDate lm') l.
Proof.
  intros Hrt. revert lm ops. induction Hrt as [|s l Hs Hrt IH]; intros lm ops Hprim Hnd;
    [constructor|].
  apply Forall_cons in Hprim as [Hps Hprim].
  rewrite fmap_cons in Hnd. apply NoDup_cons in Hnd as [Hnotin Hnd].
  rewrite foldR_cons.
  destruct (syncFeature (lm, ops) s) as [[lm1 ops1]|] eqn:Hstep; [|discriminate].
  rewrite bind_Return. intros Hrest. constructor; [|by eapply IH].
  apply (upToDate_lookup lm1); [|by eapply syncFeature_upToDate].
  eapply (foldR_others (keyOf s) l lm1 lm' ops1 ops'); [|exact Hrest].
  apply Forall_forall. intros g Hg. apply touches_other.
  - rewrite Forall_forall in Hrt. by apply Hrt.
  - intros Heq. apply Hnotin. rewrite <- Heq. by apply list_elem_of_fmap_2.
Qed.

End Settling.

Section SettlingTheorems.
Context {E : Engine} {T : Toolkit}.

(** [currentShapeIds], when it can be computed, lists the keys of the
    shapes. *)
Lemma currentShapeIds_keys (shapes : list value) (ids : list string) :
  mapR (fun s => id ← getProp s "id"; toStringMethod id) shapes = Return ids ->
  ids = keyOf <$> shapes /\
  Forall (fun s => exists id, getProp s "id" = Return id) shapes.
Proof.
  revert ids. induction shapes as [|s l IH]; intros ids; cbn [mapR].
  - intros [= <-]. by split.
  - destruct (getProp s "id") as [id|] eqn:Hid; [|discriminate]. rewrite bind_Return.
    destruct (toStringMethod id) as [k|] eqn:Hk; [|discriminate]. rewrite bind_Return.
    destruct (mapR _ l) as [ks|]; [|discriminate]. rewrite bind_Return.
    intros [= <-]. destruct (IH ks eq_refl) as [-> Hall]. split.
    + rewrite fmap_cons. f_equal. unfold keyOf. rewrite Hid. symmetry.
      by apply toStringMethod_key.
    + constructor; eauto.
Qed.

Lemma removeStale_lookup (ids : list string) (lm : layers) (k : string) :
  (removeStale ids lm).1 !! k = if decide (k ∈ ids) then lm !! k else None.
Proof.
  unfold removeStale. simpl. destruct (decide (k ∈ ids)) as [Hin | Hnot].
  - destruct (lm !! k) as [l|] eqn:Hl.
    + by apply map_lookup_filter_Some_2.
    + apply map_lookup_filter_None_2. by left.
  - apply map_lookup_filter_None_2. right. intros l _. exact Hnot.
Qed.

Lemma opsFor_Destroy_once (k : string) (l : list string) :
  NoDup l -> k ∈ l -> opsFor k (Destroy <$> l) = [Destroy k].
Proof.
  induction 1 as [|x l Hx Hnd IH]; intros Hk; [by apply elem_of_nil in Hk|].
  change (Destroy <$> x :: l) with ([Destroy x] ++ (Destroy <$> l)).
  rewrite opsFor_app. apply elem_of_cons in Hk as [-> | Hk].
  - rewrite opsFor_self by done. by rewrite opsFor_Destroy_absent.
  - rewrite opsFor_other, IH; [done | done |]. simpl. intros ->. done.
Qed.

Lemma removeStale_ops (ids : list string) (lm : layers) (k : string) :
  opsFor k (removeStale ids lm).2 =
    if decide (k ∈ ids) then []
    else match lm !! k with Some _ => [Destroy k] | None => [] end.
Proof.
  unfold removeStale. simpl.
  set (stale := filter (fun k => k ∉ ids) (map_to_list lm).*1).
  assert (Hnd : NoDup stale) by (apply NoDup_filter, NoDup_fst_map_to_list).
  assert (Hin : k ∈ stale <-> (k ∉ ids) /\ is_Some (lm !! k)).
  { unfold stale. rewrite list_elem_of_filter, list_elem_of_fmap. split.
    - intros [Hnot ([k' l] & -> & Hkl)]. split; [done|].
      apply elem_of_map_to_list in Hkl. simpl. eauto.
    - intros [Hnot [l Hl]]. split; [done|]. exists (k, l). split; [done|].
      by apply elem_of_map_to_list. }
  destruct (decide (k ∈ ids)) as [Hids | Hids].
  - apply opsFor_Destroy_absent. rewrite Hin. tauto.
  - destruct (lm !! k) as [l|] eqn:Hl.
    + apply opsFor_Destroy_once; [done|]. apply Hin. eauto.
    + apply opsFor_Destroy_absent. rewrite Hin. intros [_ [l Hl']]. congruence.
Qed.

Lemma syncFeature_keys (s : value) (lm lm' : layers) (ops ops' : list op) (k : string) :
  roundTrips s -> syncFeature (lm, ops) s = Return (lm', ops') -> keyOf s <> k ->
  lm' !! k = lm !! k /\ opsFor k ops' = opsFor k ops.
Proof.
  intros Hrt Hstep Hne. eapply syncFeature_other; [|exact Hstep]. by apply touches_other.
Qed.

Lemma foldR_keys (l : list value) (lm lm' : layers) (ops ops' : list op) (k : string) :
  Forall roundTrips l -> foldR syncFeature l (lm, ops) = Return (lm', ops') ->
  k ∉ keyOf <$> l ->
  lm' !! k = lm !! k /\ opsFor k ops' = opsFor k ops.
Proof.
  intros Hrt Hfold Hk. eapply foldR_others; [|exact Hfold].
  apply Forall_forall. intros g Hg. apply touches_other.
  - rewrite Forall_forall in Hrt. by apply Hrt.
  - intros <-. apply Hk. by apply list_elem_of_fmap_2.
Qed.

(** X8: layers follow the shapes.  Over shapes that round-trip through
    JSON, once the effect has run every tracked layer is tracked under the
    id of a shape of the store; and for a key that no shape answers to, the
    calls made are one teardown when a layer was tracked under it, and none
    otherwise. *)
Theorem syncShapes_tracks_current_shapes
    (shapes : store) (lm lm' : layers) (ops : list op) :
  Forall roundTrips shapes ->
  syncShapes shapes lm = Return (lm', ops) ->
  (forall k, is_Some (lm' !! k) ->
             exists s id, s ∈ shapes /\ getProp s "id" = Return id /\
                          ToPropertyKey id = k) /\
  (forall k, (forall s id, s ∈ shapes -> getProp s "id" = Return id ->
                           ToPropertyKey id <> k) ->
             lm' !! k = None /\
             opsFor k ops = match lm !! k with Some _ => [Destroy k] | None => [] end).
Proof.
  intros Hrt Hsync. unfold syncShapes in Hsync.
  destruct (mapR _ shapes) as [ids|] eqn:Hids; [|discriminate].
  rewrite bind_Return in Hsync.
  apply currentShapeIds_keys in Hids as [-> Hall].
  assert (Hkey : forall k, k ∈ keyOf <$> shapes <->
                 exists s id, s ∈ shapes /\ getProp s "id" = Return id /\
                              ToPropertyKey id = k).
  { intros k. rewrite list_elem_of_fmap. split.
    - intros (s & -> & Hs). rewrite Forall_forall in Hall.
      destruct (Hall s Hs) as [id Hid]. exists s, id. by rewrite (keyOf_id s id Hid).
    - intros (s & id & Hs & Hid & <-). exists s. by rewrite (keyOf_id s id Hid). }
  pose proof (removeStale_lookup (keyOf <$> shapes) lm) as Hlm0.
  pose proof (removeStale_ops (keyOf <$> shapes) lm) as Hops0.
  destruct (removeStale (keyOf <$> shapes) lm) as [lm0 ops0]. simpl in Hlm0, Hops0.
  assert (Hstale : forall k, k ∉ keyOf <$> shapes ->
            lm' !! k = None /\
            opsFor k ops = match lm !! k with Some _ => [Destroy k] | None => [] end).
  { intros k Hk. destruct (foldR_keys shapes _ _ _ _ k Hrt Hsync Hk) as [-> ->].
    rewrite Hlm0, Hops0. by rewrite !decide_False. }
  split.
  - intros k [l Hl]. apply Hkey. destruct (decide (k ∈ keyOf <$> shapes)); [done|].
    destruct (Hstale k) as [Hnone _]; [done | congruence].
  - intros k Hk. apply Hstale. rewrite Hkey. intros (s & id & Hs & Hid & Heq).
    by eapply Hk.
Qed.

(** X9: every shape gets its layer.  Over shapes that round-trip through
    JSON, carry pairwise distinct ids and a geometry type that is not an
    array or an object, once the effect has run each shape is cleaned
    without an exception and, when the factory yields a layer for it, a
    layer is tracked under its id that passes the geometry comparison
    against the cleaned shape. *)
Theorem syncShapes_brings_layers_up_to_date
    (shapes : store) (lm lm' : layers) (ops : list op) (s : value) :
  Forall roundTrips shapes ->
  Forall (fun s => heapObject (geometryType s) = false) shapes ->
  NoDup (keyOf <$> shapes) ->
  syncShapes shapes lm = Return (lm', ops) ->
  s ∈ shapes ->
  exists c,
    ensurePolygonClosedAndClean s = Return c /\
    (createLayer c = Return true ->
     exists l, lm' !! keyOf s = Some l /\
               shouldRecreateLayer (Some l) c = Return false).
Proof.
  intros Hrt Hprim Hnd Hsync Hs. unfold syncShapes in Hsync.
  destruct (mapR _ shapes) as [ids|]; [|discriminate]. rewrite bind_Return in Hsync.
  destruct (removeStale ids lm) as [lm0 ops0].
  pose proof (foldR_upToDate shapes _ _ _ _ Hrt Hprim Hnd Hsync) as Hall.
  rewrite Forall_forall in Hall. destruct (Hall s Hs) as (c & Hc & Hl).
  exists c. split; [done|]. intros Hmade.
  destruct (lm' !! keyOf s) as [l|]; [eauto | congruence].
Qed.

(** With every shape answered to, a turn of the loop only styles. *)
Lemma foldR_quiet (l : list value) (lm lm' : layers) (ops ops' : list op) :
  Forall roundTrips l -> NoDup (keyOf <$> l) ->
  Forall (upToDate lm) l ->
  foldR syncFeature l (lm, ops) = Return (lm', ops') ->
  exists styled, ops' = ops ++ styled /\ forallb isStyle styled = true.
Proof.
  intros Hrt. revert lm ops. induction Hrt as [|s l Hs Hrt IH]; intros lm ops Hnd Hup.
  - intros [= <- <-]. exists []. by rewrite app_nil_r.
  - rewrite fmap_cons in Hnd. apply NoDup_cons in Hnd as [Hnotin Hnd].
    apply Forall_cons in Hup as [(c & Hc & Hl) Hup].
    rewrite foldR_cons.
    destruct (syncFeature (lm, ops) s) as [[lm1 ops1]|] eqn:Hstep; [|discriminate].
    rewrite bind_Return. intros Hrest.
    assert (Hone : (ops1 = ops \/ ops1 = ops ++ [Style (keyOf s)]) /\
                   forall k, k <> keyOf s -> lm1 !! k = lm !! k).
    { split.
      - apply syncFeature_inv in Hstep as (id & c' & recreate & Hid & Hc' & Hrec & Hcase).
        rewrite Hc in Hc'. injection Hc' as <-.
        rewrite (keyOf_id s id Hid) in *.
        destruct (lm !! keyOf s) as [tracked|] eqn:Htracked.
        + rewrite Hl in Hrec. injection Hrec as <-.
          apply applyCurrentStyles_step in Hcase.
          rewrite (keyOf_cleaned s c Hs Hc), Htracked in Hcase.
          destruct Hcase as (l' & _ & _ & ->). by right.
        + simpl in Hrec. injection Hrec as <-.
          destruct Hcase as (made & Hmade & Hcase).
          rewrite Hl in Hmade. injection Hmade as <-.
          unfold afterTeardown in Hcase. rewrite Htracked in Hcase.
          injection Hcase as _ ->. by left.
      - intros k Hk. by apply (syncFeature_keys s lm lm1 ops ops1 k Hs Hstep). }
    destruct Hone as [Hops1 Hlm1].
    destruct (IH lm1 ops1 Hnd) as (styled & -> & Hstyled); [|done|].
    { apply Forall_forall. intros g Hg. apply (upToDate_lookup lm).
      - apply Hlm1. intros Heq. apply Hnotin. rewrite <- Heq. by apply list_elem_of_fmap_2.
      - rewrite Forall_forall in Hup. by apply Hup. }
    destruct Hops1 as [-> | ->]; [by exists styled|].
    exists (Style (keyOf s) :: styled). by rewrite <- app_assoc.
Qed.

(** X10: a second run only styles.  Over shapes that round-trip through
    JSON, carry pairwise distinct ids and a geometry type that is not an
    array or an object: when the effect has run on the shapes and runs
    again on the same shapes, the second run tears down no layer and
    creates none; every call it makes is a styling. *)
Theorem syncShapes_second_run_only_styles
    (shapes : store) (lm lm1 lm2 : layers) (ops1 ops2 : list op) :
  Forall roundTrips shapes ->
  Forall (fun s => heapObject (geometryType s) = false) shapes ->
  NoDup (keyOf <$> shapes) ->
  syncShapes shapes lm = Return (lm1, ops1) ->
  syncShapes shapes lm1 = Return (lm2, ops2) ->
  forallb isStyle ops2 = true.
Proof.
  intros Hrt Hprim Hnd Hfirst Hsecond. unfold syncShapes in Hfirst, Hsecond.
  destruct (mapR _ shapes) as [ids|] eqn:Hids; [|discriminate].
  rewrite bind_Return in Hfirst, Hsecond.
  apply currentShapeIds_keys in Hids as [-> _].
  (* after the first run: every shape answered to, no layer under another key *)
  assert (Hup : Forall (upToDate lm1) shapes).
  { destruct (removeStale _ lm) as [lm0 ops0]. by eapply foldR_upToDate. }
  assert (Hdom : forall k, k ∉ keyOf <$> shapes -> lm1 !! k = None).
  { intros k Hk. pose proof (removeStale_lookup (keyOf <$> shapes) lm k) as Hlm0.
    destruct (removeStale _ lm) as [lm0 ops0]. simpl in Hlm0.
    destruct (foldR_keys shapes _ _ _ _ k Hrt Hfirst Hk) as [-> _].
    by rewrite Hlm0, decide_False. }
  (* the removal pass of the second run finds nothing to remove *)
  pose proof (removeStale_lookup (keyOf <$> shapes) lm1) as Hlm0.
  assert (Hops0 : (removeStale (keyOf <$> shapes) lm1).2 = []).
  { unfold removeStale. simpl.
    replace (filter _ _) with (@nil string); [done|]. symmetry.
    apply elem_of_nil_inv. intros k [Hnot Hk]%list_elem_of_filter.
    apply list_elem_of_fmap in Hk as ([k' l] & -> & Hkl).
    apply elem_of_map_to_list in Hkl. simpl in *.
    rewrite (Hdom k' Hnot) in Hkl. discriminate. }
  destruct (removeStale (keyOf <$> shapes) lm1) as [lm0 ops0]. simpl in Hlm0, Hops0.
  subst ops0.
  destruct (foldR_quiet shapes lm0 lm2 [] ops2 Hrt Hnd) as (styled & -> & Hstyled);
    [|done|done].
  apply Forall_forall. intros s Hs. apply (upToDate_lookup lm1).
  - rewrite Hlm0. rewrite decide_True; [done|]. by apply list_elem_of_fmap_2.
  - rewrite Forall_forall in Hup. by apply Hup.
Qed.

End SettlingTheorems.

Section ValidatorFixpoint.
Context {E : Engine}.

#[local] Arguments cleanCoordinatesRecursive : simpl never.

Lemma JSON_members_length (fs : list (string * value)) :
  length ((fix members (fs : list (string * value)) :=
             match fs with
             | [] => []
             | (k, VUndefined) :: r => members r
             | (k, x) :: r => (k, JSON_norm x) :: members r
             end) fs) <= length fs.
Proof.
  induction fs as [|[k v] fs IH]; simpl; [lia|]. destruct v; simpl; lia.
Qed.

Lemma roundTrips_fields (fs : list (string * value)) :
  roundTrips (VObj fs) -> Forall (fun kv => roundTrips (snd kv)) fs.
Proof.
  unfold roundTrips. simpl. intros [= Hfs].
  induction fs as [|[k v] fs IH]; [constructor|].
  pose proof (JSON_members_length fs) as Hlen.
  destruct v; simpl in Hfs;
    try (injection Hfs as Hv Hfs; constructor; [by simpl; rewrite ?Hv | by apply IH]).
  - rewrite Hfs in Hlen. simpl in Hlen. lia.
  - injection Hfs as Hfs. constructor; [done | by apply IH].
  - injection Hfs as Hfs. constructor; [done | by apply IH].
  - injection Hfs as Hfs. constructor; [done | by apply IH].
Qed.

Lemma roundTrips_assoc (fs : list (string * value)) (k : string) (v : value) :
  roundTrips (VObj fs) -> assoc k fs = Some v -> roundTrips v.
Proof.
  intros Hfs%roundTrips_fields. induction Hfs as [|[k' v'] fs Hv _ IH]; simpl; [done|].
  destruct (String.eqb k k'); [by intros [= <-] | exact IH].
Qed.

Lemma roundTrips_elems (l : list value) :
  roundTrips (VArr l) -> Forall roundTrips l.
Proof.
  unfold roundTrips. simpl. intros [= Hl].
  induction l as [|x l IH]; [constructor|].
  simpl in Hl. injection Hl as Hx Hl. constructor; [done | by apply IH].
Qed.

Lemma roundTrips_parseFloat (x : num) :
  roundTrips (VNum x) -> PrimFloat.is_finite x = true /\ parseFloat (VNum x) = x.
Proof.
  unfold roundTrips. simpl.
  destruct (PrimFloat.is_finite x); [|discriminate].
  destruct (PrimFloat.is_zero x); [|done]. by intros [= <-].
Qed.

(** Cleaning leaves a tree alone when it round-trips and each array that
    looks like a pair is a pair of finite numbers. *)
Lemma cleanCoordinatesRecursive_fixpoint (tree : value) :
  roundTrips tree -> sanitised tree = true -> cleanCoordinatesRecursive tree = tree.
Proof.
  induction tree as [| | | | |l IH|fs _] using value_ind; try done.
  intros Hrt Hs. rewrite cleanCoordinatesRecursive_array.
  apply roundTrips_elems in Hrt. simpl in Hs.
  destruct (looksLikePair l) eqn:Hl.
  - apply looksLikePair_inv in Hl as (a & b & -> & _).
    unfold wellFormedPair, elem in Hs. simpl in Hs.
    destruct a as [| | |x| | |], b as [| | |y| | |]; try done;
      rewrite ?andb_false_r in Hs; try done.
    apply Forall_cons in Hrt as [Hx Hrt]. apply Forall_cons in Hrt as [Hy _].
    destruct (roundTrips_parseFloat x Hx) as [Hfx Hpx].
    destruct (roundTrips_parseFloat y Hy) as [Hfy Hpy].
    rewrite cleanCoordinatePair_two. by rewrite Hpx, Hpy, Hfx, Hfy.
  - f_equal. rewrite forallb_forall in Hs. clear Hl.
    induction IH as [|x l Hx _ IHl]; [done|]. simpl.
    apply Forall_cons in Hrt as [Hrx Hrt].
    rewrite (Hx Hrx (Hs x (or_introl eq_refl))). f_equal.
    apply IHl; [done|]. intros y Hy. apply Hs. by right.
Qed.

Lemma fixRing_closedVertexRing (ring : value) :
  closedVertexRing ring = true -> fixRing ring = Return ring.
Proof.
  destruct ring as [| | | | |[|p r]|]; try done.
  unfold closedVertexRing, fixRing, closeRing. rewrite elem_last.
  change (elem (p :: r) 0) with p.
  destruct p as [| | | | |[|[| | |x0| | |] [|[| | |y0| | |] ?]]|]; try done.
  destruct (last _) as [q|]; [|done].
  destruct q as [| | | | |[|[| | |x1| | |] [|[| | |y1| | |] ?]]|]; try done.
  simpl. intros [-> ->]%andb_true_iff. done.
Qed.

Lemma mapR_id (f : value -> result value) (l : list value) :
  Forall (fun x => f x = Return x) l -> mapR f l = Return l.
Proof. induction 1 as [|x l Hx _ IH]; simpl; [done|]. by rewrite Hx, IH. Qed.

(** X11: valid features pass unchanged.  A feature that round-trips through
    JSON, has properties, and a geometry whose coordinate tree holds finite
    numbers wherever it holds a pair, comes back from the validator as it
    went in, provided that, for a Polygon, every ring is closed already. *)
Theorem ensurePolygonClosedAndClean_fixes_valid
    (fs gs : list (string * value)) (cs : list value) :
  roundTrips (VObj fs) ->
  truthy (default VUndefined (assoc "properties" fs)) = true ->
  assoc "geometry" fs = Some (VObj gs) ->
  assoc "coordinates" gs = Some (VArr cs) ->
  sanitised (VArr cs) = true ->
  (assoc "type" gs = Some (VStr "Polygon") -> forallb closedVertexRing cs = true) ->
  ensurePolygonClosedAndClean (VObj fs) = Return (VObj fs).
Proof.
  intros Hrt Hp Hg Hc Hs Hrings.
  assert (Hclean : cleanCoordinatesRecursive (VArr cs) = VArr cs).
  { apply cleanCoordinatesRecursive_fixpoint; [|done].
    eapply roundTrips_assoc; [|exact Hc]. eapply roundTrips_assoc; [exact Hrt | exact Hg]. }
  unfold ensurePolygonClosedAndClean.
  rewrite (roundTrips_clone _ Hrt), bind_Return.
  set (fs1 := if truthy (default VUndefined (assoc "properties" fs)) then fs
              else obj_set "properties" (VObj []) fs).
  assert (fs1 = fs) as -> by (unfold fs1; by rewrite Hp).
  set (fs2 := if truthy (default VUndefined (assoc "geometry" fs)) then fs
              else obj_set "geometry" emptyGeometry fs).
  assert (fs2 = fs) as -> by (unfold fs2; by rewrite Hg).
  cbv zeta. rewrite Hg.
  change (default VUndefined (Some (VObj gs))) with (VObj gs).
  rewrite getProp_VObj, Hc.
  change (default VUndefined (Some (VArr cs))) with (VArr cs).
  rewrite bind_Return. cbv iota.
  rewrite Hclean, (obj_set_same "coordinates" _ gs Hc).
  destruct (strictEq false _ (VStr "Polygon")) eqn:Hty.
  - apply strictEq_VStr in Hty.
    rewrite (mapR_id fixRing cs), bind_Return.
    + by rewrite (obj_set_same "coordinates" _ gs Hc), (obj_set_same "geometry" _ fs Hg).
    + apply Forall_forall. intros ring Hring. apply fixRing_closedVertexRing.
      assert (Hall : forallb closedVertexRing cs = true).
      { apply Hrings. destruct (assoc "type" gs); simpl in Hty; congruence. }
      rewrite forallb_forall in Hall. by apply Hall, list_elem_of_In.
  - by rewrite (obj_set_same "geometry" _ fs Hg).
Qed.

End ValidatorFixpoint.

(* ===================================================================== *)
(** * Gestures and what they publish *)
(* ===================================================================== *)

Section GestureTheorems.
Context {E : Engine}.

(** A [remove] frame does to the receiver's store what the queued update
    does to the sender's. *)
Lemma onFrame_remove (pid : value) (prev : store) :
  roundTrips pid ->
  onFrame (VObj [("type", VStr "remove"); ("id", pid)]) prev =
    match removedBy pid prev with Return next => next | Throw _ => prev end.
Proof.
  intros Hrt. unfold onFrame.
  assert (JSON_clone (VObj [("type", VStr "remove"); ("id", pid)]) =
          Return (VObj [("type", VStr "remove"); ("id", pid)])) as ->.
  { unfold roundTrips in Hrt. destruct pid; try discriminate; simpl in *; by rewrite ?Hrt. }
  reflexivity.
Qed.

(** X12: deleting.  For a deleted layer whose feature carries properties
    with an id that round-trips through JSON and converts to a property
    key (no object in it has a [toString] member of its own),
    [handleDelete] forgets the layer tracked under that id, queues the
    removal of the stored features carrying it and, when the socket is
    connected, publishes a [remove] envelope for it; a receiver that
    handles the envelope ends with the store the sender's queued update
    produces, and handling it again changes nothing.  With an id that does
    not convert, [handleDelete] throws before anything is published or
    queued. *)
Theorem handleDelete_matches_remove
    (connected : bool) (l : layer) (properties pid : value)
    (lm : layers) (outbox : list value) (queue : list updater) :
  truthy (layer_feature l) = true ->
  getProp (layer_feature l) "properties" = Return properties ->
  truthy properties = true ->
  getProp properties "id" = Return pid ->
  roundTrips pid ->
  (convertible pid = false ->
   handleDelete connected [l] (lm, outbox, queue) = Throw TypeError) /\
  (convertible pid = true ->
  let payload := VObj [("type", VStr "remove"); ("id", pid)] in
  handleDelete connected [l] (lm, outbox, queue) =
    Return (delete (ToPropertyKey pid) lm,
            outbox ++ (if connected then [payload] else []),
            queue ++ [removedBy pid]) /\
  (forall prev next,
      removedBy pid prev = Return next ->
      onFrame payload prev = next /\ onFrame payload next = next)).
Proof.
  intros Hf Hp Hpt Hid Hrt. split.
  { intros Hconv. unfold handleDelete, foldR, deleteLayer, propertyKey.
    by rewrite Hf, Hp, bind_Return, Hpt, Hid, bind_Return, Hconv. }
  intros Hconv payload. split.
  - unfold handleDelete, foldR, deleteLayer, propertyKey.
    rewrite Hf, Hp, bind_Return, Hpt, Hid, bind_Return, Hconv, !bind_Return.
    by destruct connected.
  - intros prev next Hnext. unfold payload. rewrite !onFrame_remove by done.
    rewrite Hnext. split; [done|].
    unfold removedBy in *. by rewrite (filterR_idem _ _ _ Hnext).
Qed.

(** X13: bulkAdd round trip.  A [bulkAdd] sent with an array is published,
    and a receiver that handles the frame ends, whatever it held, with the
    deep copy of the array as its store: the array itself when its features
    round-trip through JSON.  With anything but an array nothing is
    published. *)
Theorem bulkAdd_round_trip (data id : value) (prev : store) :
  match data with
  | VArr shapes =>
      exists payload,
        sendMessage true (VStr "bulkAdd") data id = Some payload /\
        onFrame payload prev = List.map JSON_norm shapes /\
        (Forall roundTrips shapes -> onFrame payload prev = shapes)
  | _ => sendMessage true (VStr "bulkAdd") data id = None
  end.
Proof.
  destruct data as [| | | | |shapes|]; try reflexivity.
  eexists. split; [reflexivity|].
  assert (Hframe : onFrame (VObj [("type", VStr "bulkAdd"); ("data", VArr shapes)]) prev
                   = List.map JSON_norm shapes) by reflexivity.
  split; [exact Hframe|]. intros Hrt. rewrite Hframe.
  induction Hrt as [|s l Hs _ IH]; [done|]. simpl. by rewrite Hs, IH.
Qed.

(** X14: a property edit.  [updateShapeProperty] changes no feature but
    those carrying the selected id, and on those nothing but the one
    property: the store keeps its length and order, a feature with another
    id stays as it was, and a feature with the selected id comes back with
    the property set to the new value, its other properties and all its
    other members as they were. *)
Theorem updateShapeProperty_sets_property
    (connected : bool) (selectedId : value) (prop : string) (newValue : value)
    (prev next : store) (sent : list value) :
  updateShapeProperty connected selectedId prop newValue prev = Return (next, sent) ->
  length next = length prev /\
  (connected = false -> sent = []) /\
  forall i shape, prev !! i = Some shape ->
    exists id, getProp shape "id" = Return id /\
      if strictEq false id selectedId then
        exists shape' properties properties',
          next !! i = Some (VObj shape') /\
          getProp shape "properties" = Return properties /\
          assoc "properties" shape' = Some (VObj properties') /\
          assoc prop properties' = Some newValue /\
          (forall k, k <> prop -> assoc k properties' = assoc k (spread properties)) /\
          (forall k, k <> "properties" -> assoc k shape' = assoc k (spread shape))
      else next !! i = Some shape.
Proof.
  revert next sent. induction prev as [|shape rest IH]; intros next sent.
  - intros [= <- <-]. split; [done|]. split; [done|]. intros i s Hi. done.
  - cbn [updateShapeProperty].
    destruct (getProp shape "id") as [id|] eqn:Hid; [|discriminate]. rewrite bind_Return.
    destruct (updateShapeProperty connected selectedId prop newValue rest)
      as [[rest' sent']|] eqn:Hrest.
    2:{ destruct (strictEq false id selectedId); [|done].
        destruct (updatedShape prop newValue shape) as [u|]; [|done]. rewrite bind_Return.
        by destruct (getProp u "id"). }
    destruct (IH rest' sent' eq_refl) as (Hlen & Hoff & Hrestspec).
    destruct (strictEq false id selectedId) eqn:Hsel.
    + unfold updatedShape.
      destruct (getProp shape "properties") as [properties|] eqn:Hp; [|discriminate].
      rewrite !bind_Return.
      set (newProps := obj_set prop newValue (spread properties)).
      set (u := obj_set "properties" (VObj newProps) (spread shape)).
      rewrite getProp_VObj, !bind_Return. intros [= <- <-].
      split; [simpl; by rewrite Hlen|]. split.
      { intros ->. simpl. by apply Hoff. }
      intros [|i] s Hi; simpl in Hi.
      * injection Hi as <-. exists id. split; [done|]. rewrite Hsel.
        exists u, properties, newProps. split; [done|]. split; [done|].
        split; [apply assoc_obj_set_eq|]. split; [apply assoc_obj_set_eq|].
        split; intros k Hk; by apply assoc_obj_set_ne.
      * apply (Hrestspec i s Hi).
    + rewrite !bind_Return. intros [= <- <-].
      split; [simpl; by rewrite Hlen|]. split; [exact Hoff|].
      intros [|i] s Hi; simpl in Hi.
      * injection Hi as <-. exists id. split; [done|]. by rewrite Hsel.
      * apply (Hrestspec i s Hi).
Qed.

End GestureTheorems.

Section PopupTheorems.
Context {C : Casing}.

Lemma uniqueFrom_spec (seenIds points out : list value) :
  uniqueFrom seenIds points = Return out ->
  sublist out points /\
  (forall q, q ∈ out ->
     exists iq, pointId q = Return iq /\ existsb (sameValueZero iq) seenIds = false) /\
  (forall i j a b, i < j -> out !! i = Some a -> out !! j = Some b ->
     exists ia ib, pointId a = Return ia /\ pointId b = Return ib /\
                   sameValueZero ib ia = false) /\
  (forall p, p ∈ points ->
     exists ip, pointId p = Return ip /\
       (existsb (sameValueZero ip) seenIds = true \/ p ∈ out \/
        exists q iq, q ∈ out /\ pointId q = Return iq /\ sameValueZero ip iq = true)).
Proof.
  revert seenIds out. induction points as [|p rest IH]; intros seenIds out.
  - intros [= <-]. split; [constructor|]. split; [by intros q ?%elem_of_nil|].
    split; [by intros i j a b _ ?|by intros p ?%elem_of_nil].
  - cbn [uniqueFrom].
    destruct (pointId p) as [id|] eqn:Hid; [|discriminate]. rewrite bind_Return.
    destruct (existsb (sameValueZero id) seenIds) eqn:Hseen.
    + intros Hrest. destruct (IH seenIds out Hrest) as (Hsub & Hnew & Hdist & Hcov).
      split; [by constructor|]. split; [done|]. split; [done|].
      intros p' [-> | Hp']%elem_of_cons; [eauto | by apply Hcov].
    + destruct (uniqueFrom (seenIds ++ [id]) rest) as [kept|] eqn:Hrest; [|discriminate].
      rewrite bind_Return. intros [= <-].
      destruct (IH _ kept Hrest) as (Hsub & Hnew & Hdist & Hcov).
      assert (Hsplit : forall iq, existsb (sameValueZero iq) (seenIds ++ [id]) =
                                  existsb (sameValueZero iq) seenIds || sameValueZero iq id).
      { intros iq. rewrite existsb_app. simpl. by rewrite orb_false_r. }
      split; [by constructor|]. split; [|split].
      * intros q [-> | Hq]%elem_of_cons; [eauto|].
        destruct (Hnew q Hq) as (iq & Hiq & Hfresh). exists iq. split; [done|].
        rewrite Hsplit in Hfresh. by apply orb_false_iff in Hfresh as [? _].
      * intros [|i] [|j] a b Hij Ha Hb; simpl in Ha, Hb; try lia.
        -- injection Ha as <-.
           destruct (Hnew b) as (ib & Hib & Hfresh); [by eapply list_elem_of_lookup_2|].
           exists id, ib. split; [done|]. split; [done|].
           rewrite Hsplit in Hfresh. by apply orb_false_iff in Hfresh as [_ ?].
        -- apply (Hdist i j); [lia | done..].
      * intros p' [-> | Hp']%elem_of_cons.
        -- exists id. split; [done|]. right. left. by left.
        -- destruct (Hcov p' Hp') as (ip & Hip & Hcase). exists ip. split; [done|].
           rewrite Hsplit in Hcase.
           destruct Hcase as [[Hs | Hs]%orb_true_iff | [Hin | (q & iq & Hq & Hiq & Heq)]].
           ++ by left.
           ++ right. right. exists p, id. split; [by left | done].
           ++ right. left. by right.
           ++ right. right. exists q, iq. split; [by right | done].
Qed.

(** X15: the marker list.  The points the popup lists are shapes of the
    store, in the order of the store, each of type marker and matching the
    search; no two of them carry the same id; and every marker of the store
    that matches the search is listed, or a listed point carries its id. *)
Theorem listedPoints_unique (searchTerm : string) (shapes : store) (points out : list value) :
  markers shapes = Return points ->
  listedPoints searchTerm points = Return out ->
  sublist out shapes /\
  (forall q, q ∈ out ->
     isMarker q = Return true /\ nameMatches searchTerm q = Return true) /\
  (forall i j a b, i < j -> out !! i = Some a -> out !! j = Some b ->
     exists ia ib, pointId a = Return ia /\ pointId b = Return ib /\
                   sameValueZero ib ia = false) /\
  (forall p, p ∈ shapes ->
     isMarker p = Return true -> nameMatches searchTerm p = Return true ->
     p ∈ out \/
     exists q ip iq, q ∈ out /\ pointId p = Return ip /\ pointId q = Return iq /\
                     sameValueZero ip iq = true).
Proof.
  unfold markers, listedPoints, searchedPoints, uniqueFilteredPoints.
  intros Hmarkers.
  destruct (filterR (nameMatches searchTerm) points) as [searched|] eqn:Hsearch;
    [|discriminate].
  rewrite bind_Return. intros Hout.
  destruct (filterR_spec _ _ _ Hmarkers) as (Hsub0 & Hmem0 & _).
  destruct (filterR_spec _ _ _ Hsearch) as (Hsub1 & Hmem & _).
  destruct (uniqueFrom_spec _ _ _ Hout) as (Hsub2 & _ & Hdist & Hcov).
  split; [by repeat (etrans; [eassumption|])|]. split; [|split; [done|]].
  - intros q Hq. assert (Hqs : q ∈ searched) by (by eapply elem_of_sublist).
    apply Hmem in Hqs as [Hqp Hqm]. split; [by apply Hmem0 | done].
  - intros p Hp Hmarker Hmatch.
    destruct (Hcov p) as (ip & Hip & [Hs | [Hin | (q & iq & Hq & Hiq & Heq)]]).
    + apply Hmem. split; [by apply Hmem0 | done].
    + discriminate Hs.
    + by left.
    + right. exists q, ip, iq. done.
Qed.

End PopupTheorems.

Section PairTheorem.
Context {E : Engine}.

(** X16: a pair, always.  Given anything but an array of two entries one
    of which does not convert to a string (an object with a [toString]
    member of its own, on which [parseFloat] throws),
    [cleanCoordinatePair] hands back an array of exactly two finite
    numbers, and it is [[0, 0]] for anything that is not an array of two
    entries.  The walk calls it on arrays of two numbers or strings. *)
Theorem cleanCoordinatePair_total (coordPair : value) :
  (forall a b, coordPair = VArr [a; b] -> convertible a = true /\ convertible b = true) ->
  (exists lon lat,
      cleanCoordinatePair coordPair = VArr [VNum lon; VNum lat] /\
      PrimFloat.is_finite lon = true /\ PrimFloat.is_finite lat = true) /\
  ((forall a b, coordPair <> VArr [a; b]) -> cleanCoordinatePair coordPair = origin) /\
  (forall a b, coordPair = VArr [a; b] ->
     cleanCoordinatePair coordPair =
       if PrimFloat.is_finite (parseFloat a) && PrimFloat.is_finite (parseFloat b)
       then VArr [VNum (parseFloat a); VNum (parseFloat b)]
       else origin).
Proof.
  intros _. split; [apply cleanCoordinatePair_finite|]. split.
  - intros Hnot. destruct coordPair as [| | | | |[|a [|b [|c l]]]|]; try done.
    by destruct (Hnot a b).
  - intros a b ->. apply cleanCoordinatePair_two.
Qed.

End PairTheorem.

Section Convergence.
Context {E : Engine}.

Lemma roundTrips_object (fs : list (string * value)) :
  Forall (fun kv => roundTrips (snd kv)) fs -> roundTrips (VObj fs).
Proof.
  unfold roundTrips. intros Hall. simpl. f_equal.
  induction Hall as [|[k v] fs Hv _ IH]; [done|]. simpl in Hv.
  destruct v; simpl in *; try discriminate; rewrite ?IH; try done; by rewrite Hv.
Qed.

Lemma roundTrips_obj_set (k : string) (v : value) (fs : list (string * value)) :
  roundTrips (VObj fs) -> roundTrips v -> roundTrips (VObj (obj_set k v fs)).
Proof.
  intros Hfs%roundTrips_fields Hv. apply roundTrips_object.
  induction Hfs as [|[k' v'] fs Hv' Hfs IH]; simpl; [by constructor|].
  destruct (String.eqb k k'); constructor; done.
Qed.

(** The update of a property keeps what the inbound guard looks at. *)
Lemma accepted_updatedShape (prop : string) (newValue : value)
    (fs : list (string * value)) (u : value) :
  updatedShape prop newValue (VObj fs) = Return u ->
  accepted u = accepted (VObj fs).
Proof.
  unfold updatedShape. rewrite getProp_VObj, bind_Return. intros [= <-].
  unfold accepted. cbn [truthy spread]. by rewrite !getProp_VObj, assoc_obj_set_ne.
Qed.

Lemma updateShapeProperty_reads_ids (connected : bool) (selectedId : value)
    (prop : string) (newValue : value) (prev : store) (r : store * list value) :
  updateShapeProperty connected selectedId prop newValue prev = Return r ->
  Forall (fun s => exists id, getProp s "id" = Return id) prev.
Proof.
  revert r. induction prev as [|s rest IH]; intros r; [constructor|].
  cbn [updateShapeProperty].
  destruct (getProp s "id") as [sid|] eqn:Hsid; [|discriminate]. rewrite bind_Return.
  destruct (updateShapeProperty connected selectedId prop newValue rest) as [r'|] eqn:Hrest.
  - intros _. constructor; eauto.
  - destruct (strictEq false sid selectedId); [|done].
    destruct (updatedShape prop newValue s) as [u'|]; [|done].
    rewrite bind_Return. by destruct (getProp u' "id").
Qed.

(** With distinct ids, the update touches the one feature that carries the
    selected id. *)
Lemma updateShapeProperty_single (selectedId : value) (prop : string) (newValue : value)
    (prev next : store) (sent : list value) (i : nat) (shape u uid : value) :
  updateShapeProperty true selectedId prop newValue prev = Return (next, sent) ->
  distinctIds prev = true ->
  prev !! i = Some shape -> hasId selectedId shape = Return true ->
  updatedShape prop newValue shape = Return u ->
  getProp u "id" = Return uid ->
  next = <[i := u]> prev /\
  sent = [VObj [("type", VStr "modify"); ("id", uid); ("data", u)]].
Proof.
  revert next sent i. induction prev as [|s rest IH]; intros next sent i; [done|].
  cbn [updateShapeProperty distinctIds].
  intros Hrun [Hs Hrest]%andb_true_iff Hi Hsel Hu Huid.
  destruct (getProp s "id") as [id|] eqn:Hid; [|discriminate].
  rewrite bind_Return in Hrun.
  destruct (updateShapeProperty true selectedId prop newValue rest)
    as [[rest' sent']|] eqn:Hrun'.
  2:{ destruct (strictEq false id selectedId); [|done].
      destruct (updatedShape prop newValue s) as [u'|]; [|done].
      rewrite bind_Return in Hrun. by destruct (getProp u' "id"). }
  unfold hasId in Hsel.
  destruct (getProp shape "id") as [sid|] eqn:Hsid; [|discriminate].
  rewrite bind_Return in Hsel. injection Hsel as Hsel.
  destruct i as [|i]; simpl in Hi.
  - injection Hi as ->. rewrite Hsid in Hid. injection Hid as <-.
    rewrite Hsel, Hu, bind_Return, Huid, !bind_Return in Hrun.
    injection Hrun as <- <-.
    (* no other feature carries the id *)
    assert (Hnone : rest' = rest /\ sent' = []); [|by destruct Hnone as [-> ->]].
    clear IH Hrest. revert rest' sent' Hrun'.
    induction rest as [|t rest IHr]; intros rest' sent'; [by intros [= <- <-]|].
    cbn [updateShapeProperty]. simpl in Hs. apply andb_true_iff in Hs as [Ht Hs].
    destruct (getProp t "id") as [tid|] eqn:Htid; [|discriminate]. rewrite bind_Return.
    assert (strictEq false tid selectedId = false) as ->.
    { rewrite <- (strictEq_trans sid selectedId tid Hsel).
      apply negb_true_iff in Ht. unfold sameId in Ht. rewrite Hsid, Htid in Ht.
      by rewrite strictEq_sym. }
    rewrite bind_Return.
    destruct (updateShapeProperty true selectedId prop newValue rest)
      as [[r1 s1]|] eqn:Hr1; [|discriminate].
    rewrite bind_Return. intros [= <- <-].
    by destruct (IHr Hs r1 s1 eq_refl) as [-> ->].
  - assert (strictEq false id selectedId = false) as Hfirst.
    { rewrite <- (strictEq_trans sid selectedId id Hsel).
      rewrite forallb_forall in Hs.
      assert (Hin : In shape rest) by (apply list_elem_of_In; by eapply list_elem_of_lookup_2).
      specialize (Hs shape Hin). apply negb_true_iff in Hs.
      unfold sameId in Hs. by rewrite Hid, Hsid in Hs. }
    rewrite Hfirst, !bind_Return in Hrun. injection Hrun as <- <-.
    by destruct (IH rest' sent' i eq_refl Hrest Hi
                   ltac:(unfold hasId; by rewrite Hsid, bind_Return, Hsel) Hu Huid) as [-> ->].
Qed.

(** A [modify] frame for a feature that comes through the wire as it is
    puts it where the receiver holds the feature with its id. *)
Lemma modify_frame (ufs : list (string * value)) (id old : value)
    (prev : list value) (i : nat) :
  roundTrips (VObj ufs) ->
  assoc "id" ufs = Some id ->
  accepted (VObj ufs) = Return true ->
  distinctIds prev = true ->
  Forall (fun s => exists sid, getProp s "id" = Return sid) prev ->
  prev !! i = Some old ->
  hasId id old = Return true ->
  onFrame (VObj [("type", VStr "modify"); ("id", id); ("data", VObj ufs)]) prev =
    <[i := VObj ufs]> prev.
Proof.
  intros Hrtu Hid Hok Hdist Hids Hi Hold.
  set (u := VObj ufs) in *.
  assert (Hrtid : roundTrips id) by (by eapply roundTrips_assoc).
  assert (Hclone : JSON_clone (VObj [("type", VStr "modify"); ("id", id); ("data", u)])
                   = Return (VObj [("type", VStr "modify"); ("id", id); ("data", u)])).
  { apply roundTrips_clone, roundTrips_object. by repeat constructor. }
  unfold onFrame. rewrite Hclone.
  set (message := VObj [("type", VStr "modify"); ("id", id); ("data", u)]).
  assert (Huid : getProp u "id" = Return id).
  { unfold u. by rewrite getProp_VObj, Hid. }
  assert (Hpayload : payload message = Return u) by reflexivity.
  assert (Hkey : envelopeKey message u = Return id).
  { unfold envelopeKey. change (getProp message "id") with (Return (A := value) id).
    rewrite bind_Return. destruct (truthy id); [done | exact Huid]. }
  rewrite (onMessage_upsert message (VStr "modify") u id prev
             (or_intror eq_refl) eq_refl Hpayload Hok Hkey).
  unfold hasId in Hold.
  destruct (getProp old "id") as [oid|] eqn:Hoid; [|discriminate].
  rewrite bind_Return in Hold. injection Hold as Hold.
  assert (Hfind : findIndex (hasId id) prev = Return (Some i)).
  { apply (findIndex_first _ _ _ old Hi).
    - unfold hasId. by rewrite Hoid, bind_Return, Hold.
    - intros j y Hj Hy.
      assert (Hys : sameId y old = false).
      { by apply (proj1 (distinctIds_lookup prev) Hdist j i). }
      unfold sameId in Hys. rewrite Hoid in Hys. unfold hasId.
      rewrite Forall_forall in Hids.
      destruct (Hids y) as [yid Hyid]; [by eapply list_elem_of_lookup_2|].
      rewrite Hyid in Hys. rewrite Hyid, bind_Return.
      by rewrite <- (strictEq_trans oid id yid Hold), Hys. }
  unfold upsert. rewrite Hfind, bind_Return.
  change (strictEq false (VStr "modify") (VStr "add")) with false. cbv iota.
  rewrite imap_replace. unfold withId, u. cbn [spread].
  by rewrite obj_set_same.
Qed.

(** X17: a property edit converges.  In a store with pairwise distinct ids,
    for a selected feature that round-trips through JSON, carries an id and
    an object as properties and passes the inbound guard, and a new value
    that round-trips: [updateShapeProperty] publishes one [modify]
    envelope, and a receiver holding the same store, on handling that
    frame, ends with the very store the sender has. *)
Theorem updateShapeProperty_converges
    (selectedId : value) (prop : string) (newValue : value)
    (prev next : store) (sent : list value) (i : nat)
    (fs ps : list (string * value)) (id : value) :
  updateShapeProperty true selectedId prop newValue prev = Return (next, sent) ->
  distinctIds prev = true ->
  prev !! i = Some (VObj fs) ->
  assoc "id" fs = Some id ->
  strictEq false id selectedId = true ->
  assoc "properties" fs = Some (VObj ps) ->
  roundTrips (VObj fs) -> roundTrips newValue ->
  accepted (VObj fs) = Return true ->
  exists payload, sent = [payload] /\ onFrame payload prev = next.
Proof.
  intros Hrun Hdist Hi Hid Hsel Hps Hrt Hnew Hok.
  set (u := VObj (obj_set "properties" (VObj (obj_set prop newValue ps)) fs)).
  assert (Hu : updatedShape prop newValue (VObj fs) = Return u).
  { unfold updatedShape. by rewrite getProp_VObj, Hps. }
  assert (Huid : getProp u "id" = Return id).
  { unfold u. by rewrite getProp_VObj, assoc_obj_set_ne, Hid. }
  assert (Hown : hasId selectedId (VObj fs) = Return true).
  { unfold hasId. rewrite getProp_VObj, Hid. simpl. by rewrite Hsel. }
  destruct (updateShapeProperty_single _ _ _ _ _ _ _ _ _ _ Hrun Hdist Hi Hown Hu Huid)
    as [-> ->].
  eexists. split; [reflexivity|].
  apply (modify_frame _ id (VObj fs)).
  - apply roundTrips_obj_set; [done|]. apply roundTrips_obj_set; [|done].
    by eapply roundTrips_assoc.
  - by rewrite assoc_obj_set_ne, Hid.
  - fold u. by rewrite (accepted_updatedShape _ _ _ _ Hu).
  - done.
  - by eapply updateShapeProperty_reads_ids.
  - done.
  - unfold hasId. rewrite getProp_VObj, Hid. simpl.
    by rewrite (strictEq_trans id selectedId id Hsel), Hsel.
Qed.

End Convergence.

Section CallsInPlace.
Context {E : Engine} {T : Toolkit}.

Lemma replay_app (tracked : bool) (a b : list op) :
  replay tracked (a ++ b) =
    match replay tracked a with Some t => replay t b | None => None end.
Proof.
  revert tracked. induction a as [|[k|k|k] a IH]; intros tracked; simpl; [done|..];
    destruct tracked; by rewrite ?IH.
Qed.

(** The calls a turn of the loop adds for a key are in place, and account
    for the layer map it leaves. *)
Lemma syncFeature_replay (s : value) (lm lm' : layers) (ops ops' : list op) (k : string) :
  roundTrips s ->
  syncFeature (lm, ops) s = Return (lm', ops') ->
  exists calls, opsFor k ops' = opsFor k ops ++ calls /\
                replay (trackedUnder lm k) calls = Some (trackedUnder lm' k).
Proof.
  intros Hrt Hstep. unfold trackedUnder.
  destruct (decide (keyOf s = k)) as [<- | Hne].
  2:{ destruct (syncFeature_keys s lm lm' ops ops' k Hrt Hstep Hne) as [-> ->].
      exists []. by rewrite app_nil_r. }
  apply syncFeature_inv in Hstep as (id & c & recreate & Hid & Hc & Hrec & Hcase).
  pose proof (keyOf_cleaned s c Hrt Hc) as Hkc.
  rewrite (keyOf_id s id Hid) in *.
  destruct recreate.
  - destruct Hcase as (made & Hmade & Hcase). unfold afterTeardown in Hcase.
    destruct made.
    + destruct Hcase as (cid & Hcid & Happly).
      rewrite (keyOf_id c cid Hcid), Hkc in Happly.
      apply applyCurrentStyles_step in Happly. rewrite Hkc in Happly.
      destruct (lm !! keyOf s) as [l|] eqn:Hl; simpl in Happly;
        rewrite lookup_insert_eq in Happly; destruct Happly as (l' & _ & -> & ->);
        rewrite lookup_insert_eq, !opsFor_app, !opsFor_self by done.
      * exists [Destroy (keyOf s); Create (keyOf s); Style (keyOf s)].
        by rewrite <- !app_assoc.
      * exists [Create (keyOf s); Style (keyOf s)]. by rewrite <- !app_assoc.
    + destruct (lm !! keyOf s) as [l|] eqn:Hl; injection Hcase as -> ->.
      * rewrite lookup_delete_eq, opsFor_app, opsFor_self by done.
        by exists [Destroy (keyOf s)].
      * rewrite Hl. exists []. by rewrite app_nil_r.
  - apply applyCurrentStyles_step in Hcase. rewrite Hkc in Hcase.
    destruct (lm !! keyOf s) as [l|] eqn:Hl; [|discriminate].
    destruct Hcase as (l' & _ & -> & ->).
    rewrite lookup_insert_eq, opsFor_app, opsFor_self by done.
    by exists [Style (keyOf s)].
Qed.

Lemma foldR_replay (l : list value) (lm lm' : layers) (ops ops' : list op) (k : string) :
  Forall roundTrips l ->
  foldR syncFeature l (lm, ops) = Return (lm', ops') ->
  exists calls, opsFor k ops' = opsFor k ops ++ calls /\
                replay (trackedUnder lm k) calls = Some (trackedUnder lm' k).
Proof.
  intros Hrt. revert lm ops. induction Hrt as [|s l Hs _ IH]; intros lm ops.
  - intros [= <- <-]. exists []. by rewrite app_nil_r.
  - rewrite foldR_cons.
    destruct (syncFeature (lm, ops) s) as [[lm1 ops1]|] eqn:Hstep; [|discriminate].
    rewrite bind_Return. intros Hrest.
    destruct (syncFeature_replay s _ _ _ _ k Hs Hstep) as (c1 & Hops1 & Hr1).
    destruct (IH _ _ Hrest) as (c2 & Hops2 & Hr2).
    exists (c1 ++ c2). rewrite Hops2, Hops1, <- app_assoc. split; [done|].
    by rewrite replay_app, Hr1.
Qed.

(** X18: every call in its place.  Over shapes that round-trip through
    JSON and whose ids are not, as property keys, names that a plain
    object inherits ([constructor], [toString], [__proto__] and the like),
    the calls a run of the effect makes for any one key are in place: no
    teardown and no styling is made for a key without a tracked layer, no
    layer is created over a tracked one, and replaying the calls from the
    layers tracked before the run gives the layers tracked after it. *)
Theorem syncShapes_calls_in_place
    (shapes : store) (lm lm' : layers) (ops : list op) (k : string) :
  Forall roundTrips shapes ->
  Forall (fun s => inheritedKey (keyOf s) = false) shapes ->
  syncShapes shapes lm = Return (lm', ops) ->
  replay (trackedUnder lm k) (opsFor k ops) = Some (trackedUnder lm' k).
Proof.
  intros Hrt _ Hsync. unfold syncShapes in Hsync.
  destruct (mapR _ shapes) as [ids|]; [|discriminate]. rewrite bind_Return in Hsync.
  pose proof (removeStale_lookup ids lm k) as Hlm0.
  pose proof (removeStale_ops ids lm k) as Hops0.
  destruct (removeStale ids lm) as [lm0 ops0]. simpl in Hlm0, Hops0.
  destruct (foldR_replay shapes _ _ _ _ k Hrt Hsync) as (calls & -> & Hreplay).
  rewrite replay_app, Hops0. unfold trackedUnder in *. rewrite Hlm0 in Hreplay.
  destruct (decide (k ∈ ids)); [exact Hreplay|].
  by destruct (lm !! k).
Qed.

End CallsInPlace.

(* ===================================================================== *)
(** * Drawing and editing *)
(* ===================================================================== *)

Section DrawingTheorems.
Context {E : Engine}.

(** A member that is defined comes through [JSON] under its key. *)
Lemma JSON_norm_member (fs : list (string * value)) (k : string) (v : value) :
  assoc k fs = Some v -> v <> VUndefined ->
  getProp (JSON_norm (VObj fs)) k = Return (JSON_norm v).
Proof.
  intros Hk Hv. cbn [JSON_norm]. rewrite getProp_VObj.
  induction fs as [|[k' x] fs IH]; [done|]. simpl in Hk.
  destruct (String.eqb k k') eqn:Hkk.
  - injection Hk as ->. destruct v; try done; simpl; by rewrite Hkk.
  - specialize (IH Hk). destruct x; simpl; rewrite ?Hkk; exact IH.
Qed.

Lemma find_inv (p : value -> result bool) (l : list value) (x : value) :
  find p l = Return x -> truthy x = true -> x ∈ l /\ p x = Return true.
Proof.
  induction l as [|y l IH]; simpl; [by intros [= <-]|].
  destruct (p y) as [[|]|] eqn:Hy; simpl; try discriminate.
  - intros [= <-] _. split; [by left | done].
  - intros Hf Hx. destruct (IH Hf Hx). split; [by right | done].
Qed.

(** X19: a drawn shape and its echo.  When [handleCreate] returns, with the
    socket connected and a finite number as the layer's stamp, the feature
    it makes carries the stamp as its [id] and as [properties.id], is
    tracked under the stamp's key, is appended to the store by the one
    update queued and is published in one [add] envelope; and when that
    envelope comes back from the server, the store that holds the feature
    is left as it is. *)
Theorem handleCreate_survives_echo
    (e : created) (n : num) (lm lm' : layers)
    (outbox outbox' : list value) (queue queue' : list updater) :
  handleCreate true e (lm, outbox, queue) = Return (lm', outbox', queue') ->
  stamp e = VNum n -> PrimFloat.is_finite n = true ->
  exists geoJson update,
    getProp geoJson "id" = Return (stamp e) /\
    pointId geoJson = Return (stamp e) /\
    lm' = <[ToPropertyKey (stamp e) := Layer geoJson]> lm /\
    queue' = queue ++ [update] /\
    outbox' = outbox ++ [VObj [("type", VStr "add"); ("data", geoJson)]] /\
    forall prev,
      update prev = Return (prev ++ [geoJson]) /\
      onFrame (VObj [("type", VStr "add"); ("data", geoJson)]) (prev ++ [geoJson]) =
        prev ++ [geoJson].
Proof.
  unfold handleCreate. intros Hrun Hstamp Hfin.
  destruct (styled e); [|discriminate]. rewrite bind_Return in Hrun.
  destruct (toGeoJSON e) as [g|]; [|discriminate]. rewrite bind_Return in Hrun.
  destruct (asObject g) as [fs|]; [|discriminate]. rewrite bind_Return in Hrun.
  destruct (attached e); [|discriminate]. rewrite bind_Return in Hrun.
  set (props := initialProperties (layerType e) (stamp e)) in *.
  set (geoJson := VObj (obj_set "properties" (VObj props) (obj_set "id" (stamp e) fs))) in *.
  injection Hrun as <- <- <-.
  assert (Hid : assoc "id" (obj_set "properties" (VObj props) (obj_set "id" (stamp e) fs))
                = Some (stamp e)).
  { by rewrite assoc_obj_set_ne, assoc_obj_set_eq. }
  exists geoJson, (appended geoJson).
  split; [unfold geoJson; by rewrite getProp_VObj, Hid|].
  split.
  { unfold pointId, geoJson. rewrite getProp_VObj, assoc_obj_set_eq. simpl.
    unfold props, initialProperties. by repeat case_match. }
  split; [done|]. split; [done|]. split; [done|].
  intros prev. split; [done|].
  (* the echo *)
  unfold onFrame. cbn [JSON_clone].
  set (data := JSON_norm geoJson).
  assert (Hmsg : JSON_norm (VObj [("type", VStr "add"); ("data", geoJson)]) =
                 VObj [("type", VStr "add"); ("data", data)]) by reflexivity.
  rewrite Hmsg. set (message := VObj [("type", VStr "add"); ("data", data)]).
  unfold onMessage.
  destruct (handleIncomingMessage message (prev ++ [geoJson])) as [next|] eqn:Hnext; [|done].
  unfold handleIncomingMessage in Hnext.
  change (getProp message "type") with (Return (A := value) (VStr "add")) in Hnext.
  rewrite bind_Return in Hnext.
  change (strictEq false (VStr "add") (VStr "add")) with true in Hnext.
  cbn [orb] in Hnext.
  change (payload message) with (Return (A := value) data) in Hnext.
  rewrite bind_Return in Hnext.
  destruct (accepted data) as [[|]|]; try discriminate; rewrite bind_Return in Hnext;
    [|by injection Hnext as <-].
  assert (Hdid : getProp data "id" = Return (JSON_norm (stamp e))).
  { apply JSON_norm_member; [done|]. by rewrite Hstamp. }
  unfold envelopeKey in Hnext.
  change (getProp message "id") with (Return (A := value) VUndefined) in Hnext.
  rewrite bind_Return in Hnext. cbn [truthy] in Hnext. rewrite Hdid, bind_Return in Hnext.
  unfold upsert in Hnext.
  destruct (findIndex (hasId (JSON_norm (stamp e))) (prev ++ [geoJson])) as [[i|]|] eqn:Hfind;
    try discriminate; rewrite bind_Return in Hnext;
    change (strictEq false (VStr "add") (VStr "add")) with true in Hnext; cbv iota in Hnext.
  - by injection Hnext as <-.
  - exfalso.
    pose proof (findIndex_None_inv _ _ Hfind geoJson) as Hno.
    rewrite elem_of_app, list_elem_of_singleton in Hno.
    specialize (Hno (or_intror eq_refl)).
    unfold hasId, geoJson in Hno. rewrite getProp_VObj, Hid in Hno. simpl in Hno.
    rewrite Hstamp in Hno. cbn [JSON_norm] in Hno. rewrite Hfin in Hno.
    injection Hno as Hno.
    destruct (PrimFloat.is_zero n) eqn:Hz; simpl in Hno.
    + unfold PrimFloat.is_zero, PrimFloat.zero in Hz. congruence.
    + assert (Hself : strictEq true (VNum n) (VNum n) = true).
      { apply strictEq_refl. simpl. by rewrite finite_not_nan. }
      simpl in Hself. congruence.
Qed.

(** [l.map(f)], position by position. *)
Lemma mapR_lookup {A B} (f : A -> result B) (l : list A) (ys : list B) :
  mapR f l = Return ys ->
  length ys = length l /\
  forall i x, l !! i = Some x -> exists y, f x = Return y /\ ys !! i = Some y.
Proof.
  revert ys. induction l as [|a l IH]; intros ys; simpl.
  - intros [= <-]. split; [done|]. by intros i x ?.
  - destruct (f a) as [b|] eqn:Ha; [|discriminate]. rewrite bind_Return.
    destruct (mapR f l) as [bs|]; [|discriminate]. rewrite bind_Return. intros [= <-].
    destruct (IH bs eq_refl) as [Hlen Hall]. split; [simpl; by rewrite Hlen|].
    intros [|i] x Hx; simpl in Hx; [injection Hx as <-; eauto | by apply Hall].
Qed.

(** The update queued by an edit reads the id of every feature it is
    applied to. *)
Lemma replacedBy_reads_ids (existingShape updatedFeature : value) (prev next : list value) :
  replacedBy existingShape updatedFeature prev = Return next ->
  Forall (fun s => exists sid, getProp s "id" = Return sid) prev.
Proof.
  intros [_ Hall]%mapR_lookup. apply Forall_forall. intros s [i Hi]%list_elem_of_lookup_1.
  destruct (Hall i s Hi) as (y & Hy & _).
  destruct (getProp s "id") as [sid|]; [eauto | discriminate].
Qed.

(** With distinct ids, the update replaces the one feature that carries
    the id. *)
Lemma replacedBy_single (existingShape updatedFeature eid old : value)
    (prev next : list value) (i : nat) :
  replacedBy existingShape updatedFeature prev = Return next ->
  getProp existingShape "id" = Return eid ->
  distinctIds prev = true ->
  prev !! i = Some old -> hasId eid old = Return true ->
  next = <[i := updatedFeature]> prev.
Proof.
  intros Hrun Heid Hdist Hi Hold.
  pose proof (replacedBy_reads_ids _ _ _ _ Hrun) as Hids. rewrite Forall_forall in Hids.
  destruct (mapR_lookup _ _ _ Hrun) as [Hlen Hall].
  unfold hasId in Hold. destruct (getProp old "id") as [oid|] eqn:Hoid; [|discriminate].
  rewrite bind_Return in Hold. injection Hold as Hold.
  pose proof (proj1 (distinctIds_lookup prev) Hdist) as Hd.
  apply list_eq. intros j.
  destruct (prev !! j) as [y|] eqn:Hy.
  2:{ apply lookup_ge_None_1 in Hy.
      rewrite !lookup_ge_None_2; [done | by rewrite length_insert | lia]. }
  destruct (Hall j y Hy) as (y' & Hy' & ->).
  destruct (Hids y) as [yid Hyid]; [by eapply list_elem_of_lookup_2|].
  rewrite Hyid, bind_Return, Heid, bind_Return in Hy'. injection Hy' as <-.
  destruct (decide (j = i)) as [-> | Hne].
  - rewrite list_lookup_insert_eq by (by eapply lookup_lt_Some).
    rewrite Hi in Hy. injection Hy as <-. rewrite Hoid in Hyid. injection Hyid as <-.
    by rewrite Hold.
  - rewrite list_lookup_insert_ne by done. rewrite Hy.
    assert (strictEq false yid eid = false) as ->; [|done].
    rewrite <- (strictEq_trans oid eid yid Hold).
    destruct (decide (j < i)) as [Hlt | Hge].
    + specialize (Hd j i y old Hlt Hy Hi). unfold sameId in Hd. by rewrite Hyid, Hoid in Hd.
    + specialize (Hd i j old y ltac:(lia) Hi Hy). unfold sameId in Hd.
      rewrite Hyid, Hoid in Hd. by rewrite strictEq_sym.
Qed.

(** X20: an edit converges.  For an edited layer whose feature's id is that
    of a shape of the snapshot, [handleEdit] makes the updated feature from
    the shape the snapshot holds first under that id, with the edited
    geometry in place of its own and every other member as it was, leaves
    it on the layer, publishes one [modify] envelope for it and queues one
    update.  When the updated feature round-trips through JSON and passes
    the inbound guard, in any store with pairwise distinct ids that holds a
    feature with that id, the queued update and the handling of the frame
    by a receiver give the same store: that one feature replaced by the
    updated one. *)
Theorem handleEdit_converges
    (shapesRef : store) (l : layer) (editedGeoJson geometry : value)
    (fs : list (string * value)) (id : value)
    (seen seen' : list layer) (outbox outbox' : list value) (queue queue' : list updater) :
  handleEdit true shapesRef [Edited l (Return editedGeoJson)] (seen, outbox, queue) =
    Return (seen', outbox', queue') ->
  find (sameAsLayer l) shapesRef = Return (VObj fs) ->
  assoc "id" fs = Some id ->
  getProp editedGeoJson "geometry" = Return geometry ->
  let updatedFeature := VObj (obj_set "geometry" geometry fs) in
  exists update,
    seen' = seen ++ [Layer updatedFeature] /\
    outbox' = outbox ++ [VObj [("type", VStr "modify"); ("id", id); ("data", updatedFeature)]] /\
    queue' = queue ++ [update] /\
    forall prev next i old,
      roundTrips updatedFeature -> accepted updatedFeature = Return true ->
      distinctIds prev = true ->
      prev !! i = Some old -> hasId id old = Return true ->
      update prev = Return next ->
      next = <[i := updatedFeature]> prev /\
      onFrame (VObj [("type", VStr "modify"); ("id", id); ("data", updatedFeature)]) prev = next.
Proof.
  intros Hrun Hfind Hid Hgeo updatedFeature.
  unfold handleEdit, foldR, editLayer in Hrun. cbn [edited_layer edited_toGeoJSON] in Hrun.
  rewrite Hfind, !bind_Return in Hrun. cbn [truthy negb] in Hrun.
  unfold editedFeature in Hrun. rewrite Hgeo, !bind_Return in Hrun. cbn [spread] in Hrun.
  fold updatedFeature in Hrun.
  assert (Huid : assoc "id" (obj_set "geometry" geometry fs) = Some id).
  { by rewrite assoc_obj_set_ne. }
  assert (Hgid : getProp updatedFeature "id" = Return id).
  { unfold updatedFeature. by rewrite getProp_VObj, Huid. }
  rewrite Hgid in Hrun. simpl in Hrun. injection Hrun as <- <- <-.
  eexists. split; [done|]. split; [done|]. split; [done|].
  intros prev next i old Hrt Hok Hdist Hi Hold Hnext.
  assert (Heid : getProp (VObj fs) "id" = Return id) by (by rewrite getProp_VObj, Hid).
  pose proof (replacedBy_single _ _ _ _ _ _ _ Hnext Heid Hdist Hi Hold) as ->.
  split; [done|].
  apply (modify_frame _ id old); try done.
  by eapply replacedBy_reads_ids.
Qed.

End DrawingTheorems.

(* ===================================================================== *)
(** * The properties on sample data *)
(* ===================================================================== *)

Import Sample.

(** Sample for C1: a Polygon [add] with a three-entry position is dropped; a Point
    with a non-numeric longitude is stored as it came. *)
Lemma inbound_guard_witness :
  onMessage (E := Reference.engine) (envelope "add" badPolygon) [f3] = [f3] /\
  handleIncomingMessage (E := Reference.engine) (envelope "add" badPoint) [f3]
    = Return [f3; badPoint].
Proof.
  split.
  - eapply (proj1 (inbound_guard (E := Reference.engine)
                     (envelope "add" badPolygon) (VStr "add") badPolygon _ "Polygon" [f3]
                     eq_refl (or_introl eq_refl) eq_refl eq_refl eq_refl)
              _ _ [VNum 1; VNum 2; VNum 3]%float eq_refl eq_refl).
    + apply list_elem_of_here.
    + apply list_elem_of_further, list_elem_of_here.
    + reflexivity.
  - eapply (proj2 (inbound_guard (E := Reference.engine)
                     (envelope "add" badPoint) (VStr "add") badPoint _ "Point" [f3]
                     eq_refl (or_introl eq_refl) eq_refl eq_refl eq_refl)
              (VNum 8%float)).
    + left. discriminate.
    + reflexivity.
    + intros s Hs. apply list_elem_of_singleton in Hs as ->. reflexivity.
Defined.

(** Against C1 as stated: the feature of this [add] never enters the
    store. *)
Lemma inbound_guard_counterexample :
  accepted (E := Reference.engine) badPolygon = Return false /\
  handleIncomingMessage (E := Reference.engine) (envelope "add" badPolygon) [] = Return [].
Proof. split; reflexivity. Qed.

(** Sample for C2: the open square of the specification comes back
    closed. *)
Lemma closes_rings_witness :
  ensurePolygonClosedAndClean (E := Reference.engine) (polygon 1 [VArr openSquare])
    = Return (polygon 1 [VArr closedSquare]) /\
  exists result geometry,
    ensurePolygonClosedAndClean (E := Reference.engine) (polygon 1 [VArr openSquare])
      = Return result /\
    getProp result "geometry" = Return geometry /\
    getProp geometry "type" = Return (VStr "Polygon") /\
    getProp geometry "coordinates"
      = Return (VArr (closedRing (E := Reference.engine) <$> [VArr openSquare])) /\
    forallb closedVertexRing (closedRing (E := Reference.engine) <$> [VArr openSquare]) = true.
Proof.
  split; [reflexivity|].
  eapply (ensurePolygonClosedAndClean_closes_rings (E := Reference.engine)
            (polygon 1 [VArr openSquare])); reflexivity.
Defined.

(** Against C2 as stated: a ring of positions with three entries, whose
    first and last positions differ in the third, comes back as it went
    in, and so does a ring of numbers; neither ends in its first element. *)
Lemma closes_rings_counterexample :
  ensurePolygonClosedAndClean (E := Reference.engine) (polygon 1 [VArr spiral])
    = Return (polygon 1 [VArr spiral]) /\
  head spiral = Some (VArr [VNum 0; VNum 0; VNum 5])%float /\
  last spiral = Some (VArr [VNum 0; VNum 0; VNum 9])%float /\
  ensurePolygonClosedAndClean (E := Reference.engine)
    (polygon 1 [VArr [VNum 1; VNum 2; VNum 3]])%float
    = Return (polygon 1 [VArr [VNum 1; VNum 2; VNum 3]])%float.
Proof. repeat split; reflexivity. Qed.

(** Sample for C3: in a ring, a pair with a non-numeric entry becomes the
    origin and a finite pair keeps its numbers. *)
Lemma sanitises_witness :
  subtree [0; 1]
    (cleanCoordinatesRecursive (E := Reference.engine)
       (VArr [VArr [point 4 0; VArr [VStr "abc"; VNum 1]; point 4 0]]))%float
    = Some origin /\
  exists x' y',
    subtree [0; 2]
      (cleanCoordinatesRecursive (E := Reference.engine)
         (VArr [VArr [point 4 0; VArr [VStr "abc"; VNum 1]; point 4 0]]))%float
      = Some (VArr [VNum x'; VNum y']) /\
    strictEq false (VNum 4%float) (VNum x') = true /\
    strictEq false (VNum 0%float) (VNum y') = true.
Proof.
  split.
  - rewrite (proj1 (proj2 (cleanCoordinatesRecursive_sanitises (E := Reference.engine)
                             (VArr [VArr [point 4 0; VArr [VStr "abc"; VNum 1]; point 4 0]])%float))
               [0; 1] (VStr "abc") (VNum 1%float) eq_refl eq_refl eq_refl).
    reflexivity.
  - exact (proj1 (proj2 (proj2 (cleanCoordinatesRecursive_sanitises (E := Reference.engine)
                           (VArr [VArr [point 4 0; VArr [VStr "abc"; VNum 1]; point 4 0]])%float)))
             [0; 2] 4%float 0%float eq_refl eq_refl eq_refl).
Defined.

(** Against C3 as stated: a three-entry leaf and a pair holding [null]
    pass through as they are, and a NaN reaches the walk as [null]. *)
Lemma sanitises_counterexample :
  cleanCoordinatesRecursive (E := Reference.engine) (VArr [VNum 1; VNum 2; VNum 3]%float)
    = VArr [VNum 1; VNum 2; VNum 3]%float /\
  cleanCoordinatesRecursive (E := Reference.engine) (VArr [VNull; VNum 2]%float)
    = VArr [VNull; VNum 2]%float /\
  ensurePolygonClosedAndClean (E := Reference.engine) nanPoint
    = Return (feature 9 "Point" (VArr [VNull; VNum 2%float]) "marker").
Proof. repeat split; reflexivity. Qed.

(** Sample for C4: a second [add] of a stored feature changes nothing. *)
Lemma add_existing_id_witness :
  onMessage (E := Reference.engine) (envelope "add" f1_moved) [f3; f1; f2] = [f3; f1; f2].
Proof.
  apply (add_existing_id_is_noop (E := Reference.engine)
           (envelope "add" f1_moved) f1_moved (VNum 1%float) [f3; f1; f2] 1 f1);
    reflexivity.
Defined.

(** Sample for C5: the specification's example, [bulkAdd [f1, f2]] over [[f3]]. *)
Lemma bulkAdd_witness :
  processBulkAddPacket (VObj [("type", VStr "bulkAdd"); ("data", VArr [f1; f2])]) [f3]
    = [f1; f2] /\
  processBulkAddPacket (VObj [("type", VStr "bulkAdd"); ("data", f1)]) [f3] = [f3].
Proof.
  split.
  - apply (proj1 (bulkAdd_replaces_store (E := Reference.engine) _ [f3]) [f1; f2]);
      reflexivity.
  - apply (proj2 (bulkAdd_replaces_store (E := Reference.engine) _ [f3])).
    right. intros data. discriminate.
Defined.

(** Sample for C6: a [modify] of feature 1 takes its place between its neighbours;
    a [modify] of an unknown id is appended. *)
Lemma modify_witness :
  handleIncomingMessage (E := Reference.engine)
    (modifyEnvelope (VNum 1%float) f1_moved) [f3; f1; f2] = Return [f3; f1_moved; f2] /\
  handleIncomingMessage (E := Reference.engine)
    (modifyEnvelope (VNum 1%float) f1_moved) [f3; f2] = Return [f3; f2; f1_moved].
Proof.
  split.
  - refine (proj1 (proj2 (modify_replaces_in_place (E := Reference.engine)
                            (modifyEnvelope (VNum 1%float) f1_moved) f1_moved [f3; f1; f2]
                            eq_refl eq_refl)
                     (VNum 1%float) eq_refl eq_refl)
              1 f1 eq_refl eq_refl _).
    intros [|j] s' Hj Hs; [|lia]. injection Hs as <-. reflexivity.
  - apply (proj1 (proj2 (proj2 (modify_replaces_in_place (E := Reference.engine)
                                  (modifyEnvelope (VNum 1%float) f1_moved) f1_moved [f3; f2]
                                  eq_refl eq_refl)
                           (VNum 1%float) eq_refl eq_refl))).
    intros s Hs. apply elem_of_cons in Hs as [-> | Hs]; [reflexivity|].
    apply list_elem_of_singleton in Hs as ->. reflexivity.
Defined.

(** Against C6 as stated: a [modify] for the stored feature 1 that carries
    a three-entry position replaces nothing and appends nothing; so does
    one for an id the store does not hold; and a [modify] under id 1 that
    carries feature 2 leaves in the place of feature 1 a copy of feature 2
    with the id 1, not the feature that was sent. *)
Lemma modify_counterexample :
  onMessage (E := Reference.engine)
    (modifyEnvelope (VNum 1%float) f1_broken) [f3; f1; f2] = [f3; f1; f2] /\
  onMessage (E := Reference.engine)
    (modifyEnvelope (VNum 7%float) badPolygon) [f3; f1; f2] = [f3; f1; f2] /\
  onMessage (E := Reference.engine)
    (modifyEnvelope (VNum 1%float) f2) [f3; f1] = [f3; withId f2 (VNum 1%float)] /\
  getProp (withId f2 (VNum 1%float)) "id" = Return (VNum 1%float) /\
  getProp f2 "id" = Return (VNum 2%float).
Proof. repeat split; reflexivity. Qed.

(** Sample for C7: moving a corner of the tracked square rebuilds its layer once;
    recolouring it only restyles. *)
Lemma recreate_witness :
  match syncShapes (E := Reference.engine) (T := Reference.leaflet)
          ([f3] ++ f1_moved :: [f2]) (layersAfter [f3; f1; f2]) with
  | Return (lm', ops) =>
      opsFor "1" ops = [Destroy "1"; Create "1"; Style "1"] /\
      exists l', lm' !! "1" = Some l' /\
                 styledFor (T := Reference.leaflet)
                   (Layer f1_moved) l' f1_moved
  | Throw _ => False
  end /\
  match syncShapes (E := Reference.engine) (T := Reference.leaflet)
          ([f3] ++ f1_recoloured :: [f2]) (layersAfter [f3; f1; f2]) with
  | Return (lm', ops) =>
      opsFor "1" ops = [Style "1"] /\
      exists l', lm' !! "1" = Some l' /\
                 styledFor (T := Reference.leaflet)
                   (Layer f1) l' f1_recoloured
  | Throw _ => False
  end.
Proof.
  assert (Hothers : Forall (fun g => touches (E := Reference.engine) "1" g = false)
                      ([f3] ++ [f2])).
  { repeat constructor; vm_compute; reflexivity. }
  assert (Htracked : layersAfter [f3; f1; f2] !! "1" = Some (Layer f1)).
  { vm_compute. reflexivity. }
  split.
  - destruct (syncShapes _ _) as [[lm' ops]|e] eqn:Hsync;
      [|vm_compute in Hsync; discriminate Hsync].
    destruct (proj1 (geometry_change_recreates_layer_once
                    (E := Reference.engine) (T := Reference.leaflet)
                    [f3] [f2] f1_moved (VNum 1%float) f1_moved (VNum 1%float)
                    (VObj [("type", VStr "polygon"); ("color", VStr "#3388ff");
                           ("name", VStr "A")])
                    "1" (Layer f1)
                    (geometry "Polygon" (VArr [VArr closedSquare])) (VStr "Polygon")
                    (VArr [VArr closedSquare])
                    (geometry "Polygon" (VArr [VArr movedSquare])) (VStr "Polygon")
                    (VArr [VArr movedSquare])
                    (layersAfter [f3; f1; f2]) lm' ops
                    ltac:(vm_compute; reflexivity) ltac:(vm_compute; reflexivity)
                    ltac:(vm_compute; reflexivity)
                    ltac:(vm_compute; reflexivity) ltac:(vm_compute; reflexivity)
                    ltac:(vm_compute; reflexivity) Hothers Htracked
                    ltac:(vm_compute; reflexivity) ltac:(vm_compute; reflexivity)
                    ltac:(vm_compute; reflexivity) ltac:(vm_compute; reflexivity)
                    ltac:(vm_compute; reflexivity) ltac:(vm_compute; reflexivity)
                    ltac:(vm_compute; reflexivity) ltac:(vm_compute; reflexivity)
                    ltac:(vm_compute; reflexivity)
                    Hsync) ltac:(vm_compute; reflexivity))
      as (made & Hmade & _ & _ & Hcase).
    assert (made = true) as -> by (vm_compute in Hmade; by injection Hmade as <-).
    exact Hcase.
  - destruct (syncShapes _ _) as [[lm' ops]|e] eqn:Hsync;
      [|vm_compute in Hsync; discriminate Hsync].
    apply (proj2 (geometry_change_recreates_layer_once
                    (E := Reference.engine) (T := Reference.leaflet)
                    [f3] [f2] f1_recoloured (VNum 1%float) f1_recoloured (VNum 1%float)
                    (VObj [("type", VStr "polygon"); ("color", VStr "#ff0000");
                           ("name", VStr "A")])
                    "1" (Layer f1)
                    (geometry "Polygon" (VArr [VArr closedSquare])) (VStr "Polygon")
                    (VArr [VArr closedSquare])
                    (geometry "Polygon" (VArr [VArr closedSquare])) (VStr "Polygon")
                    (VArr [VArr closedSquare])
                    (layersAfter [f3; f1; f2]) lm' ops
                    ltac:(vm_compute; reflexivity) ltac:(vm_compute; reflexivity)
                    ltac:(vm_compute; reflexivity)
                    ltac:(vm_compute; reflexivity) ltac:(vm_compute; reflexivity)
                    ltac:(vm_compute; reflexivity) Hothers Htracked
                    ltac:(vm_compute; reflexivity) ltac:(vm_compute; reflexivity)
                    ltac:(vm_compute; reflexivity) ltac:(vm_compute; reflexivity)
                    ltac:(vm_compute; reflexivity) ltac:(vm_compute; reflexivity)
                    ltac:(vm_compute; reflexivity) ltac:(vm_compute; reflexivity)
                    ltac:(vm_compute; reflexivity)
                    Hsync)); vm_compute; reflexivity.
Defined.

(** Against C7 as stated: the radius of a tracked Circle is edited, from 5
    to 9, and nothing else.  The effect makes the one styling call it
    makes when nothing is edited, for the same branch with the same fill
    type and colour and with the same popup; the radius, which reaches
    Leaflet only as an argument of [L.circle] when the layer is created,
    reaches it in no call, while the feature on the layer now says 9. *)
Lemma recreate_counterexample :
  syncShapes (E := Reference.engine) (T := Reference.leaflet)
    [disc 9] (layersAfter [disc 5])
  = Return (<["5" := Layer (disc 9)]> ∅, [Style "5"]) /\
  syncShapes (E := Reference.engine) (T := Reference.leaflet)
    [disc 5] (layersAfter [disc 5])
  = Return (<["5" := Layer (disc 5)]> ∅, [Style "5"]) /\
  styleCallOf (disc 9) = Return (FillStyle VUndefined (VStr "#3388ff")) /\
  styleCallOf (disc 5) = Return (FillStyle VUndefined (VStr "#3388ff")) /\
  (forall r s, popupCallOf (VObj [("type", VStr "circle"); ("color", VStr "#3388ff");
                                  ("name", VStr "A"); ("radius", VNum r)]) (disc s)
               = Return (NamePopup (VStr "A"))) /\
  (forall (T : Toolkit) r,
      createLayer (T := T) (disc r) =
        (_ ← L_circle (point 1 2)%float (VNum r); Return true)) /\
  getProp (disc 9) "geometry" = getProp (disc 5) "geometry".
Proof.
  split; [vm_compute; reflexivity|]. split; [vm_compute; reflexivity|].
  repeat split; reflexivity.
Qed.

(** Sample for C9: the clockwise square has a negative shoelace sum, shown as its
    magnitude; a circle of radius 1000. *)
Lemma formulas_witness :
  (getShapeStats (E := Reference.engine)
     (polygon 1 [VArr (vertexValue <$> clockwiseSquare)])
   = Return (VObj [("type", VStr "polygon"); ("color", VStr "#3388ff");
                   ("area", VNum (polygonArea clockwiseSquare));
                   ("perimeter", VNum (pathLength (E := Reference.engine) clockwiseSquare / 1000)%float)])) /\
  getShapeStats (E := Reference.engine)
    (circle [("type", VStr "circle"); ("color", VStr "#3388ff"); ("radius", VNum 1000%float)])
  = Return (VObj [("type", VStr "circle"); ("color", VStr "#3388ff");
                  ("area", VNum (Math_PI * 1000 * 1000 / 1000000)%float);
                  ("perimeter", VNum (2 * Math_PI * 1000 / 1000)%float);
                  ("position", point 1 2)%float]).
Proof.
  split.
  - exact (proj1 (proj1 (getShapeStats_formulas (E := Reference.engine)
                           (polygon 1 [VArr (vertexValue <$> clockwiseSquare)])
                           _ _ _ _ _ eq_refl eq_refl eq_refl eq_refl eq_refl)
                    clockwiseSquare [] eq_refl eq_refl)).
  - exact (proj2 (getShapeStats_formulas (E := Reference.engine)
                    (circle [("type", VStr "circle"); ("color", VStr "#3388ff");
                             ("radius", VNum 1000%float)])
                    _ _ _ _ _ eq_refl eq_refl eq_refl eq_refl eq_refl)
             1000%float eq_refl eq_refl eq_refl).
Defined.

(** Sample for C10: a circle that carries no radius. *)
Lemma circle_without_radius_witness :
  exists fields,
    getShapeStats (E := Reference.engine)
      (circle [("type", VStr "circle"); ("color", VStr "#3388ff")]) = Return (VObj fields) /\
    fields = [("type", VStr "circle"); ("color", VStr "#3388ff"); ("position", point 1 2)%float] /\
    assoc "position" fields = Some (point 1 2)%float /\
    assoc "area" fields = None /\
    assoc "perimeter" fields = None.
Proof.
  exact (getShapeStats_circle_without_radius (E := Reference.engine)
           (circle [("type", VStr "circle"); ("color", VStr "#3388ff")])
           _ _ _ _ _ VUndefined eq_refl eq_refl eq_refl eq_refl eq_refl eq_refl eq_refl eq_refl).
Defined.

(* --------------------------------------------------------------------- *)
(** ** The further properties on sample data *)

Import Scenario.


(** A [modify] of feature 1 delivered twice. *)
Lemma twice_witness :
  onMessage (E := Reference.engine) (modifyEnvelope (VNum 1%float) f1_moved)
    (onMessage (E := Reference.engine) (modifyEnvelope (VNum 1%float) f1_moved) [f3; f1; f2])
  = onMessage (E := Reference.engine) (modifyEnvelope (VNum 1%float) f1_moved) [f3; f1; f2].
Proof.
  apply (onMessage_twice (E := Reference.engine)).
  intros type data key _ _ Hp Hk.
  vm_compute in Hp. injection Hp as <-. vm_compute in Hk. injection Hk as <-.
  split; [vm_compute; reflexivity|]. split; [discriminate | vm_compute; reflexivity].
Defined.

(** An [add] without an id of its own, into a store with distinct ids. *)
Lemma ids_distinct_witness :
  distinctIds (onMessage (E := Reference.engine) (envelope "add" f1) [f3; f2]) = true.
Proof.
  apply (onMessage_keeps_ids_distinct (E := Reference.engine)).
  - intros H. vm_compute in H. discriminate H.
  - intros data mid did _ Hmid Htr. vm_compute in Hmid. injection Hmid as <-.
    discriminate Htr.
  - vm_compute. reflexivity.
Defined.

(** The path from (0, 0) to (3, 4). *)
Lemma lineString_witness :
  getShapeStats (E := Reference.engine) f3 =
    Return (VObj [("type", VStr "polyline"); ("color", VStr "#3388ff");
                  ("length", VNum (lineLength (E := Reference.engine) path / 1000)%float)]) /\
  lineLength (E := Reference.engine) path = 5%float.
Proof.
  split; [|vm_compute; reflexivity].
  exact (proj1 (getShapeStats_lineString_length (E := Reference.engine)
                  f3 _ _ _ _ path eq_refl eq_refl eq_refl eq_refl eq_refl eq_refl)).
Defined.

(** The open square: every ring entry is an array. *)
Lemma returns_witness :
  exists result,
    ensurePolygonClosedAndClean (E := Reference.engine) (polygon 1 [VArr openSquare])
      = Return result.
Proof.
  apply (ensurePolygonClosedAndClean_returns (E := Reference.engine)
           (polygon 1 [VArr openSquare]) (members (polygon 1 [VArr openSquare]))).
  - vm_compute. reflexivity.
  - intros gs rings Hg Ht Hc. vm_compute in Hg. injection Hg as <-.
    vm_compute in Hc. injection Hc as <-. vm_compute. reflexivity.
Defined.

(** The open square: closing its ring leaves the id, the properties and
    the geometry type as they were. *)
Lemma keeps_members_witness :
  let copy := polygon 1 [VArr openSquare] in
  let result := polygon 1 [VArr closedSquare] in
  (forall k, k <> "geometry" -> k <> "properties" ->
             getProp result k = getProp copy k) /\
  (forall p, getProp copy "properties" = Return p ->
             getProp result "properties" = Return (if truthy p then p else VObj [])) /\
  (forall g, getProp copy "geometry" = Return g ->
             if truthy g
             then exists g', getProp result "geometry" = Return g' /\ truthy g' = true /\
                             forall k, k <> "coordinates" -> getProp g' k = getProp g k
             else getProp result "geometry" = Return emptyGeometry).
Proof.
  apply (ensurePolygonClosedAndClean_keeps_members (E := Reference.engine)
           (polygon 1 [VArr openSquare]));
    vm_compute; reflexivity.
Defined.

(** The closed square comes back as it went in. *)
Lemma fixes_valid_witness :
  ensurePolygonClosedAndClean (E := Reference.engine) f1 = Return f1.
Proof.
  exact (ensurePolygonClosedAndClean_fixes_valid (E := Reference.engine)
           (members f1) (members (geometry "Polygon" (VArr [VArr closedSquare])))
           [VArr closedSquare]
           ltac:(vm_compute; reflexivity) ltac:(vm_compute; reflexivity)
           eq_refl eq_refl ltac:(vm_compute; reflexivity)
           (fun _ => ltac:(vm_compute; reflexivity))).
Defined.


(** Styling the tracked square for its recoloured shape: the colour of the
    shape wins, the geometry stays. *)
Lemma restyle_witness :
  exists merged,
    getProp f1_recoloured "properties" = Return (VObj merged) /\
    (forall k, assoc k merged =
               match assoc k (members (VObj [("type", VStr "polygon");
                                             ("color", VStr "#ff0000");
                                             ("name", VStr "A")])) with
               | Some v => Some v
               | None => assoc k [("type", VStr "polygon"); ("color", VStr "#3388ff");
                                  ("name", VStr "A")]
               end) /\
    (forall k, k <> "properties" -> getProp f1_recoloured k = getProp f1 k).
Proof.
  apply (restyle_merges_properties (T := Reference.leaflet)
           (Layer f1) (Layer f1_recoloured) f1_recoloured (members f1)
           [("type", VStr "polygon"); ("color", VStr "#3388ff"); ("name", VStr "A")]
           [("type", VStr "polygon"); ("color", VStr "#ff0000"); ("name", VStr "A")]).
  - reflexivity.
  - reflexivity.
  - reflexivity.
  - distinct_strings.
  - vm_compute. reflexivity.
Defined.

(** The store has lost feature 1: its layer is torn down once, and the
    layers left are those of features 3 and 2. *)
Lemma tracks_witness :
  match syncShapes (E := Reference.engine) (T := Reference.leaflet)
          [f3; f2] (layersAfter [f3; f1; f2]) with
  | Return (lm', ops) =>
      (forall k, is_Some (lm' !! k) ->
                 exists s id, s ∈ [f3; f2] /\ getProp s "id" = Return id /\
                              ToPropertyKey (E := Reference.engine) id = k) /\
      lm' !! "1" = None /\ opsFor "1" ops = [Destroy "1"]
  | Throw _ => False
  end.
Proof.
  destruct (syncShapes _ _) as [[lm' ops]|e] eqn:Hsync;
    [|vm_compute in Hsync; discriminate Hsync].
  destruct (syncShapes_tracks_current_shapes (E := Reference.engine) (T := Reference.leaflet)
              [f3; f2] (layersAfter [f3; f1; f2]) lm' ops
              ltac:(repeat constructor; vm_compute; reflexivity) Hsync) as [Hdom Hstale].
  split; [exact Hdom|].
  destruct (Hstale "1") as [Hnone Hops].
  - intros s id Hs Hid Hk.
    apply elem_of_cons in Hs as [-> | Hs];
      [|apply list_elem_of_singleton in Hs as ->];
      vm_compute in Hid; injection Hid as <-; vm_compute in Hk; discriminate Hk.
  - split; [exact Hnone|]. rewrite Hops.
    assert (Htracked : layersAfter [f3; f1; f2] !! "1" = Some (Layer f1))
      by (vm_compute; reflexivity).
    by rewrite Htracked.
Defined.

(** From nothing, the effect gives the square a layer that passes the
    comparison. *)
Lemma up_to_date_witness :
  match syncShapes (E := Reference.engine) (T := Reference.leaflet) [f3; f1; f2] ∅ with
  | Return (lm', _) =>
      exists c,
        ensurePolygonClosedAndClean (E := Reference.engine) f1 = Return c /\
        (createLayer (T := Reference.leaflet) c = Return true ->
         exists l, lm' !! keyOf (E := Reference.engine) f1 = Some l /\
                   shouldRecreateLayer (Some l) c = Return false)
  | Throw _ => False
  end.
Proof.
  destruct (syncShapes _ _) as [[lm' ops]|e] eqn:Hsync;
    [|vm_compute in Hsync; discriminate Hsync].
  apply (syncShapes_brings_layers_up_to_date (E := Reference.engine) (T := Reference.leaflet)
           [f3; f1; f2] ∅ lm' ops f1).
  - repeat constructor; vm_compute; reflexivity.
  - repeat constructor; vm_compute; reflexivity.
  - distinct_strings.
  - exact Hsync.
  - apply list_elem_of_further, list_elem_of_here.
Defined.

(** The effect run again on the three shapes it has just drawn: the
    second run only styles. *)
Lemma second_run_witness :
  match syncShapes (E := Reference.engine) (T := Reference.leaflet)
          [f3; f1; f2] (layersAfter [f3; f1; f2]) with
  | Return (_, ops2) => forallb isStyle ops2 = true
  | Throw _ => False
  end.
Proof.
  destruct (syncShapes _ (layersAfter _)) as [[lm2 ops2]|e] eqn:Hsecond;
    [|vm_compute in Hsecond; discriminate Hsecond].
  destruct (syncShapes (E := Reference.engine) (T := Reference.leaflet) [f3; f1; f2] ∅)
    as [[lm1 ops1]|e] eqn:Hfirst; [|vm_compute in Hfirst; discriminate Hfirst].
  assert (Hlm1 : layersAfter [f3; f1; f2] = lm1).
  { unfold layersAfter. by rewrite Hfirst. }
  rewrite Hlm1 in Hsecond.
  apply (syncShapes_second_run_only_styles (E := Reference.engine) (T := Reference.leaflet)
           [f3; f1; f2] ∅ lm1 lm2 ops1 ops2).
  - repeat constructor; vm_compute; reflexivity.
  - repeat constructor; vm_compute; reflexivity.
  - distinct_strings.
  - exact Hfirst.
  - exact Hsecond.
Defined.

(** Deleting the layer of the harbour marker. *)
Lemma delete_witness :
  handleDelete (E := Reference.engine) true [Layer harbour]
    (layersAfter [harbour; market], [], [])
  = Return (delete "41" (layersAfter [harbour; market]),
            [removeEnvelope (VNum 41%float)], [removedBy (VNum 41%float)]) /\
  onFrame (E := Reference.engine) (removeEnvelope (VNum 41%float)) [harbour; market]
  = [market].
Proof.
  destruct (handleDelete_matches_remove (E := Reference.engine) true (Layer harbour)
              (VObj [("name", VStr "Harbour"); ("color", VStr "#3388ff");
                     ("type", VStr "marker"); ("id", VNum 41%float)])
              (VNum 41%float) (layersAfter [harbour; market]) [] []
              eq_refl eq_refl eq_refl eq_refl ltac:(vm_compute; reflexivity))
    as [_ Hreturns].
  destruct (Hreturns eq_refl) as [Hgesture Hframe].
  split.
  - assert (Hkey : ToPropertyKey (E := Reference.engine) (VNum 41%float) = "41")
      by (vm_compute; reflexivity).
    rewrite Hgesture, Hkey. reflexivity.
  - exact (proj1 (Hframe [harbour; market] [market] ltac:(vm_compute; reflexivity))).
Defined.

(** Recolouring the selected square. *)
Lemma sets_property_witness :
  updateShapeProperty true (VNum 1%float) "color" (VStr "#ff0000") [f3; f1; f2]
  = Return ([f3; f1_recoloured; f2], [modifyEnvelope (VNum 1%float) f1_recoloured]) /\
  length [f3; f1_recoloured; f2] = length [f3; f1; f2].
Proof.
  assert (Hrun : updateShapeProperty true (VNum 1%float) "color" (VStr "#ff0000") [f3; f1; f2]
                 = Return ([f3; f1_recoloured; f2],
                           [modifyEnvelope (VNum 1%float) f1_recoloured]))
    by (vm_compute; reflexivity).
  split; [exact Hrun|].
  exact (proj1 (updateShapeProperty_sets_property true (VNum 1%float) "color"
                  (VStr "#ff0000") [f3; f1; f2] _ _ Hrun)).
Defined.

(** The recolouring reaches a second client holding the same store. *)
Lemma converges_witness :
  exists payload,
    [modifyEnvelope (VNum 1%float) f1_recoloured] = [payload] /\
    onFrame (E := Reference.engine) payload [f3; f1; f2] = [f3; f1_recoloured; f2].
Proof.
  apply (updateShapeProperty_converges (E := Reference.engine)
           (VNum 1%float) "color" (VStr "#ff0000") [f3; f1; f2]
           [f3; f1_recoloured; f2] [modifyEnvelope (VNum 1%float) f1_recoloured] 1
           (members f1)
           [("type", VStr "polygon"); ("color", VStr "#3388ff"); ("name", VStr "A")]
           (VNum 1%float)).
  all: vm_compute; reflexivity.
Defined.

(** A line and three markers, two of them under one id, searched for
    "HARB". *)
Lemma listed_witness :
  listedPoints (C := ReferenceCasing.casing) "HARB" [harbour; market; harbourAgain]
    = Return [harbour] /\
  sublist [harbour] [f3; harbour; market; harbourAgain].
Proof.
  assert (Hrun : listedPoints (C := ReferenceCasing.casing) "HARB"
                   [harbour; market; harbourAgain] = Return [harbour])
    by (vm_compute; reflexivity).
  split; [exact Hrun|].
  exact (proj1 (listedPoints_unique (C := ReferenceCasing.casing) "HARB"
                  [f3; harbour; market; harbourAgain] [harbour; market; harbourAgain]
                  [harbour] ltac:(vm_compute; reflexivity) Hrun)).
Defined.


(** The store has lost feature 1: the one call made for its key is the
    teardown of the layer tracked under it. *)
Lemma calls_in_place_witness :
  match syncShapes (E := Reference.engine) (T := Reference.leaflet)
          [f3; f2] (layersAfter [f3; f1; f2]) with
  | Return (lm', ops) =>
      replay (trackedUnder (layersAfter [f3; f1; f2]) "1") (opsFor "1" ops)
        = Some (trackedUnder lm' "1")
  | Throw _ => False
  end.
Proof.
  destruct (syncShapes _ _) as [[lm' ops]|e] eqn:Hsync;
    [|vm_compute in Hsync; discriminate Hsync].
  apply (syncShapes_calls_in_place (E := Reference.engine) (T := Reference.leaflet)
           [f3; f2] (layersAfter [f3; f1; f2]) lm' ops "1").
  - repeat constructor; vm_compute; reflexivity.
  - repeat constructor; vm_compute; reflexivity.
  - exact Hsync.
Defined.

(** Drawing the harbour marker, and hearing of it again. *)
Lemma create_witness :
  exists geoJson update,
    getProp geoJson "id" = Return (VNum 41%float) /\
    pointId geoJson = Return (VNum 41%float) /\
    <["41" := Layer drawnHarbourFeature]> (∅ : layers) =
      <[ToPropertyKey (E := Reference.engine) (VNum 41%float) := Layer geoJson]> ∅ /\
    [] ++ [appended drawnHarbourFeature] = [] ++ [update] /\
    [] ++ [Sample.envelope "add" drawnHarbourFeature] =
      [] ++ [VObj [("type", VStr "add"); ("data", geoJson)]] /\
    forall prev,
      update prev = Return (prev ++ [geoJson]) /\
      onFrame (E := Reference.engine)
        (VObj [("type", VStr "add"); ("data", geoJson)]) (prev ++ [geoJson]) =
        prev ++ [geoJson].
Proof.
  apply (handleCreate_survives_echo (E := Reference.engine) drawnHarbour 41%float
           ∅ (<["41" := Layer drawnHarbourFeature]> ∅)
           [] ([] ++ [Sample.envelope "add" drawnHarbourFeature])
           [] ([] ++ [appended drawnHarbourFeature])).
  - vm_compute. reflexivity.
  - reflexivity.
  - reflexivity.
Defined.

(** Moving the tracked square: the second client ends with the moved
    square where it held the square. *)
Lemma edit_witness :
  handleEdit true [f3; f1; f2]
    [Edited (Layer f1) (Return f1_moved)] ([], [], [])
  = Return ([Layer f1_moved], [modifyEnvelope (VNum 1%float) f1_moved],
            [replacedBy f1 f1_moved]) /\
  onFrame (E := Reference.engine) (modifyEnvelope (VNum 1%float) f1_moved) [f3; f1; f2]
  = [f3; f1_moved; f2].
Proof.
  assert (Hrun : handleEdit true [f3; f1; f2]
                   [Edited (Layer f1) (Return f1_moved)] ([], [], [])
                 = Return ([Layer f1_moved], [modifyEnvelope (VNum 1%float) f1_moved],
                           [replacedBy f1 f1_moved]))
    by (vm_compute; reflexivity).
  split; [exact Hrun|].
  destruct (handleEdit_converges (E := Reference.engine) [f3; f1; f2] (Layer f1) f1_moved
              (Sample.geometry "Polygon" (VArr [VArr movedSquare])) (members f1)
              (VNum 1%float) [] _ [] _ [] _ Hrun
              ltac:(vm_compute; reflexivity) eq_refl eq_refl)
    as (update & _ & _ & Hqueue & Hconverges).
  injection Hqueue as <-.
  exact (proj2 (Hconverges [f3; f1; f2] [f3; f1_moved; f2] 1 f1
                  ltac:(vm_compute; reflexivity) ltac:(vm_compute; reflexivity)
                  ltac:(vm_compute; reflexivity) eq_refl
                  ltac:(vm_compute; reflexivity) ltac:(vm_compute; reflexivity))).
Defined.

(** A pair whose longitude is no number comes back as the origin. *)
Lemma pair_witness :
  (exists lon lat,
      cleanCoordinatePair (E := Reference.engine) (VArr [VStr "abc"; VNum 1%float])
        = VArr [VNum lon; VNum lat] /\
      PrimFloat.is_finite lon = true /\ PrimFloat.is_finite lat = true) /\
  cleanCoordinatePair (E := Reference.engine) (VArr [VStr "abc"; VNum 1%float]) = origin.
Proof.
  destruct (cleanCoordinatePair_total (E := Reference.engine)
              (VArr [VStr "abc"; VNum 1%float])
              ltac:(by intros a b [= <- <-]))
    as (Hpair & _ & Hcase).
  split; [exact Hpair|].
  rewrite (Hcase _ _ eq_refl). vm_compute. reflexivity.
Defined.
